(** * agent-workflow: a shallow embedding of the provider glue, the CLI
      process runner, the fluent workflow builder and the run harness.

    Sources embedded here:
    - [src/opencode.ts]            (module [Opencode])
    - the CLI runner [defaultRunCliArgs] of the cli-agent test-suite
                                   (module [CliRunner])
    - [src/workflow-builder.ts]    (module [WorkflowBuilder])
    - the run harness of the orchestrator, which is not part of the
      sources at hand            (module [Harness]).

    JavaScript objects used as dictionaries are [gmap]s where only lookup
    matters and association lists where enumeration order matters. Where
    the code looks up a name it has been given in a plain object, the
    members inherited from [Object.prototype] are found as well. What the
    functions cannot decide for themselves, a rejected import, server
    start or file operation, is taken from the world they run in. *)

From Stdlib Require Import ZArith Lia.
From stdpp Require Import base option list strings gmap fin_maps sorting.

Local Open Scope string_scope.
Local Open Scope list_scope.

(** ** JavaScript values *)

(** The fragment of JavaScript values that the embedded functions inspect:
    they only ever ask for the [typeof], the truthiness and the [String(..)]
    rendering of a dynamically typed value. Numbers are the integers that
    [String(..)] renders in decimal, those below 10^21 in magnitude. *)
Inductive JsValue : Type :=
  | JUndefined
  | JNull
  | JBool (b : bool)
  | JNum (n : Z)
  | JStr (s : string).

Global Instance JsValue_eq_dec : EqDecision JsValue.
Proof. solve_decision. Defined.

Definition is_boolean (v : JsValue) : bool :=
  match v with JBool _ => true | _ => false end.

Definition is_undefined (v : JsValue) : bool :=
  match v with JUndefined => true | _ => false end.

(** [Boolean(v)] *)
Definition truthy (v : JsValue) : bool :=
  match v with
  | JUndefined | JNull => false
  | JBool b => b
  | JNum n => negb (n =? 0)%Z
  | JStr s => negb (String.eqb s "")
  end.

(** The double quote character, for the JSON texts below. *)
Definition dquote : string := String (Ascii.ascii_of_nat 34) EmptyString.
Definition quoted (s : string) : string := dquote +:+ s +:+ dquote.

(** Decimal rendering of a natural number, most significant digit first. *)
Definition digit (n : nat) : string :=
  String (Ascii.ascii_of_nat (48 + n mod 10)) EmptyString.

Fixpoint nat_digits (fuel n : nat) (acc : string) : string :=
  match fuel with
  | O => acc
  | S fuel' =>
      if Nat.ltb n 10 then digit n +:+ acc
      else nat_digits fuel' (n / 10) (digit n +:+ acc)
  end.

Definition nat_to_string (n : nat) : string := nat_digits (S n) n "".

(** [String(v)] *)
Definition js_String (v : JsValue) : string :=
  match v with
  | JUndefined => "undefined"
  | JNull => "null"
  | JBool true => "true"
  | JBool false => "false"
  | JNum n =>
      if (n <? 0)%Z then "-" +:+ nat_to_string (Z.to_nat (- n))
      else nat_to_string (Z.to_nat n)
  | JStr s => s
  end.

(** [xs.join(sep)] *)
Fixpoint join (sep : string) (xs : list string) : string :=
  match xs with
  | [] => ""
  | [x] => x
  | x :: rest => x +:+ sep +:+ join sep rest
  end.

(** [s.split(sep)] for a one-character separator. *)
Fixpoint split_go (sep : Ascii.ascii) (cur : string) (s : string) : list string :=
  match s with
  | EmptyString => [String.rev cur]
  | String c rest =>
      if Ascii.eqb c sep then String.rev cur :: split_go sep "" rest
      else split_go sep (String c cur) rest
  end.

Definition split (sep : Ascii.ascii) (s : string) : list string := split_go sep "" s.

(** A template hole [${x}] where [x] may be [undefined]. *)
Definition interp (x : option string) : string := default "undefined" x.

(** Computations that may throw. *)
Inductive Result (A : Type) : Type :=
  | Ok (a : A)
  | Throw (message : string).
Arguments Ok {A} a.
Arguments Throw {A} message.

Global Instance Result_ret : MRet Result := fun A a => Ok a.
Global Instance Result_bind : MBind Result := fun A B k r =>
  match r with
  | Ok a => k a
  | Throw m => Throw m
  end.

(** * src/opencode.ts *)
Module Opencode.

(** ** Response parts *)

(** A [Part] of the SDK, reduced to the two fields [extractResponseText]
    reads: the discriminating [type] and, on text parts, [text]. *)
Record Part : Type := mkPart {
  part_type : string;
  part_text : option string
}.

Definition textPart (t : string) : Part := mkPart "text" (Some t).

Definition is_text_part (p : Part) : bool := String.eqb (part_type p) "text".

(** [JSON.stringify({ status: 'error', summary })] *)
Definition error_json (summary : string) : string :=
  "{" +:+ quoted "status" +:+ ":" +:+ quoted "error" +:+ ","
      +:+ quoted "summary" +:+ ":" +:+ quoted summary +:+ "}".

(** [xs.at(-1)] *)
Definition at_last {A} (xs : list A) : option A := last xs.

(** [textPart?.text] is truthy: the part is there and its text is a
    non-empty string. *)
Definition truthy_text (p : option Part) : option string :=
  match p with
  | Some (mkPart _ (Some t)) => if String.eqb t "" then None else Some t
  | _ => None
  end.

Definition extractResponseText (response : option (list Part)) : string :=
  match response with
  | None => error_json "opencode response contained no parts"
  | Some [] => error_json "opencode response contained no parts"
  | Some parts =>
      let textPart := at_last (filter (fun p => is_text_part p = true) parts) in
      match truthy_text textPart with
      | Some t => t
      | None => error_json "opencode response contained no text parts"
      end
  end.

(** ** Members of plain objects *)

(** The names of the members that every plain object inherits from
    [Object.prototype]. Each of them is a function, or for [__proto__] the
    prototype itself: none is falsy, and none has a member [session]. *)
Definition Object_prototype : list string :=
  ["constructor"; "__defineGetter__"; "__defineSetter__"; "hasOwnProperty";
   "__lookupGetter__"; "__lookupSetter__"; "isPrototypeOf"; "propertyIsEnumerable";
   "toString"; "valueOf"; "__proto__"; "toLocaleString"].

(** What [o[key]] finds on a plain object [o]: a member of its own, or the
    member of that name it inherits. *)
Inductive Member (A : Type) : Type :=
  | Own (a : A)
  | Inherited (name : string).
Arguments Own {A} a.
Arguments Inherited {A} name.

(** [o[key]], [None] when it is [undefined]. *)
Definition js_get {A} (o : gmap string A) (key : string) : option (Member A) :=
  match o !! key with
  | Some a => Some (Own a)
  | None => if bool_decide (key ∈ Object_prototype) then Some (Inherited key) else None
  end.

(** ** The provider singletons and the file system *)

(** The value stored in [opencodeServer]; its [close] closes the SDK server
    it wraps, which is identified by its url. *)
Record ServerHandle : Type := mkServer { server_url : string }.

Record OpencodeClient : Type := mkClient {
  client_baseUrl : string;
  client_directory : string
}.

Inductive Permission : Type := allow | ask | deny.

Definition permission_text (p : Permission) : string :=
  match p with allow => "allow" | ask => "ask" | deny => "deny" end.

(** [AgentConfig]; [tools] and [permission] are only ever looked up. *)
Record AgentConfig : Type := mkAgentConfig {
  agent_description : option string;
  agent_mode : string;
  agent_model : string;
  agent_prompt : string;
  agent_tools : gmap string bool;
  agent_permission : gmap string Permission
}.

(** What sits under [config.agent[name]] in an [opencode.json] read from
    disk: an agent definition, [null] or a boolean, a number or a string,
    or any other object or array, which is kept by its JSON text. *)
Inductive AgentEntry : Type :=
  | AgentDef (cfg : AgentConfig)
  | AgentRaw (v : JsValue)
  | AgentOther (json : string).

Definition entry_truthy (e : AgentEntry) : bool :=
  match e with
  | AgentDef _ => true
  | AgentRaw v => truthy v
  | AgentOther _ => true
  end.

(** The [agent] member of a configuration when [typeof] says it is an
    object and it is not [null]: a plain object, or an array. *)
Inductive AgentMap : Type :=
  | AgentObject (members : gmap string AgentEntry)
  | AgentArray (elements : list AgentEntry).

(** What [JSON.parse] makes of the text of [opencode.json]: an object,
    with its [agent] member ([None] when that member is missing, is [null]
    or is not an object; the other members are never read and are kept as
    they are), an array, [null], or a boolean, a number or a string. *)
Inductive OpencodeConfig : Type :=
  | ConfigObject (agent : option AgentMap)
  | ConfigArray
  | ConfigNull
  | ConfigScalar.

(** A file holds a text, kept as the lines that were joined with a line
    feed, or the JSON text of a configuration, kept parsed. A text
    file stands for any content [JSON.parse] refuses. *)
Inductive FileData : Type :=
  | TextFile (lines : list string)
  | ConfigFile (config : OpencodeConfig).

(** What the functions cannot decide for themselves. The dynamic import of
    the SDK, [createOpencodeServer] and [createOpencodeClient] may each be
    rejected, with the error given; [mkdir] and [writeFile] are rejected on
    the paths of [refused], with the code given. The engine's arrays answer
    through [array_member], whether [elements[name]] is truthy, and
    [array_assign], the elements [JSON.stringify] finds after
    [elements[name] = value], a [Throw] when the assignment throws. *)
Record Host : Type := mkHost {
  import_error : option string;
  server_error : option string;
  client_error : option string;
  refused : gmap string string;
  array_member : list AgentEntry -> string -> bool;
  array_assign : list AgentEntry -> string -> AgentConfig -> Result (list AgentEntry)
}.

(** The module state of [opencode.ts] together with the part of the outer
    world its functions touch. [sdkClosed] logs the urls of the SDK servers
    whose [close()] has been called, oldest first; [sdkStarted] counts the
    servers the SDK has created. *)
Record World : Type := mkWorld {
  opencodeServer : option ServerHandle;
  opencodeClients : gmap string OpencodeClient;
  sdkStarted : nat;
  sdkClosed : list string;
  files : gmap string FileData;
  dirs : gset string;
  host : Host
}.

Definition set_server (v : option ServerHandle) (w : World) : World :=
  mkWorld v (opencodeClients w) (sdkStarted w) (sdkClosed w) (files w) (dirs w) (host w).
Definition set_clients (v : gmap string OpencodeClient) (w : World) : World :=
  mkWorld (opencodeServer w) v (sdkStarted w) (sdkClosed w) (files w) (dirs w) (host w).
Definition set_sdkStarted (v : nat) (w : World) : World :=
  mkWorld (opencodeServer w) (opencodeClients w) v (sdkClosed w) (files w) (dirs w) (host w).
Definition set_sdkClosed (v : list string) (w : World) : World :=
  mkWorld (opencodeServer w) (opencodeClients w) (sdkStarted w) v (files w) (dirs w) (host w).
Definition set_files (v : gmap string FileData) (w : World) : World :=
  mkWorld (opencodeServer w) (opencodeClients w) (sdkStarted w) (sdkClosed w) v (dirs w)
    (host w).
Definition set_dirs (v : gset string) (w : World) : World :=
  mkWorld (opencodeServer w) (opencodeClients w) (sdkStarted w) (sdkClosed w) (files w) v
    (host w).

(** [for (const key of Object.keys(opencodeClients)) delete opencodeClients[key]] *)
Definition resetOpencodeClients (w : World) : World :=
  set_clients (foldr delete (opencodeClients w) (map fst (map_to_list (opencodeClients w)))) w.

(** The [close] member installed by [getOpencodeServer]. *)
Definition handle_close (h : ServerHandle) (w : World) : World :=
  let w := set_sdkClosed (sdkClosed w ++ [server_url h]) w in
  let w := set_server None w in
  resetOpencodeClients w.

Definition closeOpencodeServer (w : World) : World :=
  let w :=
    match opencodeServer w with
    | Some h => set_server None (handle_close h w)
    | None => w
    end in
  resetOpencodeClients w.

(** [sdk.createOpencodeServer]: the url of the n-th server. *)
Definition sdk_url (n : nat) : string := "http://127.0.0.1/" +:+ nat_to_string n.

(** [await import('@opencode-ai/sdk')] *)
Definition getSdk (w : World) : Result unit :=
  match import_error (host w) with
  | Some e => Throw e
  | None => Ok tt
  end.

Definition getOpencodeServer (w : World) : Result ServerHandle * World :=
  match opencodeServer w with
  | Some h => (Ok h, w)
  | None =>
      match getSdk w with
      | Throw e => (Throw e, w)
      | Ok _ =>
          match server_error (host w) with
          | Some e => (Throw e, w)
          | None =>
              let h := mkServer (sdk_url (sdkStarted w)) in
              (Ok h, set_server (Some h) (set_sdkStarted (S (sdkStarted w)) w))
          end
      end
  end.

(** What comes back is [opencodeClients[directory]]: the client filed
    under the directory, or for a directory named like a member of
    [Object.prototype] that member, which is no client. *)
Definition getOpencodeClient (directory : string) (w : World)
    : Result (Member OpencodeClient) * World :=
  let w := match opencodeServer w with
           | Some _ => w
           | None => resetOpencodeClients w
           end in
  match js_get (opencodeClients w) directory with
  | Some found => (Ok found, w)
  | None =>
      match getOpencodeServer w with
      | (Throw e, w) => (Throw e, w)
      | (Ok server, w) =>
          match getSdk w with
          | Throw e => (Throw e, w)
          | Ok _ =>
              match client_error (host w) with
              | Some e => (Throw e, w)
              | None =>
                  let opencode := mkClient (server_url server) directory in
                  (Ok (Own opencode),
                   set_clients (<[directory := opencode]> (opencodeClients w)) w)
              end
          end
      end
  end.

(** ** Agent definitions *)

Definition TOOL_KEYS : list string :=
  ["read"; "write"; "edit"; "bash"; "grep"; "glob"; "list"; "patch";
   "todowrite"; "todoread"; "webfetch"].

Definition PERMISSION_KEYS : list string := ["edit"; "bash"; "webfetch"].

(** [ToolOptions] as it arrives at run time: the declared type promises
    booleans, the code checks for them. *)
Abbreviation ToolOptions := (gmap string JsValue).

(** [tools[key]] *)
Definition tool_get (tools : ToolOptions) (key : string) : JsValue :=
  default JUndefined (tools !! key).

(** [tools && typeof tools[key] === 'boolean' ? tools[key] : false] *)
Definition tool_flag (tools : option ToolOptions) (key : string) : bool :=
  match tools with
  | Some t =>
      match tool_get t key with
      | JBool b => b
      | _ => false
      end
  | None => false
  end.

(** [tools && tools[key] ? 'allow' : 'deny'] *)
Definition tool_permission (tools : option ToolOptions) (key : string) : Permission :=
  match tools with
  | Some t => if truthy (tool_get t key) then allow else deny
  | None => deny
  end.

(** [/[^a-z0-9-_.]/gi] does not match the character. *)
Definition name_char_kept (c : Ascii.ascii) : bool :=
  let n := Ascii.nat_of_ascii c in
  (Nat.leb 97 n && Nat.leb n 122) || (Nat.leb 65 n && Nat.leb n 90)
  || (Nat.leb 48 n && Nat.leb n 57)
  || Nat.eqb n 45 || Nat.eqb n 95 || Nat.eqb n 46.

Definition lower_char (c : Ascii.ascii) : Ascii.ascii :=
  let n := Ascii.nat_of_ascii c in
  if Nat.leb 65 n && Nat.leb n 90 then Ascii.ascii_of_nat (n + 32) else c.

Fixpoint map_string (f : Ascii.ascii -> Ascii.ascii) (s : string) : string :=
  match s with
  | EmptyString => EmptyString
  | String c rest => String (f c) (map_string f rest)
  end.

Definition dash : Ascii.ascii := Ascii.ascii_of_nat 45.
Definition slash : Ascii.ascii := Ascii.ascii_of_nat 47.

(** [`${name.replace(/[^a-z0-9-_.]/gi, '-').toLowerCase()}.md`] *)
Definition agent_filename (name : string) : string :=
  map_string lower_char (map_string (fun c => if name_char_kept c then c else dash) name)
  +:+ ".md".

(** *** [path.join], as [path.posix] has it *)

Definition starts_with_slash (s : string) : bool :=
  match s with
  | String c _ => Ascii.eqb c slash
  | EmptyString => false
  end.

Fixpoint ends_with_slash (s : string) : bool :=
  match s with
  | EmptyString => false
  | String c EmptyString => Ascii.eqb c slash
  | String _ rest => ends_with_slash rest
  end.

(** One segment of [normalizeString]: an empty segment and [.] are passed
    over, [..] takes the last segment away, or is kept where there is none
    to take and the path is relative, and any other segment is added. *)
Definition normalize_step (allowAboveRoot : bool) (res : list string) (segment : string)
    : list string :=
  if String.eqb segment "" || String.eqb segment "." then res
  else if String.eqb segment ".." then
    match last res with
    | Some top =>
        if String.eqb top ".." then (if allowAboveRoot then res ++ [".."] else res)
        else removelast res
    | None => if allowAboveRoot then res ++ [".."] else res
    end
  else res ++ [segment].

(** [path.normalize] *)
Definition path_normalize (path : string) : string :=
  if String.eqb path "" then "."
  else
    let isAbsolute := starts_with_slash path in
    let trailingSeparator := ends_with_slash path in
    let res := fold_left (normalize_step (negb isAbsolute)) (split slash path) [] in
    match res with
    | [] => if isAbsolute then "/" else if trailingSeparator then "./" else "."
    | _ =>
        (if isAbsolute then "/" else "") +:+ join "/" res
        +:+ (if trailingSeparator then "/" else "")
    end.

(** [path.join(...segments)]: the segments that are not empty, joined by
    a slash and normalised. *)
Definition path_join (segments : list string) : string :=
  match filter (fun s => s <> "") segments with
  | [] => "."
  | given => path_normalize (join "/" given)
  end.

(** [`${providerID}/${modelID}`] after [model.split('/')] *)
Definition model_text (model : string) : string :=
  let parts := split slash model in
  interp (parts !! 0%nat) +:+ "/" +:+ interp (parts !! 1%nat).

Definition tool_line (tools : option ToolOptions) (key : string) : string :=
  let val := tool_flag tools key in
  "  " +:+ key +:+ ": " +:+ (if val then "true" else "false").

Definition permission_line (tools : option ToolOptions) (key : string) : string :=
  let val := permission_text (tool_permission tools key) in
  "  " +:+ key +:+ ": " +:+ val.

Definition frontmatterLines (name model instructions : string)
    (tools : option ToolOptions) : list string :=
  ["---"; "description: " +:+ name; "mode: primary";
   "model: " +:+ model_text model; "tools:"]
  ++ map (tool_line tools) TOOL_KEYS
  ++ ["permission:"]
  ++ map (permission_line tools) PERMISSION_KEYS
  ++ ["---"; ""; instructions].

(** [fs.promises.access(p)] succeeds. *)
Definition fs_exists (p : string) (w : World) : bool :=
  bool_decide (is_Some (files w !! p)) || bool_decide (p ∈ dirs w).

(** [fs.promises.mkdir(p, { recursive: true })]: rejected where the host
    refuses it and where a file is in the way. *)
Definition fs_mkdir (p : string) (w : World) : Result unit * World :=
  match refused (host w) !! p with
  | Some code => (Throw code, w)
  | None =>
      if bool_decide (is_Some (files w !! p)) then (Throw "EEXIST", w)
      else (Ok tt, set_dirs ({[p]} ∪ dirs w) w)
  end.

(** [fs.promises.writeFile(p, d)]: rejected where the host refuses it and
    on a directory. *)
Definition fs_writeFile (p : string) (d : FileData) (w : World) : Result unit * World :=
  match refused (host w) !! p with
  | Some code => (Throw code, w)
  | None =>
      if bool_decide (p ∈ dirs w) then (Throw "EISDIR", w)
      else (Ok tt, set_files (<[p := d]> (files w)) w)
  end.

Definition agent_filePath (directory name : string) : string :=
  path_join [path_join [directory; ".opencode"; "agent"]; agent_filename name].

Definition createAgentViaMarkdown (directory name model instructions : string)
    (tools : option ToolOptions) (w : World) : Result string * World :=
  let agentsDir := path_join [directory; ".opencode"; "agent"] in
  match fs_mkdir agentsDir w with
  | (Throw e, w) => (Throw e, w)
  | (Ok _, w) =>
      let filePath := path_join [agentsDir; agent_filename name] in
      if fs_exists filePath w then (Ok filePath, w)
      else
        match fs_writeFile filePath
                (TextFile (frontmatterLines name model instructions tools)) w with
        | (Throw e, w) => (Throw e, w)
        | (Ok _, w) =>
            let w := closeOpencodeServer w in
            (Ok filePath, w)
        end
  end.

(** The loop over [TOOL_KEYS] of [createAgentViaConfig], one round. *)
Definition config_tool_step (tools : option ToolOptions) (agentConfig : AgentConfig)
    (key : string) : AgentConfig :=
  let toolsMap := <[key := tool_flag tools key]> (agent_tools agentConfig) in
  let permission :=
    if String.eqb key "edit" || String.eqb key "bash" || String.eqb key "webfetch"
    then <[key := tool_permission tools key]> (agent_permission agentConfig)
    else agent_permission agentConfig in
  mkAgentConfig (agent_description agentConfig) (agent_mode agentConfig)
    (agent_model agentConfig) (agent_prompt agentConfig) toolsMap permission.

Definition new_agentConfig (name model instructions : string)
    (tools : option ToolOptions) : AgentConfig :=
  fold_left (config_tool_step tools) TOOL_KEYS
    (mkAgentConfig (Some name) "primary" (model_text model) instructions ∅ ∅).

(** [fs.promises.readFile] followed by [JSON.parse], with the handling of
    the failure: a missing file gives the fresh configuration, anything
    else is thrown again. *)
Definition read_config (configPath : string) (w : World) : Result OpencodeConfig :=
  match files w !! configPath with
  | Some (ConfigFile config) => Ok config
  | Some (TextFile _) => Throw "SyntaxError"
  | None =>
      if bool_decide (configPath ∈ dirs w) then Throw "EISDIR"
      else Ok (ConfigObject None)
  end.

(** [if (typeof config.agent !== 'object' || config.agent === null)
    config.agent = {}], and what [config.agent] is after it. Reading a
    member of [null] throws a [TypeError], and on a boolean, a number or a
    string the member cannot be created: a [TypeError] again, thrown there
    in strict code and otherwise by the assignment to [config.agent[name]],
    in either case before anything is written. An array takes the member.
    The message of a [TypeError] depends on the engine and is left out. *)
Definition ensure_agent (config : OpencodeConfig) : Result AgentMap :=
  match config with
  | ConfigObject (Some agent) => Ok agent
  | ConfigObject None => Ok (AgentObject ∅)
  | ConfigArray => Ok (AgentObject ∅)
  | ConfigNull => Throw "TypeError"
  | ConfigScalar => Throw "TypeError"
  end.

(** [config.agent?.[name]] is truthy. *)
Definition agent_found (h : Host) (agent : AgentMap) (name : string) : bool :=
  match agent with
  | AgentObject members =>
      match js_get members name with
      | Some (Own entry) => entry_truthy entry
      | Some (Inherited _) => true
      | None => false
      end
  | AgentArray elements => array_member h elements name
  end.

(** [config.agent[name] = agentConfig] *)
Definition agent_assign (h : Host) (agent : AgentMap) (name : string)
    (agentConfig : AgentConfig) : Result AgentMap :=
  match agent with
  | AgentObject members => Ok (AgentObject (<[name := AgentDef agentConfig]> members))
  | AgentArray elements =>
      match array_assign h elements name agentConfig with
      | Throw e => Throw e
      | Ok elements' => Ok (AgentArray elements')
      end
  end.

(** What [JSON.stringify(config)] holds: of an object its members, the
    [agent] member among them; of an array its elements only, not the
    [agent] member it was given. *)
Definition stringified (config : OpencodeConfig) (agent : AgentMap) : OpencodeConfig :=
  match config with
  | ConfigArray => ConfigArray
  | _ => ConfigObject (Some agent)
  end.

Definition createAgentViaConfig (directory name model instructions : string)
    (tools : option ToolOptions) (w : World) : Result string * World :=
  let configPath := path_join [directory; "opencode.json"] in
  match read_config configPath w with
  | Throw e => (Throw e, w)
  | Ok config =>
      match ensure_agent config with
      | Throw e => (Throw e, w)
      | Ok agent =>
          if agent_found (host w) agent name then (Ok configPath, w)
          else
            let agentConfig := new_agentConfig name model instructions tools in
            match agent_assign (host w) agent name agentConfig with
            | Throw e => (Throw e, w)
            | Ok agent =>
                match fs_writeFile configPath (ConfigFile (stringified config agent)) w with
                | (Throw e, w) => (Throw e, w)
                | (Ok _, w) =>
                    let w := closeOpencodeServer w in
                    (Ok configPath, w)
                end
            end
      end
  end.

(** ** Message diffs *)

Record Session : Type := mkSession {
  session_id : string;
  session_directory : string
}.

Section Provider.

(** [FileDiff] of the SDK. *)
Variable FileDiff : Type.

(** [message?.data?.info?.summary]: absent, a boolean, or an object whose
    [diffs] member is [None] when it is not an array. *)
Inductive Summary : Type :=
  | SummaryAbsent
  | SummaryFlag (b : bool)
  | SummaryWithDiffs (diffs : option (list FileDiff)).

Definition extractSummaryDiffs (summary : Summary) : list FileDiff :=
  match summary with
  | SummaryWithDiffs (Some diffs) => diffs
  | _ => []
  end.

(** The two requests [getMessageDiff] sends through a client, by session
    id, directory query and message id: [session.diff], whose answer may
    lack [data], and [session.message], of which the summary is read.
    A request that is rejected is a [Throw]. *)
Variable session_diff :
  OpencodeClient -> string -> option string -> string -> Result (option (list FileDiff)).
Variable session_message :
  OpencodeClient -> string -> option string -> string -> Result Summary.

(** A member inherited from [Object.prototype] has no [session]:
    [opencode.session.diff] throws a [TypeError]. *)
Definition getMessageDiff (session : Session) (messageID : string) (w : World)
    : Result (list FileDiff) * World :=
  if String.eqb messageID "" then (Ok [], w)
  else
    match getOpencodeClient (session_directory session) w with
    | (Throw e, w) => (Throw e, w)
    | (Ok (Inherited _), w) =>
        (Throw "TypeError", w)
    | (Ok (Own opencode), w) =>
        let directoryQuery :=
          if String.eqb (session_directory session) "" then None
          else Some (session_directory session) in
        match session_diff opencode (session_id session) directoryQuery messageID with
        | Throw m => (Throw m, w)
        | Ok None => (Throw "Failed to retrieve Opencode message diff", w)
        | Ok (Some data) =>
            if Nat.ltb 0 (length data) then (Ok data, w)
            else
              match session_message opencode (session_id session) directoryQuery
                      messageID with
              | Ok summary =>
                  let summaryDiffs := extractSummaryDiffs summary in
                  if Nat.ltb 0 (length summaryDiffs) then (Ok summaryDiffs, w)
                  else (Ok [], w)
              | Throw _ => (Ok [], w)
              end
        end
    end.

End Provider.

End Opencode.

(** * The CLI process runner: [defaultRunCliArgs] *)
Module CliRunner.

Abbreviation Buffer := (list Byte.byte).

Inductive Capture : Type := capture_text | capture_buffer | capture_both.

(** [input.stdinValue]: a dynamically typed value or a [Uint8Array]. *)
Inductive StdinValue : Type :=
  | StdinJs (v : JsValue)
  | StdinBytes (bytes : Buffer).

(** A JavaScript object as the list of its own enumerable members. *)
Abbreviation JsObject := (list (string * JsValue)).

(** [Object.keys(o)] *)
Definition Object_keys (o : JsObject) : list string := map fst o.

(** [o[key]] *)
Fixpoint obj_get (o : JsObject) (key : string) : JsValue :=
  match o with
  | [] => JUndefined
  | (k, v) :: rest => if String.eqb k key then v else obj_get rest key
  end.

(** [keys.sort()]: the default comparison orders strings by their code
    units. *)
Definition sort_keys (keys : list string) : list string := merge_sort String.le keys.

Record CliRuntimeInvocation : Type := mkInvocation {
  step_command : string;
  args : option JsObject;
  cwd : option string;
  stdinValue : StdinValue;
  capture : option Capture
}.

Record CliRuntimeResult : Type := mkResult {
  stdout : string;
  stderr : string;
  stdoutBuffer : option Buffer;
  stderrBuffer : option Buffer;
  exitCode : Z
}.

(** What [spawn] was called with. *)
Record SpawnCall : Type := mkSpawn {
  spawn_command : string;
  spawn_argv : list string;
  spawn_cwd : option string;
  spawn_shell : bool
}.

(** The standard input of the child as the child sees it. *)
Record Stdin : Type := mkStdin {
  stdin_bytes : Buffer;
  stdin_ended : bool
}.

Definition fresh_stdin : Stdin := mkStdin [] false.

(** A chunk delivered by a ['data'] event. *)
Inductive Chunk : Type :=
  | ChunkBuffer (b : Buffer)
  | ChunkString (s : string).

(** What the child emits after [spawn]. *)
Inductive ChildEvent : Type :=
  | StdoutData (chunk : Chunk)
  | StderrData (chunk : Chunk)
  | ErrorEvent (err : string)
  | CloseEvent (code : option Z).

Inductive Promise : Type :=
  | Pending
  | Resolved (result : CliRuntimeResult)
  | Rejected (err : string).

(** The variables the handlers close over, and the promise returned. *)
Record Runner : Type := mkRunner {
  r_stdout : string;
  r_stderr : string;
  stdoutChunks : list Buffer;
  stderrChunks : list Buffer;
  promise : Promise
}.

(** [resolve] and [reject] act on a pending promise only. *)
Definition settle (p : Promise) (outcome : Promise) : Promise :=
  match p with
  | Pending => outcome
  | _ => p
  end.

Definition captureBuffer (input : CliRuntimeInvocation) : bool :=
  match capture input with
  | Some capture_buffer | Some capture_both => true
  | _ => false
  end.

Definition captureText (input : CliRuntimeInvocation) : bool :=
  match capture input with
  | Some capture_text | Some capture_both => true
  | _ => false
  end.

Definition argv (input : CliRuntimeInvocation) : list string :=
  let o := default [] (args input) in
  map (fun key => js_String (obj_get o key)) (sort_keys (Object_keys o)).

Definition spawn_call (input : CliRuntimeInvocation) : SpawnCall :=
  mkSpawn (step_command input) (argv input) (cwd input) false.

Section Platform.

(** The two conversions of Node.js between strings and buffers, both with
    the default encoding, utf8: [Buffer.from(s)], which is also how a stream
    encodes a string written to it, and [buffer.toString()]. *)
Variable Buffer_from : string -> Buffer.
Variable Buffer_toString : Buffer -> string.

(** [stream.end(chunk)] *)
Definition stream_end (chunk : Chunk) (s : Stdin) : Stdin :=
  let bytes := match chunk with
               | ChunkBuffer b => b
               | ChunkString t => Buffer_from t
               end in
  if stdin_ended s then s
  else mkStdin (stdin_bytes s ++ bytes) true.

(** The block that feeds [child.stdin]. *)
Definition feed_stdin (input : CliRuntimeInvocation) (child_stdin : option Stdin)
    : option Stdin :=
  match stdinValue input, child_stdin with
  | StdinJs JUndefined, _ => child_stdin
  | _, None => None
  | StdinJs (JStr s), Some stdin => Some (stream_end (ChunkString s) stdin)
  | StdinBytes bytes, Some stdin => Some (stream_end (ChunkBuffer bytes) stdin)
  | StdinJs v, Some stdin => Some (stream_end (ChunkString (js_String v)) stdin)
  end.

(** [Buffer.isBuffer(chunk) ? chunk : Buffer.from(chunk)] *)
Definition to_buffer (chunk : Chunk) : Buffer :=
  match chunk with
  | ChunkBuffer b => b
  | ChunkString s => Buffer_from s
  end.

Definition on_close (input : CliRuntimeInvocation) (code : option Z) (r : Runner) : Runner :=
  let stdoutBuffer := if captureBuffer input then Some (concat (stdoutChunks r)) else None in
  let stderrBuffer := if captureBuffer input then Some (concat (stderrChunks r)) else None in
  let stdout := match stdoutBuffer with
                | Some b => if negb (captureText input) then Buffer_toString b else r_stdout r
                | None => r_stdout r
                end in
  let stderr := match stderrBuffer with
                | Some b => if negb (captureText input) then Buffer_toString b else r_stderr r
                | None => r_stderr r
                end in
  mkRunner stdout stderr (stdoutChunks r) (stderrChunks r)
    (settle (promise r)
       (Resolved (mkResult stdout stderr stdoutBuffer stderrBuffer (default (-1)%Z code)))).

(** One event delivered to the handlers registered by the runner. *)
Definition handle (input : CliRuntimeInvocation) (r : Runner) (ev : ChildEvent) : Runner :=
  match ev with
  | StdoutData chunk =>
      let buffer := to_buffer chunk in
      mkRunner
        (if captureText input then r_stdout r +:+ Buffer_toString buffer else r_stdout r)
        (r_stderr r)
        (if captureBuffer input then stdoutChunks r ++ [buffer] else stdoutChunks r)
        (stderrChunks r) (promise r)
  | StderrData chunk =>
      let buffer := to_buffer chunk in
      mkRunner (r_stdout r)
        (if captureText input then r_stderr r +:+ Buffer_toString buffer else r_stderr r)
        (stdoutChunks r)
        (if captureBuffer input then stderrChunks r ++ [buffer] else stderrChunks r)
        (promise r)
  | ErrorEvent err =>
      mkRunner (r_stdout r) (r_stderr r) (stdoutChunks r) (stderrChunks r)
        (settle (promise r) (Rejected err))
  | CloseEvent code => on_close input code r
  end.

Definition initial_runner : Runner := mkRunner "" "" [] [] Pending.

(** What one call of the runner amounts to, given what the child does:
    whether it has a standard input and the events it emits, in order. *)
Record Observed : Type := mkObserved {
  spawned : SpawnCall;
  child_stdin : option Stdin;
  returned : Promise
}.

Definition defaultRunCliArgs (input : CliRuntimeInvocation)
    (has_stdin : bool) (events : list ChildEvent) : Observed :=
  let child := spawn_call input in
  let stdin := feed_stdin input (if has_stdin then Some fresh_stdin else None) in
  let r := fold_left (handle input) events initial_runner in
  mkObserved child stdin (promise r).

(** The chunks of each stream, as buffers, in arrival order. *)
Definition stdout_chunks (events : list ChildEvent) : list Buffer :=
  omap (fun ev => match ev with StdoutData c => Some (to_buffer c) | _ => None end) events.

Definition stderr_chunks (events : list ChildEvent) : list Buffer :=
  omap (fun ev => match ev with StderrData c => Some (to_buffer c) | _ => None end) events.

End Platform.

Definition is_data (ev : ChildEvent) : Prop :=
  match ev with
  | StdoutData _ | StderrData _ => True
  | _ => False
  end.

End CliRunner.

(** * src/workflow-builder.ts *)
Module WorkflowBuilder.

(** ** Zod schemas, as far as the converter looks into them *)

(** One entry of [_def.checks]; [check_kind] is empty when the check has
    no [kind]. *)
Record ZodCheck : Type := mkCheck {
  check_kind : string;
  check_value : option Z
}.

(** [_def] of a literal: [value] ([JUndefined] when absent) and [values]
    ([None] when it is not an array). *)
Record LiteralDef : Type := mkLiteral {
  lit_value : JsValue;
  lit_values : option (list JsValue)
}.

(** A Zod schema by its [_def.type]. [ZOther] stands for every type name
    the converter does not know. Wrappers always carry their inner schema,
    as Zod builds them. *)
#[warnings="-register-all"]
Inductive ZodSchema : Type :=
  | ZUnknown
  | ZAny
  | ZString (checks : list ZodCheck)
  | ZNumber (checks : list ZodCheck)
  | ZBoolean
  | ZArray (element : option ZodSchema)
  | ZObject (shape : list (string * ZodSchema))
  | ZLiteral (def : LiteralDef)
  | ZEnum (entries : list (string * string))
  | ZUnion (options : list ZodSchema)
  | ZDefault (defaultValue : JsValue) (innerType : ZodSchema)
  | ZOptional (innerType : ZodSchema)
  | ZNullable (innerType : ZodSchema)
  | ZEffects (schema : ZodSchema)
  | ZOther (typeName : string).

(** [ParserDraft]. An absent [default] is [JUndefined]; [integer] is only
    ever set to [true]. *)
#[warnings="-register-all"]
Inductive ParserDraft : Type :=
  | PUnknown (p_default : JsValue)
  | PString (enum : option (list string)) (minLength maxLength : option Z)
      (p_default : JsValue)
  | PNumber (enum : option (list Z)) (minimum maximum : option Z) (integer : bool)
      (p_default : JsValue)
  | PBoolean (p_default : JsValue)
  | PArray (items : ParserDraft) (p_default : JsValue)
  | PObject (properties : list (string * ParserDraft)) (required : option (list string))
      (p_default : JsValue).

(** [(parsed as any).default] *)
Definition draft_default (p : ParserDraft) : JsValue :=
  match p with
  | PUnknown d | PString _ _ _ d | PNumber _ _ _ _ d | PBoolean d
  | PArray _ d | PObject _ _ d => d
  end.

(** [(parsed as any).default = v] *)
Definition set_default (v : JsValue) (p : ParserDraft) : ParserDraft :=
  match p with
  | PUnknown _ => PUnknown v
  | PString e lo hi _ => PString e lo hi v
  | PNumber e lo hi i _ => PNumber e lo hi i v
  | PBoolean _ => PBoolean v
  | PArray items _ => PArray items v
  | PObject ps req _ => PObject ps req v
  end.

Fixpoint unwrapEffects (schema : ZodSchema) : ZodSchema :=
  match schema with
  | ZEffects inner => unwrapEffects inner
  | _ => schema
  end.

Record Unwrapped : Type := mkUnwrapped {
  inner : ZodSchema;
  defaultValue : JsValue;
  u_required : bool
}.

Definition is_nullable (s : ZodSchema) : bool :=
  match s with ZNullable _ => true | _ => false end.

(** The tail of [unwrapSchema], from the test for a nullable schema on. *)
Definition unwrap_finish (current : ZodSchema) (defaultValue : JsValue) (required : bool)
    : Result Unwrapped :=
  if is_nullable current
  then Throw "Nullable schemas are not supported for workflow conversion"
  else Ok (mkUnwrapped (unwrapEffects current) defaultValue required).

Fixpoint unwrapSchema (schema : ZodSchema) : Result Unwrapped :=
  let after_default := fun (current : ZodSchema) (required : bool) (defaultValue : JsValue) =>
    match current with
    | ZOptional innerType =>
        match unwrapSchema innerType with
        | Throw m => Throw m
        | Ok nested =>
            unwrap_finish (inner nested)
              (if is_undefined defaultValue
                  && negb (is_undefined (WorkflowBuilder.defaultValue nested))
               then WorkflowBuilder.defaultValue nested else defaultValue)
              false
        end
    | _ => unwrap_finish current defaultValue required
    end in
  match unwrapEffects schema with
  | ZDefault dv innerType => after_default innerType false dv
  | current => after_default current true JUndefined
  end.

Definition string_check_ignored (kind : string) : bool :=
  String.eqb kind "" || String.eqb kind "email" || String.eqb kind "url"
  || String.eqb kind "uuid" || String.eqb kind "regex".

(** [extractStringChecks]; the pair is [(minLength, maxLength)]. *)
Fixpoint string_checks_loop (checks : list ZodCheck) (minLength maxLength : option Z)
    : Result (option Z * option Z) :=
  match checks with
  | [] => Ok (minLength, maxLength)
  | check :: rest =>
      if String.eqb (check_kind check) "min"
      then string_checks_loop rest (check_value check) maxLength
      else if String.eqb (check_kind check) "max"
      then string_checks_loop rest minLength (check_value check)
      else if string_check_ignored (check_kind check)
      then string_checks_loop rest minLength maxLength
      else Throw "Unsupported string constraint in Zod schema"
  end.

Definition extractStringChecks (checks : list ZodCheck) : Result (option Z * option Z) :=
  string_checks_loop checks None None.

(** [extractNumberChecks]; the triple is [(minimum, maximum, integer)]. *)
Fixpoint number_checks_loop (checks : list ZodCheck) (minimum maximum : option Z)
    (integer : bool) : Result (option Z * option Z * bool) :=
  match checks with
  | [] => Ok (minimum, maximum, integer)
  | check :: rest =>
      if String.eqb (check_kind check) "min"
      then number_checks_loop rest (check_value check) maximum integer
      else if String.eqb (check_kind check) "max"
      then number_checks_loop rest minimum (check_value check) integer
      else if String.eqb (check_kind check) "int"
      then number_checks_loop rest minimum maximum true
      else if String.eqb (check_kind check) "" || String.eqb (check_kind check) "finite"
      then number_checks_loop rest minimum maximum integer
      else Throw "Unsupported number constraint in Zod schema"
  end.

Definition extractNumberChecks (checks : list ZodCheck)
    : Result (option Z * option Z * bool) :=
  number_checks_loop checks None None false.

(** [xs.map(f)] where [f] may throw. *)
Fixpoint map_result {A B} (f : A -> Result B) (xs : list A) : Result (list B) :=
  match xs with
  | [] => Ok []
  | x :: rest =>
      match f x with
      | Throw m => Throw m
      | Ok y =>
          match map_result f rest with
          | Throw m => Throw m
          | Ok ys => Ok (y :: ys)
          end
      end
  end.

Definition is_literal (s : ZodSchema) : bool :=
  match s with ZLiteral _ => true | _ => false end.

(** The value a member of a union of literals stands for. *)
Definition union_literal_value (l : ZodSchema) : JsValue :=
  match l with
  | ZLiteral def =>
      if negb (is_undefined (lit_value def)) then lit_value def
      else match lit_values def with
           | Some (v :: _) => v
           | _ => JUndefined
           end
  | _ => JUndefined
  end.

Definition as_string (v : JsValue) : option string :=
  match v with JStr s => Some s | _ => None end.
Definition as_number (v : JsValue) : option Z :=
  match v with JNum n => Some n | _ => None end.

Definition convertUnionOfLiterals (schemas : list ZodSchema) : Result ParserDraft :=
  match map_result unwrapSchema schemas with
  | Throw m => Throw m
  | Ok unwrapped =>
      let literals := filter (fun s => is_literal s = true) (map inner unwrapped) in
      if negb (Nat.eqb (length literals) (length schemas))
      then Throw "Only unions of literals are supported"
      else
        let values := map union_literal_value literals in
        match mapM as_string values with
        | Some strings => Ok (PString (Some strings) None None JUndefined)
        | None =>
            match mapM as_number values with
            | Some numbers => Ok (PNumber (Some numbers) None None false JUndefined)
            | None =>
                if forallb is_boolean values then
                  match values with
                  | [v] => Ok (PBoolean v)
                  | _ => Throw "Boolean literal unions with multiple values are not supported"
                  end
                else Throw "Unsupported literal union type"
            end
        end
  end.

(** [properties[key] = converted] on the members in enumeration order. *)
Fixpoint obj_set {A} (o : list (string * A)) (key : string) (v : A) : list (string * A) :=
  match o with
  | [] => [(key, v)]
  | (k, old) :: rest =>
      if String.eqb k key then (k, v) :: rest else (k, old) :: obj_set rest key v
  end.

(** [literalDef.value ?? (Array.isArray(literalDef.values) ? literalDef.values[0] : undefined)] *)
Definition literal_value (def : LiteralDef) : JsValue :=
  match lit_value def with
  | JUndefined | JNull =>
      match lit_values def with
      | Some (v :: _) => v
      | _ => JUndefined
      end
  | v => v
  end.

Section Body.

(** The converter calls itself on the element of an array and on the
    members of an object; [self] stands for these calls. *)
Variable self : ZodSchema -> Result ParserDraft.

(** One round of the loop over [Object.entries(shape)]; the state is
    [(properties, requiredKeys)]. *)
Definition object_step (acc : list (string * ParserDraft) * list string)
    (entry : string * ZodSchema) : Result (list (string * ParserDraft) * list string) :=
  let '(properties, requiredKeys) := acc in
  let '(key, value) := entry in
  match self value with
  | Throw m => Throw m
  | Ok converted =>
      let properties := obj_set properties key converted in
      match unwrapSchema value with
      | Throw m => Throw m
      | Ok unwrapped =>
          let hasDefault := negb (is_undefined (draft_default converted))
                            || negb (is_undefined (defaultValue unwrapped)) in
          if u_required unwrapped && negb hasDefault
          then Ok (properties, requiredKeys ++ [key])
          else Ok (properties, requiredKeys)
      end
  end.

Fixpoint object_loop (entries : list (string * ZodSchema))
    (acc : list (string * ParserDraft) * list string)
    : Result (list (string * ParserDraft) * list string) :=
  match entries with
  | [] => Ok acc
  | entry :: rest =>
      match object_step acc entry with
      | Throw m => Throw m
      | Ok acc' => object_loop rest acc'
      end
  end.

(** The branch on [typeNameOf(inner)]. *)
Definition convert_inner (inner : ZodSchema) : Result ParserDraft :=
  match inner with
  | ZUnknown | ZAny => Ok (PUnknown JUndefined)
  | ZString checks =>
      match extractStringChecks checks with
      | Throw m => Throw m
      | Ok (minLength, maxLength) => Ok (PString None minLength maxLength JUndefined)
      end
  | ZNumber checks =>
      match extractNumberChecks checks with
      | Throw m => Throw m
      | Ok (minimum, maximum, integer) =>
          Ok (PNumber None minimum maximum integer JUndefined)
      end
  | ZBoolean => Ok (PBoolean JUndefined)
  | ZArray element =>
      let child := default ZUnknown element in
      match self child with
      | Throw m => Throw m
      | Ok items => Ok (PArray items JUndefined)
      end
  | ZObject shape =>
      match object_loop shape ([], []) with
      | Throw m => Throw m
      | Ok (properties, requiredKeys) =>
          Ok (PObject properties
                (if Nat.ltb 0 (length requiredKeys) then Some requiredKeys else None)
                JUndefined)
      end
  | ZLiteral def =>
      match literal_value def with
      | JStr s => Ok (PString (Some [s]) None None JUndefined)
      | JNum n => Ok (PNumber (Some [n]) None None false JUndefined)
      | JBool b => Ok (PBoolean (JBool b))
      | _ => Throw "Unsupported literal type in Zod schema"
      end
  | ZEnum entries => Ok (PString (Some (map snd entries)) None None JUndefined)
  | ZUnion options => convertUnionOfLiterals options
  | _ => Throw "Unsupported Zod schema type for workflow parser conversion"
  end.

(** The body of [zodToWorkflowParserJsonSchema]. *)
Definition convert_body (schema : ZodSchema) : Result ParserDraft :=
  match unwrapSchema schema with
  | Throw m => Throw m
  | Ok unwrapped =>
      match convert_inner (inner unwrapped) with
      | Throw m => Throw m
      | Ok parsed =>
          if negb (is_undefined (defaultValue unwrapped))
          then Ok (set_default (defaultValue unwrapped) parsed)
          else Ok parsed
      end
  end.

End Body.

(** The nesting depth of a schema bounds the depth of the calls. *)
Fixpoint depth (schema : ZodSchema) : nat :=
  match schema with
  | ZArray (Some element) => S (depth element)
  | ZArray None => 1
  | ZObject shape =>
      S ((fix members (l : list (string * ZodSchema)) : nat :=
            match l with
            | [] => 0
            | (_, value) :: rest => Nat.max (depth value) (members rest)
            end) shape)
  | ZUnion options =>
      S ((fix members (l : list ZodSchema) : nat :=
            match l with
            | [] => 0
            | value :: rest => Nat.max (depth value) (members rest)
            end) options)
  | ZDefault _ innerType | ZOptional innerType | ZNullable innerType => S (depth innerType)
  | ZEffects inner => S (depth inner)
  | _ => 0
  end.

(** The converter with the call depth bounded: past the bound the engine
    gives up. *)
Fixpoint convert_bounded (calls : nat) (schema : ZodSchema) : Result ParserDraft :=
  match calls with
  | O => Throw "RangeError: Maximum call stack size exceeded"
  | S calls' => convert_body (convert_bounded calls') schema
  end.

(** The depth of the schema is a bound that is never reached, see
    [zodToWorkflowParserJsonSchema_unfold] below. *)
Definition zodToWorkflowParserJsonSchema (schema : ZodSchema) : Result ParserDraft :=
  convert_bounded (S (depth schema)) schema.

(** ** Steps and the round builder *)

Inductive SchemaArg : Type :=
  | FromZod (schema : ZodSchema)
  | FromJson (schema : ParserDraft).

Definition normalizeParserSchema (schema : option SchemaArg) : Result (option ParserDraft) :=
  match schema with
  | None => Ok None
  | Some (FromZod z) =>
      match zodToWorkflowParserJsonSchema z with
      | Throw m => Throw m
      | Ok p => Ok (Some p)
      end
  | Some (FromJson p) => Ok (Some p)
  end.

(** [Object.keys(o)] for an object of any member type. *)
Definition Object_keys_of {A} (o : list (string * A)) : list string := map fst o.

Section Steps.

(** [WorkflowTransitionDefinition] comes from the schema module. *)
Variable Transition : Type.

Record CommonStepFields : Type := mkCommon {
  next : option string;
  stateUpdates : option (list (string * string));
  transitions : option (list Transition);
  exits : option (list Transition)
}.

Definition no_options : CommonStepFields := mkCommon None None None None.

Record AgentStepDraft : Type := mkAgentStep {
  agent_key : string;
  agent_role : string;
  agent_prompt : list string;
  agent_common : CommonStepFields
}.

Record CliOptions (S : Type) : Type := mkCliOptions {
  cli_args : option (list string);
  cli_argsObject : option (list (string * string));
  cli_argsSchema : option S;
  cli_cwd : option string;
  cli_stdinFrom : option string;
  cli_capture : option CliRunner.Capture;
  cli_common : CommonStepFields
}.
Arguments mkCliOptions {S}.
Arguments cli_args {S}.
Arguments cli_argsObject {S}.
Arguments cli_argsSchema {S}.
Arguments cli_cwd {S}.
Arguments cli_stdinFrom {S}.
Arguments cli_capture {S}.
Arguments cli_common {S}.

Record CliStepDraft : Type := mkCliStep {
  cli_key : string;
  cli_command : string;
  cli_fields : CliOptions ParserDraft
}.

Record ReferenceOptions (S : Type) : Type := mkReferenceOptions {
  ref_input : option (list (string * JsValue));
  ref_inputSchema : option S;
  ref_common : CommonStepFields
}.
Arguments mkReferenceOptions {S}.
Arguments ref_input {S}.
Arguments ref_inputSchema {S}.
Arguments ref_common {S}.

Record WorkflowReferenceStepDraft : Type := mkReferenceStep {
  ref_key : string;
  ref_workflowId : string;
  ref_fields : ReferenceOptions ParserDraft
}.

Record TransformOptions (S : Type) : Type := mkTransformOptions {
  tr_input : JsValue;
  tr_inputSchema : option S;
  tr_common : CommonStepFields
}.
Arguments mkTransformOptions {S}.
Arguments tr_input {S}.
Arguments tr_inputSchema {S}.
Arguments tr_common {S}.

Record TransformStepDraft : Type := mkTransformStep {
  tr_key : string;
  tr_template : JsValue;
  tr_fields : TransformOptions ParserDraft
}.

Inductive AnyStepDraft : Type :=
  | AgentStep (s : AgentStepDraft)
  | CliStep (s : CliStepDraft)
  | WorkflowStep (s : WorkflowReferenceStepDraft)
  | TransformStep (s : TransformStepDraft).

Definition buildAgentStep (key role : string) (prompt : list string)
    (options : CommonStepFields) : AgentStepDraft :=
  mkAgentStep key role prompt options.

Definition buildCliStep (key command : string) (options : CliOptions SchemaArg)
    : Result CliStepDraft :=
  argsSchema ← normalizeParserSchema (cli_argsSchema options);
  Ok (mkCliStep key command
        (mkCliOptions (cli_args options) (cli_argsObject options) argsSchema
           (cli_cwd options) (cli_stdinFrom options) (cli_capture options)
           (cli_common options))).

Definition buildWorkflowReferenceStep (key workflowId : string)
    (options : ReferenceOptions SchemaArg) : Result WorkflowReferenceStepDraft :=
  inputSchema ← normalizeParserSchema (ref_inputSchema options);
  Ok (mkReferenceStep key workflowId
        (mkReferenceOptions (ref_input options) inputSchema (ref_common options))).

Definition buildTransformStep (key : string) (template : JsValue)
    (options : TransformOptions SchemaArg) : Result TransformStepDraft :=
  inputSchema ← normalizeParserSchema (tr_inputSchema options);
  Ok (mkTransformStep key template
        (mkTransformOptions (tr_input options) inputSchema (tr_common options))).

Record Outcome : Type := mkOutcome {
  outcome : string;
  reason : string
}.

Record RoundDefinitionDraft : Type := mkRound {
  start : option string;
  steps : list AnyStepDraft;
  maxRounds : option Z;
  defaultOutcome : option Outcome
}.

(** ** [RoundBuilder]: the private [draft] and the methods *)
Definition RoundBuilder_new : RoundDefinitionDraft := mkRound None [] None None.

Definition RoundBuilder_push (step : AnyStepDraft) (draft : RoundDefinitionDraft) : RoundDefinitionDraft :=
  mkRound (start draft) (steps draft ++ [step])
    (maxRounds draft) (defaultOutcome draft).

Definition RoundBuilder_start (stepKey : string) (draft : RoundDefinitionDraft) : RoundDefinitionDraft :=
  mkRound (Some stepKey) (steps draft) (maxRounds draft)
    (defaultOutcome draft).

Definition RoundBuilder_maxRounds (count : Z) (draft : RoundDefinitionDraft) : RoundDefinitionDraft :=
  mkRound (start draft) (steps draft) (Some count)
    (defaultOutcome draft).

Definition RoundBuilder_defaultOutcome (outcome reason : string) (draft : RoundDefinitionDraft)
    : RoundDefinitionDraft :=
  mkRound (start draft) (steps draft) (maxRounds draft)
    (Some (mkOutcome outcome reason)).

Definition RoundBuilder_agent (key role : string) (prompt : list string) (options : CommonStepFields)
    (draft : RoundDefinitionDraft) : RoundDefinitionDraft :=
  RoundBuilder_push (AgentStep (buildAgentStep key role prompt options)) draft.

Definition RoundBuilder_cli (key command : string) (options : CliOptions SchemaArg)
    (draft : RoundDefinitionDraft) : Result RoundDefinitionDraft :=
  step ← buildCliStep key command options;
  Ok (RoundBuilder_push (CliStep step) draft).

Definition RoundBuilder_workflow (key workflowId : string) (options : ReferenceOptions SchemaArg)
    (draft : RoundDefinitionDraft) : Result RoundDefinitionDraft :=
  step ← buildWorkflowReferenceStep key workflowId options;
  Ok (RoundBuilder_push (WorkflowStep step) draft).

Definition RoundBuilder_transform (key : string) (template : JsValue) (options : TransformOptions SchemaArg)
    (draft : RoundDefinitionDraft) : Result RoundDefinitionDraft :=
  step ← buildTransformStep key template options;
  Ok (RoundBuilder_push (TransformStep step) draft).

Definition RoundBuilder_build (draft : RoundDefinitionDraft) : Result RoundDefinitionDraft :=
  match defaultOutcome draft with
  | None => Throw "defaultOutcome is required for workflow rounds"
  | Some o =>
      if Nat.eqb (length (steps draft)) 0
      then Throw "At least one step is required in a workflow round"
      else Ok (mkRound (start draft) (steps draft)
                 (maxRounds draft) (Some o))
  end.


(** A chain of method calls on one builder, as the callback handed to
    [WorkflowBuilder.round] makes them. *)
Inductive RoundCall : Type :=
  | CallStart (stepKey : string)
  | CallMaxRounds (count : Z)
  | CallDefaultOutcome (outcome reason : string)
  | CallAgent (key role : string) (prompt : list string) (options : CommonStepFields)
  | CallCli (key command : string) (options : CliOptions SchemaArg)
  | CallWorkflow (key workflowId : string) (options : ReferenceOptions SchemaArg)
  | CallTransform (key : string) (template : JsValue) (options : TransformOptions SchemaArg).

Definition call (draft : RoundDefinitionDraft) (c : RoundCall) : Result RoundDefinitionDraft :=
  match c with
  | CallStart k => Ok (RoundBuilder_start k draft)
  | CallMaxRounds n => Ok (RoundBuilder_maxRounds n draft)
  | CallDefaultOutcome o r => Ok (RoundBuilder_defaultOutcome o r draft)
  | CallAgent k role prompt options => Ok (RoundBuilder_agent k role prompt options draft)
  | CallCli k command options => RoundBuilder_cli k command options draft
  | CallWorkflow k id options => RoundBuilder_workflow k id options draft
  | CallTransform k template options => RoundBuilder_transform k template options draft
  end.

Fixpoint chain (calls : list RoundCall) (draft : RoundDefinitionDraft)
    : Result RoundDefinitionDraft :=
  match calls with
  | [] => Ok draft
  | c :: rest =>
      match call draft c with
      | Throw m => Throw m
      | Ok draft' => chain rest draft'
      end
  end.

(** The step a call adds to the round, if it adds one. *)
Definition added_step (c : RoundCall) : Result (option AnyStepDraft) :=
  match c with
  | CallAgent k role prompt options => Ok (Some (AgentStep (buildAgentStep k role prompt options)))
  | CallCli k command options => s ← buildCliStep k command options; Ok (Some (CliStep s))
  | CallWorkflow k id options =>
      s ← buildWorkflowReferenceStep k id options; Ok (Some (WorkflowStep s))
  | CallTransform k template options =>
      s ← buildTransformStep k template options; Ok (Some (TransformStep s))
  | _ => Ok None
  end.

(** [WorkflowBuilder.round(builder)], up to the assignment of the result. *)
Definition round (calls : list RoundCall) : Result RoundDefinitionDraft :=
  draft ← chain calls RoundBuilder_new;
  RoundBuilder_build draft.

(** ** [WorkflowBuilder]: the private [state] and the methods *)

Record RoleConfig : Type := mkRoleConfig {
  systemPrompt : string;
  role_parser : string;
  role_tools : option (gmap string JsValue)
}.

Record WorkflowBuilderState : Type := mkBuilder {
  b_id : string;
  b_description : option string;
  b_model : option string;
  b_sessions : list (string * option string);
  b_parsers : list (string * ParserDraft);
  b_roles : list (string * RoleConfig);
  b_state : option (list (string * string));
  b_user : option (list (string * ParserDraft));
  b_bootstrap : option AnyStepDraft;
  b_round : option RoundDefinitionDraft
}.

(** The definition that [build()] hands to the validator. *)
Record WorkflowDefinition : Type := mkDefinition {
  def_schema : string;
  def_id : string;
  def_description : option string;
  def_model : option string;
  def_sessions : list (string * option string);
  def_parsers : option (list (string * ParserDraft));
  def_roles : list (string * RoleConfig);
  def_state : option (list (string * string));
  def_user : option (list (string * ParserDraft));
  def_bootstrap : option AnyStepDraft;
  def_round : RoundDefinitionDraft
}.

(** [validateWorkflowDefinition] comes from the schema module. *)
Variable validateWorkflowDefinition : WorkflowDefinition -> Result WorkflowDefinition.

(** [isZodSchema(schema) ? zodToWorkflowParserJsonSchema(schema) : schema] *)
Definition normalize_given (schema : SchemaArg) : Result ParserDraft :=
  match schema with
  | FromZod z => zodToWorkflowParserJsonSchema z
  | FromJson p => Ok p
  end.

Definition WorkflowBuilder_new (id : string) : WorkflowBuilderState :=
  mkBuilder id None None [] [] [] None None None None.

Definition WorkflowBuilder_description (text : string) (b : WorkflowBuilderState)
    : WorkflowBuilderState :=
  mkBuilder (b_id b) (Some text) (b_model b) (b_sessions b) (b_parsers b) (b_roles b)
    (b_state b) (b_user b) (b_bootstrap b) (b_round b).

Definition WorkflowBuilder_model (model : string) (b : WorkflowBuilderState)
    : WorkflowBuilderState :=
  mkBuilder (b_id b) (b_description b) (Some model) (b_sessions b) (b_parsers b) (b_roles b)
    (b_state b) (b_user b) (b_bootstrap b) (b_round b).

Definition WorkflowBuilder_session (role : string) (nameTemplate : option string)
    (b : WorkflowBuilderState) : WorkflowBuilderState :=
  mkBuilder (b_id b) (b_description b) (b_model b) (b_sessions b ++ [(role, nameTemplate)])
    (b_parsers b) (b_roles b) (b_state b) (b_user b) (b_bootstrap b) (b_round b).

Definition WorkflowBuilder_parser (name : string) (schema : SchemaArg)
    (b : WorkflowBuilderState) : Result WorkflowBuilderState :=
  normalized ← normalize_given schema;
  Ok (mkBuilder (b_id b) (b_description b) (b_model b) (b_sessions b)
        (obj_set (b_parsers b) name normalized) (b_roles b)
        (b_state b) (b_user b) (b_bootstrap b) (b_round b)).

Definition WorkflowBuilder_role (name : string) (config : RoleConfig)
    (b : WorkflowBuilderState) : WorkflowBuilderState :=
  mkBuilder (b_id b) (b_description b) (b_model b) (b_sessions b) (b_parsers b)
    (obj_set (b_roles b) name
       (mkRoleConfig (systemPrompt config) (role_parser config) (role_tools config)))
    (b_state b) (b_user b) (b_bootstrap b) (b_round b).

Definition WorkflowBuilder_user (key : string) (schema : SchemaArg)
    (b : WorkflowBuilderState) : Result WorkflowBuilderState :=
  normalized ← normalize_given schema;
  Ok (mkBuilder (b_id b) (b_description b) (b_model b) (b_sessions b) (b_parsers b)
        (b_roles b) (b_state b)
        (Some (obj_set (default [] (b_user b)) key normalized))
        (b_bootstrap b) (b_round b)).

Definition WorkflowBuilder_stateInitial (initial : list (string * string))
    (b : WorkflowBuilderState) : WorkflowBuilderState :=
  mkBuilder (b_id b) (b_description b) (b_model b) (b_sessions b) (b_parsers b) (b_roles b)
    (Some initial) (b_user b) (b_bootstrap b) (b_round b).

Definition set_bootstrap (step : AnyStepDraft) (b : WorkflowBuilderState)
    : WorkflowBuilderState :=
  mkBuilder (b_id b) (b_description b) (b_model b) (b_sessions b) (b_parsers b) (b_roles b)
    (b_state b) (b_user b) (Some step) (b_round b).

Definition WorkflowBuilder_bootstrapAgent (key role : string) (prompt : list string)
    (options : CommonStepFields) (b : WorkflowBuilderState) : WorkflowBuilderState :=
  set_bootstrap (AgentStep (buildAgentStep key role prompt options)) b.

Definition WorkflowBuilder_bootstrapCli (key command : string) (options : CliOptions SchemaArg)
    (b : WorkflowBuilderState) : Result WorkflowBuilderState :=
  step ← buildCliStep key command options;
  Ok (set_bootstrap (CliStep step) b).

Definition WorkflowBuilder_bootstrapWorkflow (key workflowId : string)
    (options : ReferenceOptions SchemaArg) (b : WorkflowBuilderState)
    : Result WorkflowBuilderState :=
  step ← buildWorkflowReferenceStep key workflowId options;
  Ok (set_bootstrap (WorkflowStep step) b).

Definition WorkflowBuilder_bootstrapTransform (key : string) (template : JsValue)
    (options : TransformOptions SchemaArg) (b : WorkflowBuilderState)
    : Result WorkflowBuilderState :=
  step ← buildTransformStep key template options;
  Ok (set_bootstrap (TransformStep step) b).

(** [round(builder)]: the callback is the chain of calls it makes. *)
Definition WorkflowBuilder_round (calls : list RoundCall) (b : WorkflowBuilderState)
    : Result WorkflowBuilderState :=
  built ← round calls;
  Ok (mkBuilder (b_id b) (b_description b) (b_model b) (b_sessions b) (b_parsers b)
        (b_roles b) (b_state b) (b_user b) (b_bootstrap b) (Some built)).

Definition WorkflowBuilder_build (b : WorkflowBuilderState) : Result WorkflowDefinition :=
  match b_round b with
  | None => Throw "Workflow round must be defined before build()"
  | Some round =>
      validateWorkflowDefinition
        (mkDefinition "https://hyperagent.dev/schemas/agent-workflow.json"
           (b_id b) (b_description b) (b_model b) (b_sessions b)
           (if Nat.ltb 0 (length (Object_keys_of (b_parsers b)))
            then Some (b_parsers b) else None)
           (b_roles b) (b_state b) (b_user b) (b_bootstrap b) round)
  end.

End Steps.

Arguments steps {Transition}.
Arguments start {Transition}.
Arguments maxRounds {Transition}.
Arguments defaultOutcome {Transition}.
Arguments mkRound {Transition}.
Arguments RoundBuilder_new {Transition}.
Arguments RoundBuilder_push {Transition}.
Arguments RoundBuilder_build {Transition}.
Arguments call {Transition}.
Arguments chain {Transition}.
Arguments added_step {Transition}.
Arguments round {Transition}.
Arguments CallStart {Transition}.
Arguments CallMaxRounds {Transition}.
Arguments CallDefaultOutcome {Transition}.
Arguments CallAgent {Transition}.
Arguments CallCli {Transition}.
Arguments CallWorkflow {Transition}.
Arguments CallTransform {Transition}.
Arguments AgentStep {Transition}.
Arguments CliStep {Transition}.
Arguments WorkflowStep {Transition}.
Arguments TransformStep {Transition}.
Arguments WorkflowBuilder_new {Transition}.
Arguments WorkflowBuilder_description {Transition}.
Arguments WorkflowBuilder_model {Transition}.
Arguments WorkflowBuilder_session {Transition}.
Arguments WorkflowBuilder_parser {Transition}.
Arguments WorkflowBuilder_role {Transition}.
Arguments WorkflowBuilder_user {Transition}.
Arguments WorkflowBuilder_stateInitial {Transition}.
Arguments WorkflowBuilder_bootstrapAgent {Transition}.
Arguments WorkflowBuilder_bootstrapCli {Transition}.
Arguments WorkflowBuilder_bootstrapWorkflow {Transition}.
Arguments WorkflowBuilder_bootstrapTransform {Transition}.
Arguments WorkflowBuilder_round {Transition}.
Arguments WorkflowBuilder_build {Transition}.
Arguments mkDefinition {Transition}.
Arguments mkBuilder {Transition}.
Arguments b_id {Transition}.
Arguments b_description {Transition}.
Arguments b_model {Transition}.
Arguments b_sessions {Transition}.
Arguments b_parsers {Transition}.
Arguments b_roles {Transition}.
Arguments b_state {Transition}.
Arguments b_user {Transition}.
Arguments b_bootstrap {Transition}.
Arguments b_round {Transition}.

End WorkflowBuilder.

(** * The run harness *)
Module Harness.

Import WorkflowBuilder.

(** Modelled from the spec: the numeric and string bounds of a parser
    schema (section 3), which the sources at hand only import. *)
Definition in_bounds (n : Z) (lo hi : option Z) : bool :=
  from_option (fun l => (l <=? n)%Z) true lo && from_option (fun h => (n <=? h)%Z) true hi.

(** Modelled from the spec: the validator of a parser schema (section 4.1),
    which the sources at hand only import. It is given on the values of
    [JsValue], none of which is an array or an object. An absent value is
    [JUndefined]; the result is the coerced value or the details of the
    failure. *)
Definition validate (schema : ParserDraft) (value : JsValue) : Result JsValue :=
  if is_undefined value && negb (is_undefined (draft_default schema))
  then Ok (draft_default schema)
  else
    match schema, value with
    | PUnknown _, _ => Ok value
    | _, JUndefined => Throw "Invalid input: expected a value, received undefined"
    | PString enum lo hi _, JStr s =>
        if negb (from_option (fun e => bool_decide (s ∈ e)) true enum)
        then Throw "Invalid option: expected one of the enum values"
        else if in_bounds (Z.of_nat (String.length s)) lo hi then Ok value
        else Throw "Invalid input: string length out of bounds"
    | PString _ _ _ _, _ => Throw "Invalid input: expected string"
    | PNumber enum lo hi _ _, JNum n =>
        if negb (from_option (fun e => bool_decide (n ∈ e)) true enum)
        then Throw "Invalid option: expected one of the enum values"
        else if in_bounds n lo hi then Ok value
        else Throw "Invalid input: number out of bounds"
    | PNumber _ _ _ _ _, _ => Throw "Invalid input: expected number"
    | PBoolean _, JBool _ => Ok value
    | PBoolean _, _ => Throw "Invalid input: expected boolean"
    | PArray _ _, _ => Throw "Invalid input: expected array"
    | PObject _ _ _, _ => Throw "Invalid input: expected object"
    end.

(** Modelled from the spec: the [user] map of a document is an object
    schema whose members are the declared inputs; every declared input is
    validated, in the order of the declaration, and the first failure is
    reported under its key. *)
Fixpoint validate_user (declared : list (string * ParserDraft))
    (user : CliRunner.JsObject) : Result CliRunner.JsObject :=
  match declared with
  | [] => Ok []
  | (key, schema) :: rest =>
      match validate schema (CliRunner.obj_get user key) with
      | Throw details => Throw (key +:+ ": " +:+ details)
      | Ok v =>
          match validate_user rest user with
          | Throw details => Throw details
          | Ok vs => Ok ((key, v) :: vs)
          end
      end
  end.

(** Modelled from the spec: the errors of section 7 a run is rejected
    with, the one for invalid inputs apart from the others. *)
Inductive RunError : Type :=
  | InputValidationError (message : string)
  | FatalError (class message : string).

Section Engine.

(** Modelled from the spec: the rest of a validated document, the result
    of a run, and what a step does to the outside (a file written, a prompt
    sent), all three left open. *)
Variables Flow RunResult StepEffect : Type.

Record Document : Type := mkDocument {
  doc_id : string;
  doc_user : option (list (string * ParserDraft));
  doc_flow : Flow
}.

Record Options : Type := mkOptions {
  opt_user : CliRunner.JsObject;
  opt_sessionDir : string
}.

Inductive Future : Type :=
  | Resolves (result : RunResult)
  | Rejects (error : RunError).

(** Modelled from the spec: the handle of a run, with the effects of its
    steps in the order in which they happened. *)
Record Run : Type := mkRun {
  run_result : Future;
  run_effects : list StepEffect
}.

(** Modelled from the spec: the flow engine of section 4.6, started on
    the validated inputs. *)
Variable engine : Document -> CliRunner.JsObject -> Options -> Run.

(** Modelled from the spec: [runWorkflow] of section 4.9, whose first act
    is the validation of [options.user] against the [user] schema of the
    document; only then is the state rendered and the engine started. *)
Definition runWorkflow (document : Document) (options : Options) : Run :=
  match validate_user (default [] (doc_user document)) (opt_user options) with
  | Throw details =>
      mkRun (Rejects (InputValidationError
               ("Invalid user inputs for workflow " +:+ doc_id document +:+ ": " +:+ details)))
            []
  | Ok user => engine document user options
  end.

End Engine.

End Harness.

(** * Strings and paths *)
Module StringFacts.

Import Opencode.

Lemma string_app_nil_r (s : string) : s +:+ "" = s.
Proof.
  induction s as [|c s IH]; [done|].
  change (String c (s +:+ "") = String c s). by rewrite IH.
Qed.

Lemma string_app_assoc (a b c : string) : (a +:+ b) +:+ c = a +:+ b +:+ c.
Proof.
  induction a as [|x a IH]; [done|].
  change (String x ((a +:+ b) +:+ c) = String x (a +:+ b +:+ c)). by rewrite IH.
Qed.

Fixpoint no_sep (sep : Ascii.ascii) (s : string) : bool :=
  match s with
  | EmptyString => true
  | String c rest => negb (Ascii.eqb c sep) && no_sep sep rest
  end.

Fixpoint last_char (s : string) : option Ascii.ascii :=
  match s with
  | EmptyString => None
  | String c EmptyString => Some c
  | String _ rest => last_char rest
  end.

Lemma split_go_segment (sep : Ascii.ascii) (a : string) : forall cur,
  no_sep sep a = true ->
  split_go sep cur a = [String.rev_app cur a]
  /\ forall b, split_go sep cur (a +:+ String sep b)
               = String.rev_app cur a :: split_go sep "" b.
Proof.
  induction a as [|c a IH]; intros cur Hno.
  - split; [done|]. intros b. simpl. by rewrite Ascii.eqb_refl.
  - simpl in Hno. apply andb_true_iff in Hno as [Hc Hno].
    apply negb_true_iff in Hc.
    destruct (IH (String c cur) Hno) as [H1 H2].
    split.
    + simpl. by rewrite Hc, H1.
    + intros b. simpl. by rewrite Hc, H2.
Qed.

Lemma split_go_app (sep : Ascii.ascii) (a b : string) : forall cur,
  split_go sep cur (a +:+ String sep b) = split_go sep cur a ++ split_go sep "" b.
Proof.
  induction a as [|c a IH]; intros cur.
  - simpl. by rewrite Ascii.eqb_refl.
  - change (split_go sep cur (String c (a +:+ String sep b))
            = split_go sep cur (String c a) ++ split_go sep "" b).
    simpl. destruct (Ascii.eqb c sep); [by rewrite IH|apply IH].
Qed.

Lemma last_char_app (a f : string) : f <> "" -> last_char (a +:+ f) = last_char f.
Proof.
  intros Hf. induction a as [|c a IH]; [done|].
  change (last_char (String c (a +:+ f)) = last_char f).
  destruct (a +:+ f) as [|c' s] eqn:E; [|exact IH].
  destruct a; [|discriminate E]. by destruct f.
Qed.

Lemma last_char_nonempty (f : string) (c : Ascii.ascii) : last_char f = Some c -> f <> "".
Proof. by destruct f. Qed.

Lemma last_char_no_sep (sep : Ascii.ascii) (f : string) (c : Ascii.ascii) :
  no_sep sep f = true -> last_char f = Some c -> Ascii.eqb c sep = false.
Proof.
  induction f as [|x f IH]; [done|]. simpl.
  intros [Hx Hf]%andb_true_iff. destruct f as [|y f].
  - intros [= <-]. by apply negb_true_iff.
  - by apply IH.
Qed.

Lemma no_sep_app (sep : Ascii.ascii) (a b : string) :
  no_sep sep a = true -> no_sep sep b = true -> no_sep sep (a +:+ b) = true.
Proof.
  intros Ha Hb. induction a as [|c a IH]; [done|].
  simpl in Ha. apply andb_true_iff in Ha as [Hc Ha].
  change (negb (Ascii.eqb c sep) && no_sep sep (a +:+ b) = true).
  by rewrite Hc, IH.
Qed.

Lemma ends_with_slash_last (s : string) :
  ends_with_slash s
  = match last_char s with Some c => Ascii.eqb c slash | None => false end.
Proof. induction s as [|c s IH]; [done|]. simpl. by destruct s. Qed.

Lemma join_snoc (sep : string) (xs : list string) (f : string) :
  exists pre, join sep (xs ++ [f]) = pre +:+ f.
Proof.
  induction xs as [|x xs [pre IH]]; [by exists ""|].
  change (join sep ((x :: xs) ++ [f])) with (join sep (x :: (xs ++ [f]))).
  destruct (xs ++ [f]) as [|y ys] eqn:E; [by destruct xs|].
  exists (x +:+ sep +:+ pre).
  change (join sep (x :: y :: ys)) with (x +:+ sep +:+ join sep (y :: ys)).
  by rewrite IH, !string_app_assoc.
Qed.

Definition dot : Ascii.ascii := Ascii.ascii_of_nat 46.

(** A path segment that [path.join] keeps as it is: it holds no slash and
    ends in a character that is not a dot. *)
Definition kept_segment (f : string) : Prop :=
  no_sep slash f = true /\ exists c, last_char f = Some c /\ c <> dot.

Lemma kept_segment_step (allowAboveRoot : bool) (res : list string) (f : string) :
  kept_segment f -> normalize_step allowAboveRoot res f = res ++ [f].
Proof.
  intros (_ & c & Hc & Hdot). unfold normalize_step.
  destruct (String.eqb_spec f "") as [->|_]; [done|].
  destruct (String.eqb_spec f ".") as [->|_]; [by injection Hc as <-|].
  destruct (String.eqb_spec f "..") as [->|_]; [by injection Hc as <-|].
  done.
Qed.

Lemma path_normalize_last (path : string) (segments : list string) (f : string) :
  kept_segment f ->
  split slash path = segments ++ [f] ->
  last_char path = last_char f ->
  exists pre, path_normalize path = pre +:+ f.
Proof.
  intros Hf Hsplit Hlast. pose proof Hf as (Hno & c & Hc & Hdot).
  rewrite Hc in Hlast.
  unfold path_normalize.
  destruct (String.eqb_spec path "") as [->|_]; [done|].
  rewrite ends_with_slash_last, Hlast, (last_char_no_sep slash f c Hno Hc).
  rewrite Hsplit, fold_left_app. simpl. rewrite kept_segment_step by done.
  set (res := fold_left _ segments []).
  destruct (join_snoc "/" res f) as [pre Hpre].
  destruct (res ++ [f]) as [|y ys] eqn:E; [by destruct res|].
  rewrite Hpre. exists ((if starts_with_slash path then "/" else "") +:+ pre).
  by rewrite string_app_nil_r, string_app_assoc.
Qed.

(** The path [path.join] gives ends in its last segment, when that is one
    of those it keeps. *)
Lemma path_join_last (segments : list string) (f : string) :
  kept_segment f -> exists pre, path_join (segments ++ [f]) = pre +:+ f.
Proof.
  intros Hf. pose proof Hf as (Hno & c & Hc & Hdot).
  pose proof (last_char_nonempty f c Hc) as Hne.
  unfold path_join. rewrite filter_app.
  rewrite (filter_cons_True _ f []) by done. rewrite filter_nil.
  set (given := filter _ segments).
  destruct (split_go_segment slash f "" Hno) as [Hseg _].
  destruct given as [|x given].
  - simpl. apply (path_normalize_last f []); done.
  - assert (exists joined, join "/" ((x :: given) ++ [f]) = joined +:+ String slash f)
      as [joined Hj].
    { clear. revert x.
      induction given as [|y given IH]; intros x.
      - by exists x.
      - destruct (IH y) as [joined Hj]. exists (x +:+ "/" +:+ joined).
        change (join "/" ((x :: y :: given) ++ [f]))
          with (x +:+ "/" +:+ join "/" ((y :: given) ++ [f])).
        by rewrite Hj, !string_app_assoc. }
    destruct ((x :: given) ++ [f]) as [|y ys] eqn:E; [done|].
    rewrite Hj.
    apply (path_normalize_last _ (split slash joined)); [done| |].
    + unfold split. by rewrite split_go_app, Hseg.
    + change (String slash f) with ("/" +:+ f).
      rewrite <- string_app_assoc. by apply last_char_app.
Qed.

End StringFacts.

(** * Properties of src/opencode.ts *)
Module OpencodeSpec.

Import Opencode StringFacts.

(** ** [extractResponseText] *)

(** The text of the last part that is a text part with a non-empty
    text. *)
Definition last_nonempty_text (parts : list Part) : option string :=
  last (omap (fun p => if is_text_part p then truthy_text (Some p) else None) parts).

Lemma filter_no_text (after : list Part) :
  Forall (fun q => is_text_part q = false) after ->
  filter (fun p => is_text_part p = true) after = [].
Proof.
  induction 1 as [|q after Hq _ IH]; [done|].
  rewrite filter_cons_False; [exact IH | congruence].
Qed.

Lemma last_text_part (before after : list Part) (p : Part) :
  is_text_part p = true ->
  Forall (fun q => is_text_part q = false) after ->
  at_last (filter (fun p => is_text_part p = true) (before ++ p :: after)) = Some p.
Proof.
  intros Hp Hafter. unfold at_last.
  rewrite filter_app, filter_cons_True by done.
  rewrite (filter_no_text after Hafter).
  apply last_snoc.
Qed.

(** C7, as the code has it: when the last part of type text carries a
    non-empty text, [extractResponseText] returns that text, whatever
    precedes it and whatever parts of another type follow it. *)
Theorem extractResponseText_last_text (before after : list Part) (p : Part) (t : string) :
  is_text_part p = true ->
  part_text p = Some t ->
  t <> "" ->
  Forall (fun q => is_text_part q = false) after ->
  extractResponseText (Some (before ++ p :: after)) = t.
Proof.
  intros Hp Ht Hne Hafter.
  unfold extractResponseText.
  destruct (before ++ p :: after) as [|q l] eqn:E.
  { by destruct before. }
  rewrite <- E, (last_text_part before after p Hp Hafter).
  destruct p as [ty [t'|]]; simpl in *; [|done].
  injection Ht as ->.
  by destruct (String.eqb_spec t "").
Qed.

Lemma extractResponseText_last_text_witness :
  extractResponseText
    (Some ([textPart "draft"] ++ textPart "final" :: [mkPart "step-finish" None]))
  = "final".
Proof.
  apply (extractResponseText_last_text [textPart "draft"] [mkPart "step-finish" None]
           (textPart "final") "final").
  - reflexivity.
  - reflexivity.
  - discriminate.
  - repeat constructor.
Defined.

(** C7, as it is worded, fails: a response whose last text part is empty
    holds a text part with a non-empty text, and yet what comes back is the
    error text, not the text of any part. *)
Lemma extractResponseText_nonempty_text_counterexample :
  last_nonempty_text [textPart "hello"; textPart ""] = Some "hello"
  /\ extractResponseText (Some [textPart "hello"; textPart ""])
     = error_json "opencode response contained no text parts"
  /\ extractResponseText (Some [textPart "hello"; textPart ""]) <> "hello".
Proof. split; [reflexivity | split; [reflexivity | discriminate]]. Qed.

(** ** The provider cache *)

Lemma resetOpencodeClients_clients (w : World) :
  opencodeClients (resetOpencodeClients w) = ∅.
Proof.
  unfold resetOpencodeClients; simpl.
  apply map_eq; intros directory. rewrite lookup_empty.
  destruct (opencodeClients w !! directory) as [c|] eqn:E.
  - apply lookup_foldr_delete.
    apply list_elem_of_fmap. exists (directory, c). split; [done|].
    by apply elem_of_map_to_list.
  - apply eq_None_not_Some. intros [c Hc].
    apply lookup_foldr_delete_Some in Hc as [_ Hc]. congruence.
Qed.

(** The urls of the SDK servers that closing the singleton closes. *)
Definition closing (w : World) : list string :=
  match opencodeServer w with
  | Some h => [server_url h]
  | None => []
  end.

Lemma world_eq (w1 w2 : World) :
  opencodeServer w1 = opencodeServer w2 ->
  opencodeClients w1 = opencodeClients w2 ->
  sdkStarted w1 = sdkStarted w2 ->
  sdkClosed w1 = sdkClosed w2 ->
  files w1 = files w2 ->
  dirs w1 = dirs w2 ->
  host w1 = host w2 ->
  w1 = w2.
Proof. destruct w1, w2; simpl; intros; by subst. Qed.

Lemma resetOpencodeClients_eq (w : World) :
  resetOpencodeClients w
  = mkWorld (opencodeServer w) ∅ (sdkStarted w) (sdkClosed w) (files w) (dirs w) (host w).
Proof. apply world_eq; try reflexivity. apply resetOpencodeClients_clients. Qed.

Lemma closeOpencodeServer_eq (w : World) :
  closeOpencodeServer w
  = mkWorld None ∅ (sdkStarted w) (sdkClosed w ++ closing w) (files w) (dirs w) (host w).
Proof.
  unfold closeOpencodeServer, closing.
  destruct (opencodeServer w) as [h|] eqn:E.
  - unfold handle_close. by rewrite !resetOpencodeClients_eq.
  - rewrite resetOpencodeClients_eq, E. by rewrite app_nil_r.
Qed.

(** The server and the clients, the log of closed servers and the files
    are as they were. *)
Definition cache_kept (w w' : World) : Prop :=
  files w' = files w /\ opencodeServer w' = opencodeServer w
  /\ opencodeClients w' = opencodeClients w /\ sdkClosed w' = sdkClosed w.

(** The server that was held has been closed and is forgotten, and no
    client stays cached. *)
Definition cache_invalidated (w w' : World) : Prop :=
  opencodeServer w' = None /\ opencodeClients w' = ∅
  /\ sdkClosed w' = sdkClosed w ++ closing w.

(** ** The two functions that write definitions, by cases *)

Definition agents_dir (directory : string) : string :=
  path_join [directory; ".opencode"; "agent"].

Definition config_path (directory : string) : string :=
  path_join [directory; "opencode.json"].

(** The error [mkdir], and [writeFile], is rejected with, if it is. *)
Definition mkdir_error (p : string) (w : World) : option string :=
  match refused (host w) !! p with
  | Some code => Some code
  | None => if bool_decide (is_Some (files w !! p)) then Some "EEXIST" else None
  end.

Definition write_error (p : string) (w : World) : option string :=
  match refused (host w) !! p with
  | Some code => Some code
  | None => if bool_decide (p ∈ dirs w) then Some "EISDIR" else None
  end.

Lemma sanitised_char_no_slash (c : Ascii.ascii) :
  Ascii.eqb (lower_char (if name_char_kept c then c else dash)) slash = false.
Proof. destruct c as [[] [] [] [] [] [] [] []]; reflexivity. Qed.

Lemma agent_filename_last (name : string) :
  last_char (agent_filename name) = Some (Ascii.ascii_of_nat 100).
Proof. unfold agent_filename. by rewrite last_char_app. Qed.

Lemma agent_filename_kept (name : string) : kept_segment (agent_filename name).
Proof.
  split.
  - unfold agent_filename. apply no_sep_app; [|done].
    induction name as [|c name IH]; [done|].
    simpl. by rewrite sanitised_char_no_slash, IH.
  - exists (Ascii.ascii_of_nat 100). split; [apply agent_filename_last|done].
Qed.

Lemma agent_path_fresh (directory name : string) :
  agent_filePath directory name <> agents_dir directory.
Proof.
  unfold agent_filePath. fold (agents_dir directory).
  destruct (path_join_last [agents_dir directory] (agent_filename name)
              (agent_filename_kept name)) as [pre Hpre].
  simpl in Hpre. rewrite Hpre.
  assert (kept_segment "agent") as Hagent.
  { split; [done|]. by exists (Ascii.ascii_of_nat 116). }
  destruct (path_join_last [directory; ".opencode"] "agent" Hagent) as [pre' Hpre'].
  simpl in Hpre'. unfold agents_dir. rewrite Hpre'.
  intros H. apply (f_equal last_char) in H.
  rewrite (last_char_app pre' "agent") in H by done.
  rewrite (last_char_app pre (agent_filename name)) in H
    by (apply (last_char_nonempty _ _ (agent_filename_last name))).
  rewrite agent_filename_last in H. discriminate H.
Qed.

Lemma createAgentViaMarkdown_cases directory name model instructions tools w :
  createAgentViaMarkdown directory name model instructions tools w
  = match mkdir_error (agents_dir directory) w with
    | Some e => (Throw e, w)
    | None =>
        let w1 := set_dirs ({[agents_dir directory]} ∪ dirs w) w in
        if fs_exists (agent_filePath directory name) w
        then (Ok (agent_filePath directory name), w1)
        else
          match refused (host w) !! agent_filePath directory name with
          | Some e => (Throw e, w1)
          | None =>
              (Ok (agent_filePath directory name),
               closeOpencodeServer
                 (set_files
                    (<[agent_filePath directory name :=
                         TextFile (frontmatterLines name model instructions tools)]>
                       (files w)) w1))
          end
    end.
Proof.
  unfold createAgentViaMarkdown, mkdir_error, fs_mkdir.
  fold (agents_dir directory).
  change (path_join [agents_dir directory; agent_filename name])
    with (agent_filePath directory name).
  destruct (refused (host w) !! agents_dir directory) as [code|]; [done|].
  destruct (bool_decide (is_Some (files w !! agents_dir directory))); [done|].
  cbv zeta.
  assert (bool_decide (agent_filePath directory name
                       ∈ ({[agents_dir directory]} ∪ dirs w : gset string))
          = bool_decide (agent_filePath directory name ∈ dirs w)) as Hdirs.
  { apply bool_decide_ext. rewrite elem_of_union, elem_of_singleton.
    split; [|by right]. intros [H|H]; [|done]. by apply agent_path_fresh in H. }
  unfold fs_exists at 1. cbn [files dirs set_dirs]. rewrite Hdirs.
  fold (fs_exists (agent_filePath directory name) w).
  destruct (fs_exists (agent_filePath directory name) w) eqn:E; [done|].
  unfold fs_writeFile. cbn [host set_dirs dirs].
  destruct (refused (host w) !! agent_filePath directory name) as [code|]; [done|].
  rewrite Hdirs. unfold fs_exists in E. apply orb_false_iff in E as [_ ->]. done.
Qed.

(** [config.agent?.[name]] is truthy on the configuration as it is read
    and completed. *)
Definition agent_defined (directory name : string) (w : World) : bool :=
  match read_config (config_path directory) w with
  | Ok config =>
      match ensure_agent config with
      | Ok agent => agent_found (host w) agent name
      | Throw _ => false
      end
  | Throw _ => false
  end.

Lemma createAgentViaConfig_cases directory name model instructions tools w :
  createAgentViaConfig directory name model instructions tools w
  = match read_config (config_path directory) w with
    | Throw e => (Throw e, w)
    | Ok config =>
        match ensure_agent config with
        | Throw e => (Throw e, w)
        | Ok agent =>
            if agent_found (host w) agent name then (Ok (config_path directory), w)
            else
              match agent_assign (host w) agent name
                      (new_agentConfig name model instructions tools) with
              | Throw e => (Throw e, w)
              | Ok agent' =>
                  match write_error (config_path directory) w with
                  | Some e => (Throw e, w)
                  | None =>
                      (Ok (config_path directory),
                       closeOpencodeServer
                         (set_files
                            (<[config_path directory :=
                                 ConfigFile (stringified config agent')]> (files w)) w))
                  end
              end
        end
    end.
Proof.
  unfold createAgentViaConfig. fold (config_path directory).
  destruct (read_config (config_path directory) w) as [config|e]; [|done].
  destruct (ensure_agent config) as [agent|e]; [|done].
  destruct (agent_found (host w) agent name); [done|].
  destruct (agent_assign _ _ _ _) as [agent'|e]; [|done].
  unfold fs_writeFile, write_error.
  destruct (refused (host w) !! config_path directory) as [code|]; [done|].
  by destruct (bool_decide (config_path directory ∈ dirs w)).
Qed.

(** C8: a definition that is new is written and the provider cache is
    invalidated after it, that is the singleton server is closed and
    forgotten and no client stays cached; a definition that exists leaves
    the files, the server and the clients as they are, and so does a call
    that is rejected, which writes nothing. Both for the markdown form and
    for the [opencode.json] form, where a definition exists when
    [config.agent?.[name]] is truthy. A call is rejected only where the
    file system refuses it or, for [opencode.json], where the file cannot
    be read as a configuration or its agent array refuses the member. *)
Theorem new_definition_invalidates_cache directory name model instructions tools w :
  (let '(r, w') := createAgentViaMarkdown directory name model instructions tools w in
   match r with
   | Ok p =>
       p = agent_filePath directory name
       /\ if fs_exists (agent_filePath directory name) w
          then cache_kept w w'
          else files w' = <[p := TextFile (frontmatterLines name model instructions tools)]>
                            (files w)
               /\ cache_invalidated w w'
   | Throw e =>
       cache_kept w w'
       /\ (mkdir_error (agents_dir directory) w = Some e
           \/ fs_exists (agent_filePath directory name) w = false
              /\ refused (host w) !! agent_filePath directory name = Some e)
   end)
  /\
  (let '(r, w') := createAgentViaConfig directory name model instructions tools w in
   match r with
   | Ok p =>
       p = config_path directory
       /\ if agent_defined directory name w
          then w' = w
          else (exists config', files w' = <[p := ConfigFile config']> (files w))
               /\ cache_invalidated w w'
   | Throw e =>
       w' = w
       /\ (read_config (config_path directory) w = Throw e
           \/ (exists config, read_config (config_path directory) w = Ok config
                 /\ (ensure_agent config = Throw e
                     \/ exists agent, ensure_agent config = Ok agent
                          /\ agent_assign (host w) agent name
                               (new_agentConfig name model instructions tools) = Throw e))
           \/ write_error (config_path directory) w = Some e)
   end).
Proof.
  split.
  - rewrite createAgentViaMarkdown_cases.
    destruct (mkdir_error (agents_dir directory) w) as [e|] eqn:Em.
    { split; [by repeat split|]. by left. }
    cbv zeta.
    destruct (fs_exists (agent_filePath directory name) w) eqn:Ex.
    { split; [done|]. by repeat split. }
    destruct (refused (host w) !! agent_filePath directory name) as [e|] eqn:Er.
    { split; [by repeat split|]. right. by split. }
    split; [done|]. rewrite closeOpencodeServer_eq. by repeat split.
  - rewrite createAgentViaConfig_cases. unfold agent_defined.
    destruct (read_config (config_path directory) w) as [config|e] eqn:R.
    2:{ split; [done|]. by left. }
    destruct (ensure_agent config) as [agent|e] eqn:En.
    2:{ split; [done|]. right; left. exists config. split; [done|]. by left. }
    destruct (agent_found (host w) agent name) eqn:F.
    { by split. }
    destruct (agent_assign _ _ _ _) as [agent'|e] eqn:A.
    2:{ split; [done|]. right; left. exists config. split; [done|]. right. eauto. }
    destruct (write_error (config_path directory) w) as [e|] eqn:W.
    { split; [done|]. by right; right. }
    split; [done|]. rewrite closeOpencodeServer_eq. split; [|by repeat split].
    by eexists.
Qed.

(** ** Tool permissions in a written definition *)

(** [tools?.[key]] *)
Definition tool_value (tools : option ToolOptions) (key : string) : JsValue :=
  match tools with
  | Some t => tool_get t key
  | None => JUndefined
  end.

(** The lines of the markdown definition found on disk. *)
Definition written_markdown (directory name : string) (w : World) : list string :=
  match files w !! agent_filePath directory name with
  | Some (TextFile lines) => lines
  | _ => []
  end.

(** The definition of the agent found in [opencode.json], in the agent
    object of a configuration object. *)
Definition written_config (directory name : string) (w : World) : option AgentConfig :=
  match files w !! config_path directory with
  | Some (ConfigFile (ConfigObject (Some (AgentObject members)))) =>
      match members !! name with
      | Some (AgentDef cfg) => Some cfg
      | _ => None
      end
  | _ => None
  end.

(** The call of [createAgentViaConfig] that leads from [w] to [w'] has
    assigned [cfg] to [config.agent[name]] and has written the outcome. *)
Definition definition_assigned (directory name : string) (cfg : AgentConfig)
    (w w' : World) : Prop :=
  exists config agent agent',
    read_config (config_path directory) w = Ok config
    /\ ensure_agent config = Ok agent
    /\ agent_assign (host w) agent name cfg = Ok agent'
    /\ files w' !! config_path directory = Some (ConfigFile (stringified config agent'))
    /\ (forall members, config = ConfigObject (Some (AgentObject members))
                        \/ config = ConfigObject None ->
          written_config directory name w' = Some cfg).

Lemma tool_flag_value tools key :
  tool_flag tools key = match tool_value tools key with JBool b => b | _ => false end.
Proof. by destruct tools. Qed.

Lemma tool_permission_value tools key :
  tool_permission tools key = if truthy (tool_value tools key) then allow else deny.
Proof. by destruct tools. Qed.

Ltac each_key i H :=
  repeat (destruct i as [|i]; [injection H as <-; try reflexivity|]); try discriminate H.

Lemma frontmatter_tool_line name model instructions tools key i :
  TOOL_KEYS !! i = Some key ->
  frontmatterLines name model instructions tools !! (5 + i) = Some (tool_line tools key).
Proof. intros H. simpl in H. each_key i H. Qed.

Lemma frontmatter_permission_line name model instructions tools key j :
  PERMISSION_KEYS !! j = Some key ->
  frontmatterLines name model instructions tools !! (17 + j)
  = Some (permission_line tools key).
Proof. intros H. simpl in H. each_key j H. Qed.

Lemma config_tool_recorded name model instructions tools key i :
  TOOL_KEYS !! i = Some key ->
  agent_tools (new_agentConfig name model instructions tools) !! key
  = Some (tool_flag tools key).
Proof.
  intros H. simpl in H.
  each_key i H; unfold new_agentConfig; simpl; by simplify_map_eq.
Qed.

Lemma config_permission_recorded name model instructions tools key j :
  PERMISSION_KEYS !! j = Some key ->
  agent_permission (new_agentConfig name model instructions tools) !! key
  = Some (tool_permission tools key).
Proof.
  intros H. simpl in H.
  each_key j H; unfold new_agentConfig; simpl; by simplify_map_eq.
Qed.

Lemma written_markdown_new directory name model instructions tools w p :
  fs_exists (agent_filePath directory name) w = false ->
  (createAgentViaMarkdown directory name model instructions tools w).1 = Ok p ->
  written_markdown directory name
    (createAgentViaMarkdown directory name model instructions tools w).2
  = frontmatterLines name model instructions tools.
Proof.
  intros Hnew. rewrite createAgentViaMarkdown_cases.
  destruct (mkdir_error (agents_dir directory) w); [done|].
  cbv zeta. rewrite Hnew.
  destruct (refused (host w) !! agent_filePath directory name); [done|].
  intros _. cbn [snd]. rewrite closeOpencodeServer_eq.
  unfold written_markdown. simpl. by rewrite lookup_insert_eq.
Qed.

Lemma written_config_new directory name model instructions tools w p :
  agent_defined directory name w = false ->
  (createAgentViaConfig directory name model instructions tools w).1 = Ok p ->
  definition_assigned directory name (new_agentConfig name model instructions tools)
    w (createAgentViaConfig directory name model instructions tools w).2.
Proof.
  unfold agent_defined. rewrite createAgentViaConfig_cases.
  destruct (read_config (config_path directory) w) as [config|e] eqn:R; [|done].
  destruct (ensure_agent config) as [agent|e] eqn:En; [|done].
  intros ->.
  destruct (agent_assign _ _ _ _) as [agent'|e] eqn:A; [|done].
  destruct (write_error (config_path directory) w) as [e|]; [done|].
  intros _. cbn [snd]. rewrite closeOpencodeServer_eq.
  exists config, agent, agent'. rewrite R. repeat (split; [done|]).
  split; [simpl; by rewrite lookup_insert_eq|].
  intros members Hc. unfold written_config. simpl. rewrite lookup_insert_eq.
  destruct Hc as [-> | ->]; simpl in En; injection En as <-;
    simpl in A; injection A as <-; simpl; by rewrite lookup_insert_eq.
Qed.

(** C3, as the code has it by design. In a definition that gets written,
    (1) each of the eleven tool keys that the tools map omits, or gives a
    value that is not a boolean, is recorded as false, and a boolean is
    recorded as given; (2) where the value given for edit, bash or
    webfetch is of the declared type, a boolean or nothing, the permission
    is deny unless the tool was granted true, and allow when it was.
    First for the markdown form, whose tool lines start at line 5 and
    whose permission lines start at line 17, whatever [opencode.json]
    holds; then for the [opencode.json] form, whatever markdown files there
    are: the definition assigned to [config.agent[name]] is as said, and
    it is the one found in the file when the agent member read was an
    object or was missing. *)
Theorem written_definition_tool_defaults
    directory name model instructions tools w key i :
  TOOL_KEYS !! i = Some key ->
  let value := tool_value tools key in
  (forall p,
     fs_exists (agent_filePath directory name) w = false ->
     (createAgentViaMarkdown directory name model instructions tools w).1 = Ok p ->
     let md := written_markdown directory name
                 (createAgentViaMarkdown directory name model instructions tools w).2 in
     (is_boolean value = false -> md !! (5 + i) = Some ("  " +:+ key +:+ ": false"))
     /\ (forall b, value = JBool b ->
           md !! (5 + i) = Some ("  " +:+ key +:+ ": " +:+ (if b then "true" else "false")))
     /\ (forall j, PERMISSION_KEYS !! j = Some key ->
           (value = JBool true -> md !! (17 + j) = Some ("  " +:+ key +:+ ": allow"))
           /\ (value = JBool false \/ value = JUndefined ->
               md !! (17 + j) = Some ("  " +:+ key +:+ ": deny"))))
  /\
  (forall p,
     agent_defined directory name w = false ->
     (createAgentViaConfig directory name model instructions tools w).1 = Ok p ->
     exists cfg,
       definition_assigned directory name cfg w
         (createAgentViaConfig directory name model instructions tools w).2
       /\ (is_boolean value = false -> agent_tools cfg !! key = Some false)
       /\ (forall b, value = JBool b -> agent_tools cfg !! key = Some b)
       /\ (forall j, PERMISSION_KEYS !! j = Some key ->
             (value = JBool true -> agent_permission cfg !! key = Some allow)
             /\ (value = JBool false \/ value = JUndefined ->
                 agent_permission cfg !! key = Some deny))).
Proof.
  intros Hkey value. split.
  - intros p Hnew Hok md. subst md.
    rewrite (written_markdown_new _ _ _ _ _ _ p) by done.
    rewrite (frontmatter_tool_line _ _ _ _ key) by done.
    unfold tool_line. rewrite tool_flag_value. fold value.
    split; [by destruct value|]. split; [by intros b ->|].
    intros j Hj. rewrite (frontmatter_permission_line _ _ _ _ key) by done.
    unfold permission_line. rewrite tool_permission_value. fold value.
    split; [by intros ->|]. by intros [-> | ->].
  - intros p Hnew Hok.
    exists (new_agentConfig name model instructions tools).
    split; [by apply (written_config_new _ _ _ _ _ _ p)|].
    rewrite (config_tool_recorded _ _ _ _ key i) by done.
    rewrite tool_flag_value. fold value.
    split; [by destruct value|]. split; [by intros b ->|].
    intros j Hj. rewrite (config_permission_recorded _ _ _ _ key j) by done.
    rewrite tool_permission_value. fold value.
    split; [by intros ->|]. by intros [-> | ->].
Qed.

(** A host that rejects nothing, and on whose arrays a name is no member
    and stays none. *)
Definition obliging_host : Host :=
  mkHost None None None ∅ (fun _ _ => false) (fun elements _ _ => Ok elements).

Definition empty_world : World := mkWorld None ∅ 0 [] ∅ ∅ obliging_host.

Lemma written_definition_tool_defaults_witness :
  written_markdown "/work" "verifier"
    (createAgentViaMarkdown "/work" "verifier" "github-copilot/gpt-5-mini" "Verify the work."
       (Some {[ "read" := JBool true ]}) empty_world).2 !! 7%nat
  = Some "  edit: false"
  /\ (written_config "/work" "verifier"
        (createAgentViaConfig "/work" "verifier" "github-copilot/gpt-5-mini"
           "Verify the work." (Some {[ "read" := JBool true ]}) empty_world).2
      ≫= fun c => agent_tools c !! "edit") = Some false.
Proof.
  pose proof (written_definition_tool_defaults
    "/work" "verifier" "github-copilot/gpt-5-mini" "Verify the work."
    (Some {[ "read" := JBool true ]}) empty_world "edit" 2 eq_refl) as [Hmd Hcfg].
  split.
  - exact (proj1 (Hmd "/work/.opencode/agent/verifier.md" eq_refl eq_refl) eq_refl).
  - destruct (Hcfg "/work/opencode.json" eq_refl eq_refl)
      as (cfg & (config & agent & agent' & R & _ & _ & _ & Hfound) & Hfalse & _).
    injection R as <-.
    rewrite (Hfound ∅ (or_intror eq_refl)). exact (Hfalse eq_refl).
Defined.

(** C3, as it is worded, fails on a value that is truthy without being
    [true]: edit was not granted true, the tools section says so, and the
    permission written is allow all the same. *)
Lemma permission_unless_true_counterexample :
  tool_value (Some {[ "edit" := JNum 1 ]}) "edit" <> JBool true
  /\ written_markdown "/work" "verifier"
       (createAgentViaMarkdown "/work" "verifier" "github-copilot/gpt-5-mini" "Verify the work."
          (Some {[ "edit" := JNum 1 ]}) empty_world).2 !! 7%nat
     = Some "  edit: false"
  /\ written_markdown "/work" "verifier"
       (createAgentViaMarkdown "/work" "verifier" "github-copilot/gpt-5-mini" "Verify the work."
          (Some {[ "edit" := JNum 1 ]}) empty_world).2 !! 17%nat
     = Some "  edit: allow"
  /\ (written_config "/work" "verifier"
        (createAgentViaConfig "/work" "verifier" "github-copilot/gpt-5-mini" "Verify the work."
           (Some {[ "edit" := JNum 1 ]}) empty_world).2
      ≫= fun c => agent_permission c !! "edit") = Some allow.
Proof. split; [discriminate|]. split; [|split]; vm_compute; reflexivity. Qed.

End OpencodeSpec.

(** * Properties of the CLI process runner *)
Module CliRunnerSpec.

Import CliRunner.

Section Runner.

Variable Buffer_from : string -> Buffer.
Variable Buffer_toString : Buffer -> string.

Local Abbreviation handle := (handle Buffer_from Buffer_toString).
Local Abbreviation stdout_chunks := (stdout_chunks Buffer_from).
Local Abbreviation stderr_chunks := (stderr_chunks Buffer_from).

(** ** The promise *)

Lemma settle_settled (p outcome : Promise) : p <> Pending -> settle p outcome = p.
Proof. by destruct p. Qed.

Lemma handle_settled input r ev :
  promise r <> Pending -> promise (handle input r ev) = promise r.
Proof. intros H. destruct ev; simpl; auto using settle_settled. Qed.

Lemma settled_stable input events : forall r,
  promise r <> Pending -> promise (fold_left (handle input) events r) = promise r.
Proof.
  induction events as [|ev events IH]; intros r H; [done|].
  simpl. rewrite IH; rewrite handle_settled; done.
Qed.

Lemma rejected_by_error input events : forall r err,
  promise (fold_left (handle input) events r) = Rejected err ->
  promise r = Rejected err \/ ErrorEvent err ∈ events.
Proof.
  induction events as [|ev events IH]; intros r err H; [by left|].
  simpl in H. apply IH in H as [H|H]; [|right; by apply elem_of_cons; right].
  destruct ev as [c|c|e|code]; simpl in H; try (by left).
  - destruct (promise r); simpl in H; try (by left).
    injection H as ->. right. apply elem_of_cons. by left.
  - destruct (promise r); simpl in H; by left.
Qed.

(** What the data events before the end leave in the variables of the
    runner. *)
Lemma data_fold input pre : Forall is_data pre -> forall r,
  promise (fold_left (handle input) pre r) = promise r
  /\ stdoutChunks (fold_left (handle input) pre r)
     = stdoutChunks r ++ (if captureBuffer input then stdout_chunks pre else [])
  /\ stderrChunks (fold_left (handle input) pre r)
     = stderrChunks r ++ (if captureBuffer input then stderr_chunks pre else []).
Proof.
  induction 1 as [|ev pre Hev _ IH]; intros r.
  { simpl. destruct (captureBuffer input); by rewrite !app_nil_r. }
  simpl fold_left. destruct (IH (handle input r ev)) as (-> & -> & ->).
  destruct ev as [c|c| |]; try done; simpl;
    destruct (captureBuffer input); simpl; by rewrite <- ?app_assoc.
Qed.

(** The result the first ['close'] resolves the promise with. *)
Definition closed_result (input : CliRuntimeInvocation) (pre : list ChildEvent)
    (code : option Z) : Runner :=
  on_close Buffer_toString input code (fold_left (handle input) pre initial_runner).

Lemma resolved_at_close input has_stdin pre code rest :
  Forall is_data pre ->
  returned (defaultRunCliArgs Buffer_from Buffer_toString input has_stdin
              (pre ++ CloseEvent code :: rest))
  = promise (closed_result input pre code)
  /\ exists result, promise (closed_result input pre code) = Resolved result.
Proof.
  intros Hpre. unfold defaultRunCliArgs, closed_result. cbn [returned].
  rewrite fold_left_app. cbn [fold_left].
  destruct (data_fold input pre Hpre initial_runner) as (Hp & _ & _).
  assert (exists result,
    promise (on_close Buffer_toString input code
               (fold_left (handle input) pre initial_runner)) = Resolved result) as [res Hres].
  { unfold on_close. cbn [promise]. rewrite Hp. simpl. eauto. }
  split; [|eauto].
  rewrite settled_stable; [done|]. cbn [handle CliRunner.handle]. by rewrite Hres.
Qed.

(** C1: when the child emits its data and then closes, the promise is
    resolved, not rejected, with the close code as [exitCode], zero or not,
    and with -1 when the code is null; and whenever the promise is
    rejected, the child has emitted ['error'] with that very error. *)
Theorem runner_resolves_with_exit_code input has_stdin pre code rest :
  Forall is_data pre ->
  (exists result,
     returned (defaultRunCliArgs Buffer_from Buffer_toString input has_stdin
                 (pre ++ CloseEvent code :: rest))
     = Resolved result
     /\ exitCode result = default (-1)%Z code)
  /\ (forall events err,
        returned (defaultRunCliArgs Buffer_from Buffer_toString input has_stdin events)
        = Rejected err ->
        ErrorEvent err ∈ events).
Proof.
  intros Hpre. split.
  - destruct (resolved_at_close input has_stdin pre code rest Hpre) as (-> & res & Hres).
    exists res. split; [done|].
    unfold closed_result, on_close in Hres. cbn [promise] in Hres.
    destruct (data_fold input pre Hpre initial_runner) as (Hp & _ & _).
    rewrite Hp in Hres. simpl in Hres. by injection Hres as <-.
  - intros events err H. unfold defaultRunCliArgs in H. cbn [returned] in H.
    apply rejected_by_error in H as [H|H]; [discriminate|done].
Qed.

(** ** Standard input *)

(** C2: on a child that has a standard input, as every child spawned with
    the default stdio has, a byte buffer given as [stdinValue] reaches it
    unchanged, a string reaches it in the utf8 encoding, and in both cases
    the one write is followed by the end of the stream. *)
Theorem stdin_receives_value command args cwd capture events :
  (forall bytes,
     child_stdin (defaultRunCliArgs Buffer_from Buffer_toString
                    (mkInvocation command args cwd (StdinBytes bytes) capture) true events)
     = Some (mkStdin bytes true))
  /\ (forall s,
        child_stdin (defaultRunCliArgs Buffer_from Buffer_toString
                       (mkInvocation command args cwd (StdinJs (JStr s)) capture) true events)
        = Some (mkStdin (Buffer_from s) true)).
Proof. split; intros; reflexivity. Qed.

(** ** The order of the arguments *)

Lemma obj_get_absent (o : JsObject) key :
  key ∉ Object_keys o -> obj_get o key = JUndefined.
Proof.
  induction o as [|[k v] o IH]; [done|]. simpl.
  rewrite not_elem_of_cons. intros [Hne Hnot].
  destruct (String.eqb_spec k key); [congruence | auto].
Qed.

Lemma obj_get_member (o : JsObject) key v :
  NoDup (Object_keys o) -> (key, v) ∈ o -> obj_get o key = v.
Proof.
  induction o as [|[k v'] o IH]; intros Hnd Hin; [by apply elem_of_nil in Hin|].
  simpl in *. apply NoDup_cons in Hnd as [Hk Hnd].
  apply elem_of_cons in Hin as [Heq|Hin].
  - injection Heq as <- <-. by rewrite String.eqb_refl.
  - destruct (String.eqb_spec k key) as [->|Hne]; [|auto].
    exfalso. apply Hk. apply list_elem_of_fmap. by exists (key, v).
Qed.

Lemma obj_get_permutation (o o' : JsObject) key :
  NoDup (Object_keys o) -> o ≡ₚ o' -> obj_get o key = obj_get o' key.
Proof.
  intros Hnd Hperm.
  assert (NoDup (Object_keys o')) as Hnd'.
  { unfold Object_keys. by rewrite <- Hperm. }
  destruct (decide (key ∈ Object_keys o)) as [Hin|Hnot].
  - apply list_elem_of_fmap in Hin as ([k v] & -> & Hin). simpl.
    rewrite (obj_get_member o k v) by done.
    symmetry. apply obj_get_member; [done|]. by rewrite <- Hperm.
  - rewrite obj_get_absent by done.
    symmetry. apply obj_get_absent. unfold Object_keys in *. by rewrite <- Hperm.
Qed.

Lemma sort_keys_permutation (keys keys' : list string) :
  keys ≡ₚ keys' -> sort_keys keys = sort_keys keys'.
Proof.
  intros Hperm. unfold sort_keys.
  apply (Sorted_unique String.le).
  - apply Sorted_merge_sort, _.
  - apply Sorted_merge_sort, _.
  - by rewrite !merge_sort_Permutation.
Qed.

(** C5: the argv handed to [spawn] lists the rendered values of the
    arguments in the lexicographic order of their keys, and two objects
    with the same members, inserted in whatever order, give the same
    argv. *)
Theorem argv_ordered_by_key command (o o' : JsObject) cwd stdin capture has_stdin events :
  NoDup (Object_keys o) ->
  o ≡ₚ o' ->
  let argv_of := fun a =>
    spawn_argv (spawned (defaultRunCliArgs Buffer_from Buffer_toString
                           (mkInvocation command (Some a) cwd stdin capture)
                           has_stdin events)) in
  argv_of o = argv_of o'
  /\ exists keys,
       Sorted String.le keys /\ keys ≡ₚ Object_keys o
       /\ argv_of o = map (fun key => js_String (obj_get o key)) keys.
Proof.
  intros Hnd Hperm argv_of. subst argv_of. cbn [spawned defaultRunCliArgs spawn_argv spawn_call].
  unfold argv. cbn [args default from_option id].
  split.
  - rewrite (sort_keys_permutation (Object_keys o) (Object_keys o'))
      by (unfold Object_keys; by rewrite Hperm).
    apply map_ext. intros key. f_equal. by apply obj_get_permutation.
  - exists (sort_keys (Object_keys o)). split; [|split; [|done]].
    + apply Sorted_merge_sort, _.
    + apply merge_sort_Permutation.
Qed.

(** ** Captured output *)

(** C6: once the child has emitted its data and closed, the result holds
    [stdoutBuffer] and [stderrBuffer] exactly when capture is buffer or
    both; each is the concatenation of the chunks of its stream in the
    order of arrival; and under capture buffer the two strings are the
    decodings of the two buffers. *)
Theorem buffers_capture_the_chunks input has_stdin pre code rest :
  Forall is_data pre ->
  exists result,
    returned (defaultRunCliArgs Buffer_from Buffer_toString input has_stdin
                (pre ++ CloseEvent code :: rest))
    = Resolved result
    /\ (is_Some (stdoutBuffer result)
        <-> capture input = Some capture_buffer \/ capture input = Some capture_both)
    /\ (is_Some (stderrBuffer result)
        <-> capture input = Some capture_buffer \/ capture input = Some capture_both)
    /\ (captureBuffer input = true ->
        stdoutBuffer result = Some (concat (stdout_chunks pre))
        /\ stderrBuffer result = Some (concat (stderr_chunks pre)))
    /\ (capture input = Some capture_buffer ->
        stdout result = Buffer_toString (concat (stdout_chunks pre))
        /\ stderr result = Buffer_toString (concat (stderr_chunks pre))).
Proof.
  intros Hpre.
  destruct (resolved_at_close input has_stdin pre code rest Hpre) as (-> & res & Hres).
  exists res. split; [done|].
  unfold closed_result, on_close in Hres. cbn [promise] in Hres.
  destruct (data_fold input pre Hpre initial_runner) as (Hp & Hout & Herr).
  rewrite Hp, Hout, Herr in Hres. simpl in Hres. injection Hres as <-.
  unfold captureBuffer, captureText.
  destruct (capture input) as [[]|]; simpl;
    (split; [|split; [|split; [|split]]]);
    try (intros; discriminate); try (intros; done);
    try (split; [intros; auto | intros; by eexists]);
    try (split; [intros [? ?]; discriminate | intros [?|?]; discriminate]).
Qed.

End Runner.

(** Concrete runs, on ASCII text, where utf8 maps a character to its byte. *)
Definition ascii_from : string -> Buffer := String.list_byte_of_string.
Definition ascii_toString : Buffer -> string := String.string_of_list_byte.

Definition pipe_invocation : CliRuntimeInvocation :=
  mkInvocation "xxd" (Some [("arg0", JStr "-p")]) None
    (StdinBytes [Byte.x00; Byte.x01; Byte.x02]) (Some capture_both).

Lemma runner_resolves_with_exit_code_witness :
  exists result,
    returned (defaultRunCliArgs ascii_from ascii_toString pipe_invocation true
                ([StdoutData (ChunkString "000102")] ++ CloseEvent (Some 3%Z) :: []))
    = Resolved result
    /\ exitCode result = 3%Z.
Proof.
  apply (proj1 (runner_resolves_with_exit_code ascii_from ascii_toString
                  pipe_invocation true [StdoutData (ChunkString "000102")]
                  (Some 3%Z) [] ltac:(repeat constructor))).
Defined.

Lemma argv_ordered_by_key_witness :
  spawn_argv (spawned (defaultRunCliArgs ascii_from ascii_toString
     (mkInvocation "tee" (Some [("flag", JStr "-a"); ("file", JStr "out.txt")])
        None (StdinJs JUndefined) None) true []))
  = spawn_argv (spawned (defaultRunCliArgs ascii_from ascii_toString
     (mkInvocation "tee" (Some [("file", JStr "out.txt"); ("flag", JStr "-a")])
        None (StdinJs JUndefined) None) true [])).
Proof.
  apply (argv_ordered_by_key ascii_from ascii_toString "tee"
           [("flag", JStr "-a"); ("file", JStr "out.txt")]
           [("file", JStr "out.txt"); ("flag", JStr "-a")]
           None (StdinJs JUndefined) None true []).
  - compute_done.
  - apply perm_swap.
Defined.

Lemma buffers_capture_the_chunks_witness :
  exists result,
    returned (defaultRunCliArgs ascii_from ascii_toString pipe_invocation true
                ([StdoutData (ChunkBuffer [Byte.x30]); StderrData (ChunkBuffer []);
                  StdoutData (ChunkBuffer [Byte.x31])] ++ CloseEvent (Some 0%Z) :: []))
    = Resolved result
    /\ stdoutBuffer result = Some [Byte.x30; Byte.x31].
Proof.
  destruct (buffers_capture_the_chunks ascii_from ascii_toString pipe_invocation true
              [StdoutData (ChunkBuffer [Byte.x30]); StderrData (ChunkBuffer []);
               StdoutData (ChunkBuffer [Byte.x31])]
              (Some 0%Z) [] ltac:(repeat constructor))
    as (result & Hres & _ & _ & Hbuf & _).
  exists result. split; [exact Hres|]. exact (proj1 (Hbuf eq_refl)).
Defined.

End CliRunnerSpec.

(** * Properties of src/workflow-builder.ts *)
Module WorkflowBuilderSpec.

Import WorkflowBuilder.

(** ** [RoundBuilder] *)

Section Round.

Context {Transition : Type}.

(** The steps that a chain of calls pushes, in the order of the calls. *)
Definition pushed (calls : list (RoundCall Transition)) : list (AnyStepDraft Transition) :=
  omap (fun c => match added_step c with
                 | Ok (Some s) => Some s
                 | _ => None
                 end) calls.

(** The outcome that the last call of [defaultOutcome] in a chain sets. *)
Definition outcome_set (calls : list (RoundCall Transition)) : option Outcome :=
  last (omap (fun c => match c with
                       | CallDefaultOutcome o r => Some (mkOutcome o r)
                       | _ => None
                       end) calls).

Lemma call_steps (draft draft' : RoundDefinitionDraft Transition) c :
  call draft c = Ok draft' ->
  steps draft' = steps draft ++ pushed [c]
  /\ defaultOutcome draft'
     = match outcome_set [c] with Some o => Some o | None => defaultOutcome draft end.
Proof.
  unfold pushed, outcome_set.
  destruct c; simpl; unfold RoundBuilder_cli, RoundBuilder_workflow, RoundBuilder_transform.
  - intros [= <-]. simpl. by rewrite app_nil_r.
  - intros [= <-]. simpl. by rewrite app_nil_r.
  - intros [= <-]. simpl. by rewrite app_nil_r.
  - intros [= <-]. done.
  - destruct (buildCliStep Transition key command options); simpl; [|done].
    intros [= <-]. done.
  - destruct (buildWorkflowReferenceStep Transition key workflowId options); simpl; [|done].
    intros [= <-]. done.
  - destruct (buildTransformStep Transition key template options); simpl; [|done].
    intros [= <-]. done.
Qed.

Lemma chain_steps (calls : list (RoundCall Transition)) : forall draft draft',
  chain calls draft = Ok draft' ->
  steps draft' = steps draft ++ pushed calls
  /\ defaultOutcome draft'
     = match outcome_set calls with Some o => Some o | None => defaultOutcome draft end.
Proof.
  induction calls as [|c calls IH]; intros draft draft' H.
  { injection H as <-. simpl. by rewrite app_nil_r. }
  simpl in H. destruct (call draft c) as [d1|] eqn:E; [|done].
  apply IH in H as [Hs Ho]. apply call_steps in E as [Es Eo].
  split.
  - rewrite Hs, Es. rewrite <- app_assoc. f_equal.
    unfold pushed. simpl. by destruct (added_step c) as [[s|]|].
  - rewrite Ho, Eo. unfold outcome_set. simpl.
    destruct c; simpl; try done.
    rewrite last_cons. by destruct (last _).
Qed.

(** C9: [build()] throws for want of a default outcome, then for want of
    a step, and otherwise returns the round with the steps as they were
    pushed; on a builder driven by a chain of calls the default outcome is
    the one the chain has set and the steps are those the chain has added,
    in the order of the calls. *)
Theorem round_build_requires_outcome_and_step
    (calls : list (RoundCall Transition)) (draft : RoundDefinitionDraft Transition) :
  chain calls RoundBuilder_new = Ok draft ->
  defaultOutcome draft = outcome_set calls
  /\ steps draft = pushed calls
  /\ (outcome_set calls = None ->
      RoundBuilder_build draft = Throw "defaultOutcome is required for workflow rounds")
  /\ (forall o, outcome_set calls = Some o -> pushed calls = [] ->
      RoundBuilder_build draft = Throw "At least one step is required in a workflow round")
  /\ (forall o, outcome_set calls = Some o -> pushed calls <> [] ->
      RoundBuilder_build draft
      = Ok (mkRound (start draft) (pushed calls) (maxRounds draft) (Some o))).
Proof.
  intros H. apply chain_steps in H as [Hs Ho]. simpl in Hs, Ho.
  assert (defaultOutcome draft = outcome_set calls) as Hd.
  { rewrite Ho. by destruct (outcome_set calls). }
  split; [done|]. split; [done|].
  unfold RoundBuilder_build. rewrite Hd, Hs.
  split; [|split].
  - by intros ->.
  - by intros o -> ->.
  - intros o -> Hne. by destruct (pushed calls).
Qed.

End Round.

Lemma round_build_requires_outcome_and_step_witness :
  RoundBuilder_build (Transition := unit)
    (mkRound (Some "agent")
       [AgentStep (mkAgentStep unit "agent" "director" ["Hello"] (no_options unit))]
       (Some 2%Z) (Some (mkOutcome "done" "Completed")))
  = Ok (mkRound (Some "agent")
          [AgentStep (mkAgentStep unit "agent" "director" ["Hello"] (no_options unit))]
          (Some 2%Z) (Some (mkOutcome "done" "Completed"))).
Proof.
  refine (proj2 (proj2 (proj2 (proj2 (round_build_requires_outcome_and_step
    [CallStart "agent";
     CallAgent "agent" "director" ["Hello"] (no_options unit);
     CallDefaultOutcome "done" "Completed";
     CallMaxRounds 2%Z] _ eq_refl)))) (mkOutcome "done" "Completed") eq_refl _).
  discriminate.
Defined.

(** ** [unwrapSchema] *)

(** What [unwrapSchema] does once a leading default has been taken off. *)
Definition after_default (current : ZodSchema) (required : bool) (dv : JsValue)
    : Result Unwrapped :=
  match current with
  | ZOptional innerType =>
      match unwrapSchema innerType with
      | Throw m => Throw m
      | Ok nested =>
          unwrap_finish (inner nested)
            (if is_undefined dv && negb (is_undefined (defaultValue nested))
             then defaultValue nested else dv)
            false
      end
  | _ => unwrap_finish current dv required
  end.

Lemma unwrapSchema_eq (schema : ZodSchema) :
  unwrapSchema schema
  = match unwrapEffects schema with
    | ZDefault dv innerType => after_default innerType false dv
    | current => after_default current true JUndefined
    end.
Proof. destruct schema; reflexivity. Qed.

Lemma unwrapEffects_depth (schema : ZodSchema) : depth (unwrapEffects schema) <= depth schema.
Proof. induction schema; simpl; lia. Qed.

Lemma unwrap_finish_depth current dv required u :
  unwrap_finish current dv required = Ok u -> depth (inner u) <= depth current.
Proof.
  unfold unwrap_finish. destruct (is_nullable current); [done|].
  intros [= <-]. apply unwrapEffects_depth.
Qed.

Lemma after_default_depth current required dv u :
  (forall s' u', depth s' < depth current -> unwrapSchema s' = Ok u' ->
     depth (inner u') <= depth s') ->
  after_default current required dv = Ok u ->
  depth (inner u) <= depth current.
Proof.
  intros IH H. destruct current; try (by apply unwrap_finish_depth in H).
  simpl in H. destruct (unwrapSchema current) as [nested|] eqn:E; [|done].
  apply unwrap_finish_depth in H. apply IH in E; simpl; lia.
Qed.

Lemma unwrapSchema_depth (schema : ZodSchema) (u : Unwrapped) :
  unwrapSchema schema = Ok u -> depth (inner u) <= depth schema.
Proof.
  remember (depth schema) as n eqn:En. revert schema u En.
  induction n as [n IH] using lt_wf_ind. intros schema u -> H.
  rewrite unwrapSchema_eq in H.
  pose proof (unwrapEffects_depth schema) as Hd.
  destruct (unwrapEffects schema) eqn:Eu;
    apply after_default_depth in H; simpl in *; try lia;
    intros s' u' Hlt Hs'; apply (IH (depth s')) in Hs'; try done; lia.
Qed.

(** ** The converter never runs out of calls *)

Lemma depth_member (shape : list (string * ZodSchema)) key value :
  (key, value) ∈ shape -> depth value < depth (ZObject shape).
Proof.
  induction shape as [|[k v] shape IH]; intros Hin; [by apply elem_of_nil in Hin|].
  apply elem_of_cons in Hin as [[= <- <-]|Hin]; simpl in *; [lia|].
  specialize (IH Hin). lia.
Qed.

Lemma object_loop_ext self1 self2 (entries : list (string * ZodSchema)) :
  (forall key value, (key, value) ∈ entries -> self1 value = self2 value) ->
  forall acc, object_loop self1 entries acc = object_loop self2 entries acc.
Proof.
  induction entries as [|[k v] entries IH]; intros Hext acc; [done|].
  simpl. destruct acc as [properties requiredKeys]. simpl.
  rewrite <- (Hext k v) by (apply elem_of_cons; by left).
  destruct (self1 v); [|done].
  destruct (unwrapSchema v); [|done].
  destruct (_ && _); apply IH; intros key value Hin;
    apply (Hext key value); apply elem_of_cons; by right.
Qed.

Lemma convert_inner_ext self1 self2 (schema : ZodSchema) :
  (forall s', depth s' < depth schema -> self1 s' = self2 s') ->
  convert_inner self1 schema = convert_inner self2 schema.
Proof.
  intros Hext. destruct schema as [| | | | |element|shape| | | | | | | |]; try reflexivity.
  - simpl. rewrite Hext; [done|]. destruct element; simpl; lia.
  - unfold convert_inner. rewrite (object_loop_ext self1 self2); [done|].
    intros key value Hin. apply Hext. by apply (depth_member shape key).
Qed.

Lemma convert_body_ext self1 self2 (schema : ZodSchema) :
  (forall s', depth s' < depth schema -> self1 s' = self2 s') ->
  convert_body self1 schema = convert_body self2 schema.
Proof.
  intros Hext. unfold convert_body.
  destruct (unwrapSchema schema) as [u|] eqn:E; [|done].
  apply unwrapSchema_depth in E.
  rewrite (convert_inner_ext self1 self2); [done|].
  intros s' Hs'. apply Hext. lia.
Qed.

Lemma convert_bounded_stable (n : nat) : forall m schema,
  depth schema < n -> depth schema < m ->
  convert_bounded n schema = convert_bounded m schema.
Proof.
  induction n as [|n IH]; intros m schema Hn Hm; [lia|].
  destruct m as [|m]; [lia|]. simpl.
  apply convert_body_ext. intros s' Hs'. apply IH; lia.
Qed.

(** The converter satisfies the equation that defines it in the source:
    its body with the calls to itself. *)
Lemma zodToWorkflowParserJsonSchema_unfold (schema : ZodSchema) :
  zodToWorkflowParserJsonSchema schema
  = convert_body zodToWorkflowParserJsonSchema schema.
Proof.
  unfold zodToWorkflowParserJsonSchema at 1. simpl.
  apply convert_body_ext. intros s' Hs'.
  unfold zodToWorkflowParserJsonSchema. apply convert_bounded_stable; lia.
Qed.

(** ** Required keys of a converted object *)

(** The property is optional, respectively carries a default, as Zod
    builds it: [.optional()] or [.default(..)] is its outermost wrapper,
    refinements aside. *)
Definition is_optional (value : ZodSchema) : bool :=
  match unwrapEffects value with ZOptional _ => true | _ => false end.

Definition carries_default (value : ZodSchema) : bool :=
  match unwrapEffects value with ZDefault _ _ => true | _ => false end.

Lemma unwrap_finish_fields current dv required u :
  unwrap_finish current dv required = Ok u ->
  u_required u = required /\ defaultValue u = dv.
Proof.
  unfold unwrap_finish. destruct (is_nullable current); [done|]. by intros [= <-].
Qed.

Lemma after_default_required current required dv u :
  after_default current required dv = Ok u ->
  u_required u = match current with ZOptional _ => false | _ => required end
  /\ (required = true -> dv = JUndefined -> u_required u = true -> defaultValue u = JUndefined).
Proof.
  intros H. destruct current; try (apply unwrap_finish_fields in H as [-> ->]; done).
  simpl in H. destruct (unwrapSchema current); [|done].
  apply unwrap_finish_fields in H as [-> _]. done.
Qed.

Lemma unwrapSchema_required (value : ZodSchema) (u : Unwrapped) :
  unwrapSchema value = Ok u ->
  u_required u = negb (is_optional value || carries_default value)
  /\ (u_required u = true -> defaultValue u = JUndefined).
Proof.
  rewrite unwrapSchema_eq. unfold is_optional, carries_default.
  destruct (unwrapEffects value); intros H;
    apply after_default_required in H as [Hr Hd]; simpl; split; auto; try congruence.
  - rewrite Hr. by destruct z.
  - rewrite Hr. by destruct z.
Qed.

Lemma converted_default (value : ZodSchema) (converted : ParserDraft) (u : Unwrapped) :
  zodToWorkflowParserJsonSchema value = Ok converted ->
  unwrapSchema value = Ok u ->
  defaultValue u <> JUndefined ->
  draft_default converted = defaultValue u.
Proof.
  rewrite zodToWorkflowParserJsonSchema_unfold. unfold convert_body.
  intros H Hu Hne. rewrite Hu in H.
  destruct (convert_inner _ _) as [parsed|]; [|done].
  destruct (defaultValue u); try done; injection H as <-; by destruct parsed.
Qed.

Lemma converted_unwraps (value : ZodSchema) (converted : ParserDraft) :
  zodToWorkflowParserJsonSchema value = Ok converted ->
  exists u, unwrapSchema value = Ok u.
Proof.
  rewrite zodToWorkflowParserJsonSchema_unfold. unfold convert_body.
  destruct (unwrapSchema value); [eauto | done].
Qed.

(** Whether the loop pushes the key of a member onto [requiredKeys]. *)
Definition member_required (self : ZodSchema -> Result ParserDraft) (value : ZodSchema)
    : bool :=
  match self value, unwrapSchema value with
  | Ok converted, Ok unwrapped =>
      u_required unwrapped
      && negb (negb (is_undefined (draft_default converted))
               || negb (is_undefined (defaultValue unwrapped)))
  | _, _ => false
  end.

Lemma obj_set_fresh {A} (o : list (string * A)) key (v : A) :
  key ∉ o.*1 -> obj_set o key v = o ++ [(key, v)].
Proof.
  induction o as [|[k old] o IH]; [done|]. simpl.
  rewrite not_elem_of_cons. intros [Hne Hnot].
  destruct (String.eqb_spec k key); [congruence|]. by rewrite IH.
Qed.

Lemma object_loop_spec self (entries : list (string * ZodSchema)) :
  forall props0 req0 props req,
  NoDup (props0.*1 ++ entries.*1) ->
  object_loop self entries (props0, req0) = Ok (props, req) ->
  exists convs,
    Forall2 (fun e c => self e.2 = Ok c) entries convs
    /\ props = props0 ++ zip entries.*1 convs
    /\ req = req0 ++ (filter (fun e => member_required self e.2 = true) entries).*1.
Proof.
  induction entries as [|[k v] entries IH]; intros props0 req0 props req Hnd H.
  { injection H as <- <-. exists []. by rewrite !app_nil_r. }
  simpl in H. destruct (self v) as [conv|] eqn:Ev; [|done].
  destruct (unwrapSchema v) as [u|] eqn:Eu; [|done].
  simpl in Hnd. apply NoDup_app in Hnd as (Hnd0 & Hdisj & Hnde).
  apply NoDup_cons in Hnde as [Hk Hnde].
  assert (k ∉ props0.*1) as Hfresh.
  { intros Hin. apply (Hdisj k Hin). apply elem_of_cons. by left. }
  rewrite obj_set_fresh in H by done.
  assert (NoDup ((props0 ++ [(k, conv)]).*1 ++ entries.*1)) as Hnd'.
  { rewrite fmap_app. simpl. rewrite <- app_assoc. simpl.
    apply NoDup_app. split; [done|]. split; [|by apply NoDup_cons].
    intros x Hx. apply Hdisj in Hx. done. }
  assert (member_required self v
          = u_required u && negb (negb (is_undefined (draft_default conv))
                                  || negb (is_undefined (defaultValue u)))) as Hm.
  { unfold member_required. by rewrite Ev, Eu. }
  destruct (u_required u && _) eqn:Ereq;
    apply IH in H as (convs & Hall & -> & ->); try done;
    exists (conv :: convs); (split; [by constructor|]);
    simpl; rewrite <- !app_assoc; simpl; (split; [done|]).
  - rewrite filter_cons_True by done. simpl. done.
  - rewrite filter_cons_False; [done|]. simpl. congruence.
Qed.

Lemma member_unique {A} (l : list (string * A)) key (x y : A) :
  NoDup l.*1 -> (key, x) ∈ l -> (key, y) ∈ l -> x = y.
Proof.
  intros Hnd Hx Hy.
  apply (elem_of_list_to_map_1 (M := gmap string)) in Hx, Hy; try done.
  congruence.
Qed.

(** C10, as the code has it: the key of a property of a converted object
    is listed in [required] exactly when the property is not optional,
    carries no default, and is not converted to a schema with a default of
    its own, as a boolean literal is; every property, whatever it is,
    appears in [properties] under its key, and a default it carries is
    recorded there. *)
Theorem object_required_keys
    (shape : list (string * ZodSchema)) properties required d key value :
  NoDup shape.*1 ->
  zodToWorkflowParserJsonSchema (ZObject shape) = Ok (PObject properties required d) ->
  (key, value) ∈ shape ->
  exists converted u,
    zodToWorkflowParserJsonSchema value = Ok converted
    /\ unwrapSchema value = Ok u
    /\ properties.*1 = shape.*1
    /\ (key, converted) ∈ properties
    /\ (key ∈ default [] required
        <-> is_optional value = false /\ carries_default value = false
            /\ draft_default converted = JUndefined)
    /\ (defaultValue u <> JUndefined -> draft_default converted = defaultValue u).
Proof.
  intros Hnd H Hin.
  rewrite zodToWorkflowParserJsonSchema_unfold in H.
  unfold convert_body in H. simpl in H.
  destruct (object_loop _ shape ([], [])) as [[props req]|] eqn:Eloop; [|done].
  injection H as <- <- <-.
  apply object_loop_spec in Eloop as (convs & Hall & -> & ->); [|done].
  simpl.
  apply list_elem_of_lookup in Hin as [i Hi].
  destruct (Forall2_lookup_l _ _ _ i _ Hall Hi) as (converted & Hc & Hconv).
  simpl in Hconv.
  destruct (converted_unwraps value converted Hconv) as [u Hu].
  exists converted, u. split; [done|]. split; [done|].
  pose proof (Forall2_length _ _ _ Hall) as Hlen.
  split; [|split; [|split]].
  - rewrite fst_zip; [done|]. rewrite length_fmap. lia.
  - apply list_elem_of_lookup. exists i.
    rewrite lookup_zip_with, list_lookup_fmap, Hi, Hc. done.
  - assert (default [] (if Nat.ltb 0 (length (filter (fun e => member_required
              zodToWorkflowParserJsonSchema e.2 = true) shape).*1)
                        then Some (filter (fun e => member_required
              zodToWorkflowParserJsonSchema e.2 = true) shape).*1 else None)
            = (filter (fun e => member_required
              zodToWorkflowParserJsonSchema e.2 = true) shape).*1) as ->.
    { by destruct (filter _ shape).*1. }
    destruct (unwrapSchema_required value u Hu) as [Hreq Hnodef].
    assert (member_required zodToWorkflowParserJsonSchema value = true
            <-> is_optional value = false /\ carries_default value = false
                /\ draft_default converted = JUndefined) as Hiff.
    { unfold member_required. rewrite Hconv, Hu. rewrite Hreq in *.
      destruct (is_optional value), (carries_default value); simpl;
        try (split; [done | intros (? & ? & ?); done]).
      simpl in Hnodef. rewrite Hnodef by done.
      destruct (draft_default converted); simpl; split; try done; by intros (? & ? & ?). }
    rewrite <- Hiff. split.
    + intros Hk. apply list_elem_of_fmap in Hk as ([k v'] & -> & Hk).
      apply list_elem_of_filter in Hk as [Hm Hk]. simpl in *.
      assert (v' = value) as <-; [|done].
      apply (member_unique shape k); try done.
      apply list_elem_of_lookup. by exists i.
    + intros Hm. apply list_elem_of_fmap. exists (key, value). split; [done|].
      apply list_elem_of_filter. split; [done|].
      apply list_elem_of_lookup. by exists i.
  - by apply (converted_default value).
Qed.

Lemma object_required_keys_witness :
  "name" ∈ ["name"]
  <-> is_optional (ZString []) = false /\ carries_default (ZString []) = false
      /\ draft_default (PString None None None JUndefined) = JUndefined.
Proof.
  destruct (object_required_keys
    [("name", ZString []); ("tags", ZOptional (ZArray (Some (ZString []))));
     ("priority", ZDefault (JNum 3) (ZNumber []))]
    [("name", PString None None None JUndefined);
     ("tags", PArray (PString None None None JUndefined) JUndefined);
     ("priority", PNumber None None None false (JNum 3))]
    (Some ["name"]) JUndefined "name" (ZString [])
    ltac:(compute_done) eq_refl ltac:(apply elem_of_cons; by left))
    as (converted & u & Hc & _ & _ & _ & Hiff & _).
  injection Hc as <-. exact Hiff.
Defined.

(** The [required] list of a conversion, empty when there is none. *)
Definition required_of (r : Result ParserDraft) : list string :=
  match r with
  | Ok (PObject _ (Some keys) _) => keys
  | _ => []
  end.

(** [z.object({ flag: z.literal(true) })] *)
Definition flag_object : ZodSchema :=
  ZObject [("flag", ZLiteral (mkLiteral JUndefined (Some [JBool true])))].

(** C10, as it is worded, fails on a boolean literal: the property is
    neither optional nor given a default, and its key is not required,
    because its conversion carries the literal as a default. *)
Lemma required_iff_neither_counterexample :
  zodToWorkflowParserJsonSchema flag_object
  = Ok (PObject [("flag", PBoolean (JBool true))] None JUndefined)
  /\ ~ ("flag" ∈ required_of (zodToWorkflowParserJsonSchema flag_object)
        <-> is_optional (ZLiteral (mkLiteral JUndefined (Some [JBool true]))) = false
            /\ carries_default (ZLiteral (mkLiteral JUndefined (Some [JBool true]))) = false).
Proof.
  split; [reflexivity|].
  intros [_ H]. specialize (H (conj eq_refl eq_refl)).
  by apply elem_of_nil in H.
Qed.

End WorkflowBuilderSpec.

(** * Properties of the run harness *)
Module HarnessSpec.

Import WorkflowBuilder Harness.

Section Engine.

Context {Flow RunResult StepEffect : Type}.
Variable engine :
  Document Flow -> CliRunner.JsObject -> Options -> Run RunResult StepEffect.

Lemma valid_user_inputs_start_the_engine document options user :
  validate_user (default [] (doc_user Flow document)) (opt_user options) = Ok user ->
  runWorkflow Flow RunResult StepEffect engine document options
  = engine document user options.
Proof. intros H. unfold runWorkflow. by rewrite H. Qed.

(** C4: when the inputs of a run fail the [user] schema of the document,
    the result of the run is rejected with an [InputValidationError] whose
    message is "Invalid user inputs for workflow <id>: <details>", and no
    step has had any effect. *)
Theorem invalid_user_inputs_rejected document options details :
  validate_user (default [] (doc_user Flow document)) (opt_user options) = Throw details ->
  run_result RunResult StepEffect
    (runWorkflow Flow RunResult StepEffect engine document options)
  = Rejects RunResult
      (InputValidationError
         ("Invalid user inputs for workflow " +:+ doc_id Flow document +:+ ": " +:+ details))
  /\ run_effects RunResult StepEffect
       (runWorkflow Flow RunResult StepEffect engine document options) = [].
Proof. intros H. unfold runWorkflow. by rewrite H. Qed.

End Engine.

(** The parent workflow of the reference tests, run with a number where a
    file name is declared. *)
Definition reference_document : Document unit :=
  mkDocument unit "workflow-reference.v1"
    (Some [("goalFile", PString None None None (JStr "nested-output.txt"));
           ("goalContent", PString None None None (JStr "Nested workflow content"))])
    tt.

Definition writing_engine (document : Document unit) (user : CliRunner.JsObject)
    (options : Options) : Run string string :=
  mkRun string string (Resolves string "child-completed") ["nested-output.txt"].

Lemma invalid_user_inputs_rejected_witness :
  run_result string string
    (runWorkflow unit string string writing_engine reference_document
       (mkOptions [("goalFile", JNum 123); ("goalContent", JStr "ok")] "/tmp/run"))
  = Rejects string
      (InputValidationError
         "Invalid user inputs for workflow workflow-reference.v1: goalFile: Invalid input: expected string")
  /\ run_effects string string
       (runWorkflow unit string string writing_engine reference_document
          (mkOptions [("goalFile", JNum 123); ("goalContent", JStr "ok")] "/tmp/run"))
     = [].
Proof.
  apply (invalid_user_inputs_rejected writing_engine reference_document
           (mkOptions [("goalFile", JNum 123); ("goalContent", JStr "ok")] "/tmp/run")
           "goalFile: Invalid input: expected string").
  reflexivity.
Defined.

End HarnessSpec.

(** * Further properties of src/opencode.ts *)
Module OpencodeFacts.

Import Opencode StringFacts OpencodeSpec.

(** ** [extractResponseText], continued *)

Lemma truthy_text_nonempty (p : option Part) (t : string) :
  truthy_text p = Some t -> t <> "".
Proof.
  destruct p as [[ty [t'|]]|]; simpl; try done.
  destruct (String.eqb_spec t' ""); [done|]. by intros [= <-].
Qed.

(** X1: whatever the response, [extractResponseText] never returns the
    empty string: it is the non-empty text of a part or an error text. *)
Theorem extractResponseText_never_empty (response : option (list Part)) :
  extractResponseText response <> "".
Proof.
  unfold extractResponseText.
  destruct response as [[|p parts]|]; try discriminate.
  destruct (truthy_text _) as [t|] eqn:E; [|discriminate].
  by apply truthy_text_nonempty in E.
Qed.

(** X2: as soon as a response holds a text part, the parts of any other
    type are of no account: dropping them all gives the same result. *)
Theorem extractResponseText_ignores_other_parts (parts : list Part) :
  filter (fun p => is_text_part p = true) parts <> [] ->
  extractResponseText (Some parts)
  = extractResponseText (Some (filter (fun p => is_text_part p = true) parts)).
Proof.
  intros Hne. unfold extractResponseText.
  destruct parts as [|p parts]; [done|].
  destruct (filter _ (p :: parts)) as [|q l] eqn:E; [done|].
  rewrite <- E. by rewrite list_filter_filter_l.
Qed.

Lemma extractResponseText_ignores_other_parts_witness :
  extractResponseText
    (Some [mkPart "step-start" None; textPart "done"; mkPart "step-finish" None])
  = extractResponseText
      (Some (filter (fun p => is_text_part p = true)
               [mkPart "step-start" None; textPart "done"; mkPart "step-finish" None])).
Proof.
  apply (extractResponseText_ignores_other_parts
           [mkPart "step-start" None; textPart "done"; mkPart "step-finish" None]).
  discriminate.
Defined.

(** ** The provider cache, continued *)

(** X3: closing the server twice is closing it once: the second call
    finds no server, closes nothing and changes nothing. *)
Theorem closeOpencodeServer_idempotent (w : World) :
  closeOpencodeServer (closeOpencodeServer w) = closeOpencodeServer w.
Proof.
  rewrite !closeOpencodeServer_eq. unfold closing. simpl. by rewrite app_nil_r.
Qed.

Lemma js_get_absent {A} (o : gmap string A) (key : string) :
  js_get o key = None <-> o !! key = None /\ key ∉ Object_prototype.
Proof.
  unfold js_get. destruct (o !! key); [by split; [|intros []]|].
  case_bool_decide; split; try done. by intros [].
Qed.

Lemma js_get_inserted {A} (o : gmap string A) (key : string) (a : A) :
  js_get (<[key := a]> o) key = Some (Own a).
Proof. unfold js_get. by rewrite lookup_insert_eq. Qed.

(** The world [getOpencodeClient] works in once it has looked at the
    server: without a server the cache is emptied first. *)
Definition cache_checked (w : World) : World :=
  match opencodeServer w with
  | Some _ => w
  | None => resetOpencodeClients w
  end.

(** The server started by the next successful [createOpencodeServer]. *)
Definition next_server (w : World) : ServerHandle := mkServer (sdk_url (sdkStarted w)).

(** What [getOpencodeClient] does when the cache holds nothing for the
    directory, by cases on the server and on what the host rejects. *)
Definition client_created (directory : string) (w : World)
    : Result (Member OpencodeClient) * World :=
  match opencodeServer w with
  | Some h =>
      match import_error (host w) with
      | Some e => (Throw e, w)
      | None =>
          match client_error (host w) with
          | Some e => (Throw e, w)
          | None =>
              (Ok (Own (mkClient (server_url h) directory)),
               set_clients (<[directory := mkClient (server_url h) directory]>
                              (opencodeClients w)) w)
          end
      end
  | None =>
      match import_error (host w) with
      | Some e => (Throw e, w)
      | None =>
          match server_error (host w) with
          | Some e => (Throw e, w)
          | None =>
              let started :=
                mkWorld (Some (next_server w)) (opencodeClients w) (S (sdkStarted w))
                  (sdkClosed w) (files w) (dirs w) (host w) in
              match client_error (host w) with
              | Some e => (Throw e, started)
              | None =>
                  (Ok (Own (mkClient (sdk_url (sdkStarted w)) directory)),
                   set_clients
                     (<[directory := mkClient (sdk_url (sdkStarted w)) directory]>
                        (opencodeClients w)) started)
              end
          end
      end
  end.

Lemma getOpencodeClient_cases (directory : string) (w : World) :
  getOpencodeClient directory w
  = match js_get (opencodeClients (cache_checked w)) directory with
    | Some found => (Ok found, cache_checked w)
    | None => client_created directory (cache_checked w)
    end.
Proof.
  unfold getOpencodeClient. fold (cache_checked w).
  generalize (cache_checked w) as v. intros v.
  destruct (js_get _ directory); [done|].
  unfold client_created, getOpencodeServer, getSdk.
  destruct (opencodeServer v) as [h|].
  - destruct (import_error (host v)); [done|].
    by destruct (client_error (host v)).
  - destruct (import_error (host v)) eqn:Ei; [done|].
    destruct (server_error (host v)); [done|].
    cbn [host set_server set_sdkStarted]. rewrite Ei.
    by destruct (client_error (host v)).
Qed.

Lemma set_clients_clients (m : gmap string OpencodeClient) (w : World) :
  opencodeClients (set_clients m w) = m.
Proof. done. Qed.

Lemma cache_checked_idempotent (w : World) : cache_checked (cache_checked w) = cache_checked w.
Proof.
  unfold cache_checked. destruct (opencodeServer w) as [h|] eqn:E; [by rewrite E|].
  rewrite (resetOpencodeClients_eq w). simpl. rewrite E.
  by rewrite resetOpencodeClients_eq.
Qed.

(** X4: asking twice for the client of a directory gives the same client
    the second time and leaves the server and the cache as the first call
    left them. *)
Theorem getOpencodeClient_idempotent (directory : string) (w : World) :
  getOpencodeClient directory (getOpencodeClient directory w).2
  = getOpencodeClient directory w.
Proof.
  rewrite (getOpencodeClient_cases directory w).
  destruct (js_get (opencodeClients (cache_checked w)) directory) as [found|] eqn:G.
  { cbn [snd]. by rewrite getOpencodeClient_cases, cache_checked_idempotent, G. }
  pose proof G as [Gown Gproto]%js_get_absent.
  assert (forall (o : gmap string OpencodeClient), o !! directory = None ->
            js_get o directory = None) as Gnone.
  { intros o Ho. by apply js_get_absent. }
  set (v := cache_checked w) in *.
  unfold client_created.
  destruct (opencodeServer v) as [h|] eqn:Es.
  - destruct (import_error (host v)) as [e|] eqn:Ei.
    { cbn [snd]. rewrite getOpencodeClient_cases. unfold cache_checked.
      rewrite Es, G. unfold client_created. by rewrite Es, Ei. }
    destruct (client_error (host v)) as [e|] eqn:Ec.
    { cbn [snd]. rewrite getOpencodeClient_cases. unfold cache_checked.
      rewrite Es, G. unfold client_created. by rewrite Es, Ei, Ec. }
    cbn [snd]. rewrite getOpencodeClient_cases. unfold cache_checked.
    cbn [opencodeServer set_clients]. rewrite Es.
    by rewrite set_clients_clients, js_get_inserted.
  - destruct (import_error (host v)) as [e|] eqn:Ei.
    { cbn [snd]. rewrite getOpencodeClient_cases.
      subst v. rewrite cache_checked_idempotent, G. unfold client_created.
      by rewrite Es, Ei. }
    destruct (server_error (host v)) as [e|] eqn:Ev.
    { cbn [snd]. rewrite getOpencodeClient_cases.
      subst v. rewrite cache_checked_idempotent, G. unfold client_created.
      by rewrite Es, Ei, Ev. }
    cbv zeta. destruct (client_error (host v)) as [e|] eqn:Ec.
    + cbn [snd]. rewrite getOpencodeClient_cases. unfold cache_checked.
      cbn [opencodeServer opencodeClients]. rewrite G. unfold client_created.
      cbn [opencodeServer host]. by rewrite Ei, Ec.
    + cbn [snd]. rewrite getOpencodeClient_cases. unfold cache_checked.
      cbn [opencodeServer set_clients].
      by rewrite set_clients_clients, js_get_inserted.
Qed.

(** Every cached client is filed under its own directory and points at
    the server the module holds. *)
Definition cache_consistent (w : World) : Prop :=
  forall directory c, opencodeClients w !! directory = Some c ->
    client_directory c = directory
    /\ exists h, opencodeServer w = Some h /\ client_baseUrl c = server_url h.

(** What a user of the module can do to its state. *)
Inductive Op : Type :=
  | OpGetServer
  | OpGetClient (directory : string)
  | OpCloseServer
  | OpCloseHandle (h : ServerHandle)
  | OpCreateMarkdown (directory name model instructions : string)
      (tools : option ToolOptions)
  | OpCreateConfig (directory name model instructions : string)
      (tools : option ToolOptions).

Definition run_op (w : World) (op : Op) : World :=
  match op with
  | OpGetServer => (getOpencodeServer w).2
  | OpGetClient directory => (getOpencodeClient directory w).2
  | OpCloseServer => closeOpencodeServer w
  | OpCloseHandle h => handle_close h w
  | OpCreateMarkdown directory name model instructions tools =>
      (createAgentViaMarkdown directory name model instructions tools w).2
  | OpCreateConfig directory name model instructions tools =>
      (createAgentViaConfig directory name model instructions tools w).2
  end.

Lemma cache_consistent_empty (w : World) :
  opencodeClients w = ∅ -> cache_consistent w.
Proof. intros H directory c. by rewrite H, lookup_empty. Qed.

Lemma cache_consistent_same (w w' : World) :
  opencodeServer w' = opencodeServer w ->
  opencodeClients w' = opencodeClients w ->
  cache_consistent w -> cache_consistent w'.
Proof. intros Hs Hc H directory c. rewrite Hs, Hc. apply H. Qed.

Lemma cache_checked_consistent (w : World) :
  cache_consistent w -> cache_consistent (cache_checked w).
Proof.
  intros H. unfold cache_checked. destruct (opencodeServer w); [done|].
  apply cache_consistent_empty, resetOpencodeClients_clients.
Qed.

Lemma cache_consistent_filed (w : World) (h : ServerHandle) (directory : string) :
  opencodeServer w = Some h ->
  cache_consistent w ->
  cache_consistent
    (set_clients (<[directory := mkClient (server_url h) directory]> (opencodeClients w)) w).
Proof.
  intros Es H d c Hc. simpl in Hc |- *. rewrite Es.
  destruct (decide (directory = d)) as [->|Hne].
  - rewrite lookup_insert_eq in Hc. injection Hc as <-. simpl. eauto.
  - rewrite lookup_insert_ne in Hc by done.
    destruct (H d c Hc) as (Hd & h' & Hh & Hu). split; [done|].
    exists h'. rewrite Es in Hh. by split.
Qed.

Lemma run_op_consistent (w : World) (op : Op) :
  cache_consistent w -> cache_consistent (run_op w op).
Proof.
  intros H. destruct op; simpl.
  - unfold getOpencodeServer, getSdk. destruct (opencodeServer w) as [h|] eqn:Es; [done|].
    destruct (import_error (host w)); [done|].
    destruct (server_error (host w)); [done|].
    intros directory c Hc. simpl in Hc |- *.
    destruct (H directory c Hc) as (_ & h & Hh & _). congruence.
  - rewrite getOpencodeClient_cases.
    apply cache_checked_consistent in H. revert H.
    generalize (cache_checked w) as v. intros v H.
    destruct (js_get (opencodeClients v) directory); [done|].
    unfold client_created.
    destruct (opencodeServer v) as [h|] eqn:Es.
    + destruct (import_error (host v)); [done|].
      destruct (client_error (host v)); [done|].
      by apply cache_consistent_filed.
    + assert (opencodeClients v = ∅) as Hempty.
      { apply map_eq. intros d. rewrite lookup_empty.
        destruct (opencodeClients v !! d) as [c|] eqn:Ec; [|done].
        destruct (H d c Ec) as (_ & h & Hh & _). congruence. }
      destruct (import_error (host v)); [done|].
      destruct (server_error (host v)); [done|].
      cbv zeta.
      destruct (client_error (host v)).
      * apply cache_consistent_empty. by simpl.
      * cbn [snd].
        apply (cache_consistent_filed
                 (mkWorld (Some (next_server v)) (opencodeClients v) (S (sdkStarted v))
                    (sdkClosed v) (files v) (dirs v) (host v)) (next_server v)); [done|].
        by apply cache_consistent_empty.
  - apply cache_consistent_empty. by rewrite closeOpencodeServer_eq.
  - apply cache_consistent_empty. unfold handle_close.
    apply resetOpencodeClients_clients.
  - rewrite createAgentViaMarkdown_cases.
    destruct (mkdir_error _ w); [done|]. cbv zeta.
    destruct (fs_exists _ w); [by apply (cache_consistent_same w)|].
    destruct (refused (host w) !! _); [by apply (cache_consistent_same w)|].
    apply cache_consistent_empty. cbn [snd]. by rewrite closeOpencodeServer_eq.
  - rewrite createAgentViaConfig_cases.
    destruct (read_config _ w) as [config|]; [|done].
    destruct (ensure_agent config) as [agent|]; [|done].
    destruct (agent_found _ _ _); [done|].
    destruct (agent_assign _ _ _ _); [|done].
    destruct (write_error _ w); [done|].
    apply cache_consistent_empty. cbn [snd]. by rewrite closeOpencodeServer_eq.
Qed.

(** The state of the module when it is loaded, on any file system and
    any host. *)
Definition loaded (fs : gmap string FileData) (ds : gset string) (h : Host) : World :=
  mkWorld None ∅ 0 [] fs ds h.

(** X5: from the state the module is loaded in, whatever is done with
    servers, clients and agent definitions, and whatever the host rejects
    on the way, every cached client is filed under its own directory and
    points at the server currently held; in particular no client is cached
    while there is no server. *)
Theorem cache_always_consistent (fs : gmap string FileData) (ds : gset string)
    (h : Host) (ops : list Op) :
  cache_consistent (fold_left run_op ops (loaded fs ds h)).
Proof.
  assert (forall w, cache_consistent w -> cache_consistent (fold_left run_op ops w)) as H.
  { induction ops as [|op ops IH]; intros w Hw; [done|].
    simpl. apply IH. by apply run_op_consistent. }
  apply H. by apply cache_consistent_empty.
Qed.

(** X6: after a definition that was new has been written, the next
    request for a client of a directory finds the cache empty and no
    server. For a directory named like a member of [Object.prototype] it
    hands back that member, starts no server and caches nothing; for any
    other directory, on a host that rejects nothing of the SDK, it starts
    one more SDK server, and the cache then holds that one client, which
    points at the server just started. *)
Theorem client_after_new_definition
    directory name model instructions tools (w : World) (p d : string) :
  fs_exists (agent_filePath directory name) w = false ->
  (createAgentViaMarkdown directory name model instructions tools w).1 = Ok p ->
  let w1 := (createAgentViaMarkdown directory name model instructions tools w).2 in
  opencodeServer w1 = None /\ opencodeClients w1 = ∅
  /\ (d ∈ Object_prototype -> getOpencodeClient d w1 = (Ok (Inherited d), w1))
  /\ (d ∉ Object_prototype ->
      import_error (host w) = None -> server_error (host w) = None ->
      client_error (host w) = None ->
      exists c w2,
        getOpencodeClient d w1 = (Ok (Own c), w2)
        /\ sdkStarted w2 = S (sdkStarted w)
        /\ opencodeClients w2 = {[ d := c ]}
        /\ opencodeServer w2 = Some (mkServer (client_baseUrl c))
        /\ client_directory c = d).
Proof.
  intros Hnew. rewrite createAgentViaMarkdown_cases.
  destruct (mkdir_error (agents_dir directory) w); [done|].
  cbv zeta. rewrite Hnew.
  destruct (refused (host w) !! agent_filePath directory name); [done|].
  intros _. cbn [snd]. rewrite closeOpencodeServer_eq. cbn [set_files set_dirs].
  cbn [opencodeServer opencodeClients sdkStarted sdkClosed files dirs host].
  set (w1 := mkWorld None ∅ _ _ _ _ _).
  assert (cache_checked w1 = w1) as Hchecked.
  { unfold cache_checked. simpl. by rewrite resetOpencodeClients_eq. }
  split; [done|]. split; [done|]. split.
  - intros Hd. rewrite getOpencodeClient_cases, Hchecked.
    unfold js_get. simpl. rewrite lookup_empty. by rewrite bool_decide_eq_true_2.
  - intros Hd Hi Hs Hc. rewrite getOpencodeClient_cases, Hchecked.
    unfold js_get. simpl. rewrite lookup_empty, bool_decide_eq_false_2 by done.
    unfold client_created. simpl. rewrite Hi, Hs, Hc.
    eexists _, _. split; [reflexivity|]. simpl. by rewrite insert_empty.
Qed.

Lemma client_after_new_definition_witness :
  sdkStarted
    (getOpencodeClient "/work"
       (createAgentViaMarkdown "/work" "verifier" "github-copilot/gpt-5-mini"
          "Verify the work." None (loaded ∅ ∅ obliging_host)).2).2
  = 1
  /\ getOpencodeClient "constructor"
       (createAgentViaMarkdown "/work" "verifier" "github-copilot/gpt-5-mini"
          "Verify the work." None (loaded ∅ ∅ obliging_host)).2
     = (Ok (Inherited "constructor"),
        (createAgentViaMarkdown "/work" "verifier" "github-copilot/gpt-5-mini"
           "Verify the work." None (loaded ∅ ∅ obliging_host)).2).
Proof.
  split.
  - pose proof (client_after_new_definition "/work" "verifier"
      "github-copilot/gpt-5-mini" "Verify the work." None (loaded ∅ ∅ obliging_host)
      "/work/.opencode/agent/verifier.md" "/work" eq_refl eq_refl) as (_ & _ & _ & H).
    assert ("/work" ∉ Object_prototype) as Hd by compute_done.
    destruct (H Hd eq_refl eq_refl eq_refl) as (c & w2 & Hget & Hstarted & _).
    rewrite Hget. exact Hstarted.
  - pose proof (client_after_new_definition "/work" "verifier"
      "github-copilot/gpt-5-mini" "Verify the work." None (loaded ∅ ∅ obliging_host)
      "/work/.opencode/agent/verifier.md" "constructor" eq_refl eq_refl) as (_ & _ & H & _).
    apply H. compute_done.
Defined.

(** ** Registering an agent again *)

Lemma set_dirs_present (p : string) (w : World) :
  p ∈ dirs w -> set_dirs ({[p]} ∪ dirs w) w = w.
Proof.
  intros H. apply world_eq; try reflexivity. simpl.
  apply leibniz_equiv. apply subseteq_union_1. by apply singleton_subseteq_l.
Qed.

Lemma set_dirs_twice (p : string) (w : World) :
  set_dirs ({[p]} ∪ dirs (set_dirs ({[p]} ∪ dirs w) w)) (set_dirs ({[p]} ∪ dirs w) w)
  = set_dirs ({[p]} ∪ dirs w) w.
Proof.
  apply set_dirs_present. simpl. apply elem_of_union. left. by apply elem_of_singleton.
Qed.

Lemma fs_exists_dir_added (directory name : string) (w : World) :
  fs_exists (agent_filePath directory name)
    (set_dirs ({[agents_dir directory]} ∪ dirs w) w)
  = fs_exists (agent_filePath directory name) w.
Proof.
  unfold fs_exists. simpl. f_equal.
  apply bool_decide_ext. rewrite elem_of_union, elem_of_singleton.
  split; [|by right]. intros [H|H]; [|done]. by apply agent_path_fresh in H.
Qed.

(** X7: once [createAgentViaMarkdown] has run for an agent in a directory,
    running it again for a name with the same file name, with whatever
    model, instructions and tools, has the outcome of the first run and
    changes nothing at all: no file is written, the server stays, the
    cache stays. When the first run returned, it returned the path of the
    definition, and so does the second: the first definition is the one
    that holds. *)
Theorem markdown_registration_is_kept
    directory name model instructions tools name' model' instructions' tools' (w : World) :
  agent_filename name' = agent_filename name ->
  let first := createAgentViaMarkdown directory name model instructions tools w in
  createAgentViaMarkdown directory name' model' instructions' tools' first.2
  = (first.1, first.2)
  /\ (forall p, first.1 = Ok p -> p = agent_filePath directory name).
Proof.
  intros Hname. cbv zeta.
  assert (agent_filePath directory name' = agent_filePath directory name) as Hpath.
  { unfold agent_filePath. by rewrite Hname. }
  rewrite (createAgentViaMarkdown_cases directory name).
  destruct (mkdir_error (agents_dir directory) w) as [e|] eqn:Em.
  { cbn [fst snd]. split; [|done]. by rewrite createAgentViaMarkdown_cases, Em. }
  cbv zeta.
  assert (mkdir_error (agents_dir directory)
            (set_dirs ({[agents_dir directory]} ∪ dirs w) w) = None) as Em1 by done.
  destruct (fs_exists (agent_filePath directory name) w) eqn:Ex.
  { cbn [fst snd]. split; [|by intros p [= <-]].
    rewrite createAgentViaMarkdown_cases, Em1. cbv zeta.
    by rewrite Hpath, fs_exists_dir_added, Ex, set_dirs_twice. }
  destruct (refused (host w) !! agent_filePath directory name) as [e|] eqn:Er.
  { cbn [fst snd]. split; [|done].
    rewrite createAgentViaMarkdown_cases, Em1. cbv zeta.
    rewrite Hpath, fs_exists_dir_added, Ex. cbn [host set_dirs].
    by rewrite Er, set_dirs_twice. }
  cbn [fst snd]. split; [|by intros p [= <-]].
  rewrite closeOpencodeServer_eq. cbn [set_files set_dirs].
  cbn [opencodeServer opencodeClients sdkStarted sdkClosed files dirs host].
  set (w1 := mkWorld None ∅ _ _ _ _ _).
  rewrite createAgentViaMarkdown_cases.
  assert (mkdir_error (agents_dir directory) w1 = None) as ->.
  { unfold mkdir_error in Em |- *. simpl.
    destruct (refused (host w) !! agents_dir directory); [done|].
    rewrite lookup_insert_ne by apply agent_path_fresh. done. }
  cbv zeta. rewrite Hpath.
  assert (fs_exists (agent_filePath directory name) w1 = true) as ->.
  { unfold fs_exists. simpl. rewrite lookup_insert_eq.
    apply orb_true_iff. left. apply bool_decide_eq_true. eauto. }
  f_equal. apply set_dirs_present. simpl.
  apply elem_of_union. left. by apply elem_of_singleton.
Qed.

Lemma markdown_registration_is_kept_witness :
  createAgentViaMarkdown "/work" "my-agent" "openai/gpt" "Second." None
    (createAgentViaMarkdown "/work" "My Agent" "github-copilot/gpt-5-mini" "First."
       (Some {[ "read" := JBool true ]}) (loaded ∅ ∅ obliging_host)).2
  = (Ok (agent_filePath "/work" "My Agent"),
     (createAgentViaMarkdown "/work" "My Agent" "github-copilot/gpt-5-mini" "First."
        (Some {[ "read" := JBool true ]}) (loaded ∅ ∅ obliging_host)).2).
Proof.
  exact (proj1 (markdown_registration_is_kept "/work" "My Agent"
           "github-copilot/gpt-5-mini" "First." (Some {[ "read" := JBool true ]})
           "my-agent" "openai/gpt" "Second." None (loaded ∅ ∅ obliging_host) eq_refl)).
Defined.

(** The [agent] member read is usable as a map of agents: the
    configuration is an object and the member is an object that is no
    array, or is missing. *)
Definition agents_read (config : OpencodeConfig) : option (gmap string AgentEntry) :=
  match config with
  | ConfigObject (Some (AgentObject members)) => Some members
  | ConfigObject None => Some ∅
  | _ => None
  end.

Lemma read_config_written (p : string) (config : OpencodeConfig) (w : World) :
  read_config p (closeOpencodeServer (set_files (<[p := ConfigFile config]> (files w)) w))
  = Ok config.
Proof.
  rewrite closeOpencodeServer_eq. unfold read_config. simpl. by rewrite lookup_insert_eq.
Qed.

(** X8: when a registration in [opencode.json] has returned, and the
    agent member that was read was an object or was missing, then in any
    later state in which the file reads as the registration left it,
    registering the same name again, with whatever model, instructions and
    tools, returns the same path and changes nothing: the server and the
    cache stay. Not so with arrays. When the configuration read is an
    array, the definition is lost when the file is written, and every
    later call for a name that is no member of [Object.prototype] writes
    the file again and closes the server; and so does a call that reads an
    agent member that is an array in which the engine does not find the
    name. *)
Theorem config_registration_is_kept
    directory name model instructions tools model' instructions' tools' (w : World) p
    config :
  (createAgentViaConfig directory name model instructions tools w).1 = Ok p ->
  read_config (config_path directory) w = Ok config ->
  let w1 := (createAgentViaConfig directory name model instructions tools w).2 in
  forall w2,
    read_config (config_path directory) w2 = read_config (config_path directory) w1 ->
    (is_Some (agents_read config) ->
     createAgentViaConfig directory name model' instructions' tools' w2 = (Ok p, w2))
    /\ (config = ConfigArray -> name ∉ Object_prototype ->
        write_error (config_path directory) w2 = None ->
        createAgentViaConfig directory name model' instructions' tools' w2
        = (Ok p,
           closeOpencodeServer
             (set_files (<[config_path directory := ConfigFile ConfigArray]> (files w2))
                w2)))
    /\ (forall elements elements',
          read_config (config_path directory) w2
          = Ok (ConfigObject (Some (AgentArray elements))) ->
          array_member (host w2) elements name = false ->
          array_assign (host w2) elements name
            (new_agentConfig name model' instructions' tools') = Ok elements' ->
          write_error (config_path directory) w2 = None ->
          createAgentViaConfig directory name model' instructions' tools' w2
          = (Ok p,
             closeOpencodeServer
               (set_files
                  (<[config_path directory :=
                       ConfigFile (ConfigObject (Some (AgentArray elements')))]> (files w2))
                  w2))).
Proof.
  intros Hok R. cbv zeta. intros w2.
  assert (p = config_path directory) as ->.
  { rewrite createAgentViaConfig_cases in Hok.
    repeat case_match; simpl in Hok; congruence. }
  intros R2. split; [|split].
  - revert R2. rewrite createAgentViaConfig_cases in Hok |- *. rewrite R in Hok |- *.
    destruct (ensure_agent config) as [agent|e] eqn:En; [|done].
    destruct (agent_found (host w) agent name) eqn:F.
    + cbn [fst snd] in *. rewrite R. intros R2 [members Hm].
      rewrite createAgentViaConfig_cases, R2, En.
      destruct config as [[[m|els]|]| | |]; try done;
        simpl in En; injection En as <-; simpl in F |- *; by rewrite F.
    + destruct (agent_assign _ _ _ _) as [agent'|e] eqn:A; [|done].
      destruct (write_error (config_path directory) w) as [e|] eqn:W; [done|].
      cbn [fst snd] in *. rewrite read_config_written. intros R2 [members Hm].
      rewrite createAgentViaConfig_cases, R2.
      destruct config as [[[m|els]|]| | |]; try done;
        simpl in En; injection En as <-; simpl in A; injection A as <-; simpl;
        unfold js_get; by rewrite lookup_insert_eq.
  - intros -> Hproto W2.
    assert (read_config (config_path directory) w2 = Ok ConfigArray) as R2'.
    { rewrite R2. rewrite createAgentViaConfig_cases in Hok |- *. rewrite R in Hok |- *.
      cbn [ensure_agent agent_assign stringified] in Hok |- *.
      destruct (agent_found (host w) (AgentObject ∅) name); [exact R|].
      destruct (write_error (config_path directory) w); [discriminate Hok|].
      cbn [snd]. by rewrite read_config_written. }
    rewrite createAgentViaConfig_cases, R2'. simpl.
    unfold js_get. rewrite lookup_empty, bool_decide_eq_false_2 by done.
    by rewrite W2.
  - intros elements elements' Re Hm Ha W2.
    rewrite createAgentViaConfig_cases, Re. simpl. by rewrite Hm, Ha, W2.
Qed.

Lemma config_registration_is_kept_witness :
  createAgentViaConfig "/work" "verifier" "openai/gpt" "Second." None
    (createAgentViaConfig "/work" "verifier" "github-copilot/gpt-5-mini" "First."
       None (loaded ∅ ∅ obliging_host)).2
  = (Ok "/work/opencode.json",
     (createAgentViaConfig "/work" "verifier" "github-copilot/gpt-5-mini" "First."
        None (loaded ∅ ∅ obliging_host)).2).
Proof.
  assert ((createAgentViaConfig "/work" "verifier" "github-copilot/gpt-5-mini" "First."
             None (loaded ∅ ∅ obliging_host)).1 = Ok "/work/opencode.json") as Hok
    by (vm_compute; reflexivity).
  assert (read_config (config_path "/work") (loaded ∅ ∅ obliging_host)
          = Ok (ConfigObject None)) as R by (vm_compute; reflexivity).
  refine (proj1 (config_registration_is_kept "/work" "verifier"
            "github-copilot/gpt-5-mini" "First." None "openai/gpt" "Second." None
            (loaded ∅ ∅ obliging_host) "/work/opencode.json" (ConfigObject None)
            Hok R _ eq_refl) _).
  by eexists.
Defined.

(** An [opencode.json] whose agent member is an empty array, with a
    server running: registering an agent writes the file back as it was,
    without the definition, and closes the server, and registering it
    again, with a server running again, does the same once more. *)
Definition array_world : World :=
  mkWorld (Some (mkServer "http://127.0.0.1/0")) ∅ 1 []
    {[ "/work/opencode.json" := ConfigFile (ConfigObject (Some (AgentArray []))) ]} ∅
    obliging_host.

Example agent_array_loses_the_definition :
  let registered :=
    createAgentViaConfig "/work" "verifier" "github-copilot/gpt-5-mini" "Verify." None
      array_world in
  registered.1 = Ok "/work/opencode.json"
  /\ files registered.2 = files array_world
  /\ sdkClosed registered.2 = ["http://127.0.0.1/0"]
  /\ sdkClosed
       (createAgentViaConfig "/work" "verifier" "github-copilot/gpt-5-mini" "Verify." None
          (getOpencodeServer registered.2).2).2
     = ["http://127.0.0.1/0"; "http://127.0.0.1/1"].
Proof. cbv zeta. repeat split; vm_compute; reflexivity. Qed.

(** X9: writing a new agent into an [opencode.json] whose agent member is
    an object, or is missing, puts the definition under the name and keeps
    every other entry of the agent object as it was read, defined or not;
    a configuration without an agent object gets one that holds the new
    agent alone. *)
Theorem config_keeps_other_agents
    directory name model instructions tools (w : World) p config members :
  (createAgentViaConfig directory name model instructions tools w).1 = Ok p ->
  agent_defined directory name w = false ->
  read_config (config_path directory) w = Ok config ->
  agents_read config = Some members ->
  exists members',
    files (createAgentViaConfig directory name model instructions tools w).2
      !! config_path directory
    = Some (ConfigFile (ConfigObject (Some (AgentObject members'))))
    /\ members' !! name = Some (AgentDef (new_agentConfig name model instructions tools))
    /\ (forall other, other <> name -> members' !! other = members !! other)
    /\ (config = ConfigObject None ->
        members' = {[ name := AgentDef (new_agentConfig name model instructions tools) ]}).
Proof.
  unfold agent_defined. rewrite createAgentViaConfig_cases. intros Hok D R Hm.
  rewrite R in Hok, D |- *.
  assert (ensure_agent config = Ok (AgentObject members)
          /\ forall a, stringified config a = ConfigObject (Some a)) as [En Hs].
  { destruct config as [[[m|els]|]| | |]; try done; simpl in Hm; by injection Hm as <-. }
  rewrite En in Hok, D |- *. rewrite D in Hok |- *. simpl in Hok |- *.
  destruct (write_error (config_path directory) w); [done|].
  cbn [snd]. rewrite closeOpencodeServer_eq. simpl. rewrite lookup_insert_eq, Hs.
  eexists. split; [reflexivity|]. split; [by rewrite lookup_insert_eq|]. split.
  - intros other Hne. by rewrite lookup_insert_ne.
  - intros ->. simpl in Hm. injection Hm as <-. by rewrite insert_empty.
Qed.

(** An [opencode.json] that lists a worker without defining it. *)
Definition worker_config : OpencodeConfig :=
  ConfigObject (Some (AgentObject {[ "worker" := AgentRaw JNull ]})).

Definition worker_world : World :=
  loaded {[ "/work/opencode.json" := ConfigFile worker_config ]} ∅ obliging_host.

Lemma config_keeps_other_agents_witness :
  exists members',
    files (createAgentViaConfig "/work" "verifier" "github-copilot/gpt-5-mini"
             "Verify." None worker_world).2
      !! "/work/opencode.json"
    = Some (ConfigFile (ConfigObject (Some (AgentObject members'))))
    /\ members' !! "worker" = Some (AgentRaw JNull).
Proof.
  assert ((createAgentViaConfig "/work" "verifier" "github-copilot/gpt-5-mini"
             "Verify." None worker_world).1 = Ok "/work/opencode.json") as Hok
    by (vm_compute; reflexivity).
  assert (agent_defined "/work" "verifier" worker_world = false) as D
    by (vm_compute; reflexivity).
  assert (read_config (config_path "/work") worker_world = Ok worker_config) as R
    by (vm_compute; reflexivity).
  destruct (config_keeps_other_agents "/work" "verifier" "github-copilot/gpt-5-mini"
              "Verify." None worker_world "/work/opencode.json" worker_config
              {[ "worker" := AgentRaw JNull ]} Hok D R eq_refl)
    as (members' & Hfile & _ & Hother & _).
  exists members'. split; [exact Hfile|].
  rewrite (Hother "worker") by discriminate. vm_compute. reflexivity.
Defined.

(** ** The file name, the model and the tools of a definition *)

(** A lower-case letter, a digit, a dash, an underscore or a dot. *)
Definition safe_char (c : Ascii.ascii) : bool :=
  let n := Ascii.nat_of_ascii c in
  (Nat.leb 97 n && Nat.leb n 122) || (Nat.leb 48 n && Nat.leb n 57)
  || Nat.eqb n 45 || Nat.eqb n 95 || Nat.eqb n 46.

Fixpoint all_chars (f : Ascii.ascii -> bool) (s : string) : bool :=
  match s with
  | EmptyString => true
  | String c rest => f c && all_chars f rest
  end.

Lemma sanitised_char_safe (c : Ascii.ascii) :
  safe_char (lower_char (if name_char_kept c then c else dash)) = true.
Proof. destruct c as [[] [] [] [] [] [] [] []]; reflexivity. Qed.

(** X10: whatever the name of the agent, its file name is a stem of the
    same length made of lower-case letters, digits, dashes, underscores
    and dots only, followed by ".md"; no name can place the definition
    outside the agent directory. *)
Theorem agent_filename_is_safe (name : string) :
  exists stem,
    agent_filename name = stem +:+ ".md"
    /\ String.length stem = String.length name
    /\ all_chars safe_char stem = true
    /\ all_chars (fun c => negb (Ascii.eqb c slash)) stem = true.
Proof.
  exists (map_string lower_char
            (map_string (fun c => if name_char_kept c then c else dash) name)).
  split; [done|].
  induction name as [|c name (Hlen & Hsafe & Hslash)]; [done|].
  simpl. rewrite Hlen, Hsafe, Hslash, sanitised_char_safe.
  split; [done|]. split; [done|].
  rewrite andb_true_r.
  pose proof (sanitised_char_safe c) as H.
  destruct (Ascii.eqb_spec
              (lower_char (if name_char_kept c then c else dash)) slash) as [E|]; [|done].
  rewrite E in H. discriminate.
Qed.

(** X11: a model is cut at its slashes and only the first two pieces are
    kept: "provider/model" comes back as it is, anything after a second
    slash is dropped, and a model without a slash becomes
    "<model>/undefined". *)
Theorem model_text_keeps_two_segments (provider : string) :
  no_sep slash provider = true ->
  model_text provider = provider +:+ "/undefined"
  /\ forall modelID, no_sep slash modelID = true ->
       model_text (provider +:+ "/" +:+ modelID) = provider +:+ "/" +:+ modelID
       /\ forall rest,
            model_text (provider +:+ "/" +:+ modelID +:+ "/" +:+ rest)
            = provider +:+ "/" +:+ modelID.
Proof.
  intros Hp. unfold model_text, split.
  destruct (split_go_segment slash provider "" Hp) as [Hp1 Hp2].
  split; [by rewrite Hp1|].
  intros modelID Hm.
  destruct (split_go_segment slash modelID "" Hm) as [Hm1 Hm2].
  change ("/" +:+ modelID) with (String slash modelID).
  split.
  - by rewrite Hp2, Hm1.
  - intros rest.
    change ("/" +:+ modelID +:+ "/" +:+ rest) with (String slash (modelID +:+ String slash rest)).
    by rewrite Hp2, Hm2.
Qed.

Lemma model_text_keeps_two_segments_witness :
  model_text ("github-copilot" +:+ "/" +:+ "gpt-5-mini" +:+ "/" +:+ "preview")
  = "github-copilot" +:+ "/" +:+ "gpt-5-mini".
Proof.
  pose proof (model_text_keeps_two_segments "github-copilot" eq_refl) as [_ H].
  specialize (H "gpt-5-mini" eq_refl) as [_ H].
  exact (H "preview").
Defined.

Lemma tool_line_agrees tools tools' key :
  tool_value tools key = tool_value tools' key ->
  tool_flag tools key = tool_flag tools' key
  /\ tool_permission tools key = tool_permission tools' key.
Proof. intros H. by rewrite !tool_flag_value, !tool_permission_value, H. Qed.

Lemma fold_left_agrees {A B} (f g : A -> B -> A) (l : list B) : forall a,
  (forall x, x ∈ l -> forall a', f a' x = g a' x) ->
  fold_left f l a = fold_left g l a.
Proof.
  induction l as [|x l IH]; intros a H; [done|].
  simpl. rewrite H by (apply elem_of_cons; by left).
  apply IH. intros y Hy. apply H. apply elem_of_cons. by right.
Qed.

Lemma map_agrees {A B} (f g : A -> B) (l : list A) :
  (forall x, x ∈ l -> f x = g x) -> map f l = map g l.
Proof.
  induction l as [|x l IH]; intros H; [done|].
  simpl. rewrite H by (apply elem_of_cons; by left).
  f_equal. apply IH. intros y Hy. apply H. apply elem_of_cons. by right.
Qed.

Lemma permission_keys_are_tool_keys (key : string) :
  key ∈ PERMISSION_KEYS -> key ∈ TOOL_KEYS.
Proof.
  unfold PERMISSION_KEYS, TOOL_KEYS. intros H.
  repeat (apply elem_of_cons in H as [->|H]; [compute_done|]).
  by apply elem_of_nil in H.
Qed.

(** X12: only the eleven tool keys are read from the tools map. Two maps
    that give these keys the same values, however else they differ, give
    the same markdown definition and the same [opencode.json] entry. *)
Theorem definition_reads_tool_keys_only name model instructions tools tools' :
  (forall key, key ∈ TOOL_KEYS -> tool_value tools key = tool_value tools' key) ->
  frontmatterLines name model instructions tools
  = frontmatterLines name model instructions tools'
  /\ new_agentConfig name model instructions tools
     = new_agentConfig name model instructions tools'.
Proof.
  intros H. split.
  - unfold frontmatterLines. f_equal.
    rewrite (map_agrees (tool_line tools) (tool_line tools')).
    + do 3 f_equal. apply map_agrees. intros key Hin. unfold permission_line.
      destruct (tool_line_agrees tools tools' key) as [_ ->]; [|done].
      by apply H, permission_keys_are_tool_keys.
    + intros key Hin. unfold tool_line.
      by destruct (tool_line_agrees tools tools' key (H key Hin)) as [-> _].
  - unfold new_agentConfig. apply fold_left_agrees.
    intros key Hin cfg. unfold config_tool_step.
    by destruct (tool_line_agrees tools tools' key (H key Hin)) as [-> ->].
Qed.

Lemma definition_reads_tool_keys_only_witness :
  frontmatterLines "verifier" "a/b" "Verify."
    (Some {[ "read" := JBool true; "shell" := JBool true ]})
  = frontmatterLines "verifier" "a/b" "Verify." (Some {[ "read" := JBool true ]}).
Proof.
  apply (definition_reads_tool_keys_only "verifier" "a/b" "Verify."
           (Some {[ "read" := JBool true; "shell" := JBool true ]})
           (Some {[ "read" := JBool true ]})).
  intros key Hin. unfold TOOL_KEYS in Hin.
  repeat (apply elem_of_cons in Hin as [->|Hin]; [vm_compute; reflexivity|]).
  by apply elem_of_nil in Hin.
Defined.

(** ** Message diffs *)

Section Diffs.

Context {FileDiff : Type}.
Variable session_diff :
  OpencodeClient -> string -> option string -> string -> Result (option (list FileDiff)).
Variable session_message :
  OpencodeClient -> string -> option string -> string -> Result (Summary FileDiff).

(** [directory ? { directory } : {}] *)
Definition directory_query (session : Session) : option string :=
  if String.eqb (session_directory session) "" then None
  else Some (session_directory session).

(** X13: without a message id [getMessageDiff] asks nothing and changes
    nothing. With one, it leaves the state as the request for the client
    leaves it, and it fails in these cases and no other: the client cannot
    be had, with the error of that; the directory is named like a member
    of [Object.prototype], which is no client, with a type error; the diff
    request is rejected, with its error; the answer carries no data, with
    its own message. A message request that fails is never reported. A
    non-empty answer of the diff request is returned as it is; an empty
    one is replaced by the diffs of the message summary, or by none when
    there are none or the message request fails. *)
Theorem getMessageDiff_failures (session : Session) (messageID : string) (w : World) :
  let out := getMessageDiff FileDiff session_diff session_message session messageID w in
  let acquired := getOpencodeClient (session_directory session) w in
  let answer := fun client =>
    session_diff client (session_id session) (directory_query session) messageID in
  (messageID = "" -> out = (Ok [], w))
  /\ (messageID <> "" -> out.2 = acquired.2)
  /\ (forall m, out.1 = Throw m ->
        messageID <> ""
        /\ (acquired.1 = Throw m
            \/ (exists inherited, acquired.1 = Ok (Inherited inherited)
                  /\ m = "TypeError")
            \/ (exists client, acquired.1 = Ok (Own client)
                  /\ (answer client = Throw m
                      \/ (answer client = Ok None
                          /\ m = "Failed to retrieve Opencode message diff")))))
  /\ (forall m, messageID <> "" -> acquired.1 = Throw m -> out.1 = Throw m)
  /\ (forall inherited, messageID <> "" -> acquired.1 = Ok (Inherited inherited) ->
        out.1 = Throw "TypeError")
  /\ (forall client d data, messageID <> "" -> acquired.1 = Ok (Own client) ->
        answer client = Ok (Some (d :: data)) -> out.1 = Ok (d :: data))
  /\ (forall client, messageID <> "" -> acquired.1 = Ok (Own client) ->
        answer client = Ok (Some []) ->
        out.1 = Ok (match session_message client (session_id session)
                            (directory_query session) messageID with
                    | Ok summary => extractSummaryDiffs FileDiff summary
                    | Throw _ => []
                    end)).
Proof.
  cbv zeta. unfold getMessageDiff, directory_query.
  destruct (String.eqb_spec messageID "") as [->|Hne].
  { repeat (split; [done|]). done. }
  destruct (getOpencodeClient (session_directory session) w) as [[[client|inherited]|e] w1].
  - cbn [fst snd].
    destruct (session_diff client _ _ _) as [[[|d data]|]|m0] eqn:A; cbn [fst snd];
      (split; [done|]); (split; [try done|]).
    + intros _. destruct (session_message _ _ _ _) as [summary|]; [|done].
      by destruct (0 <? length (extractSummaryDiffs FileDiff summary))%nat.
    + split.
      { intros m. destruct (session_message _ _ _ _) as [summary|]; [|done].
        by destruct (0 <? length (extractSummaryDiffs FileDiff summary))%nat. }
      split; [by intros m _ [=]|]. split; [by intros i _ [=]|]. split.
      * intros c d' data' _ [= <-]. by rewrite A.
      * intros c _ [= <-] _.
        destruct (session_message _ _ _ _) as [summary|]; [|done].
        by destruct (extractSummaryDiffs FileDiff summary).
    + split; [done|].
      split; [by intros m _ [=]|]. split; [by intros i _ [=]|]. split.
      * intros c d' data' _ [= <-]. rewrite A. by intros [= <- <-].
      * intros c _ [= <-]. by rewrite A.
    + split.
      { intros m [= <-]. split; [done|]. right; right. exists client.
        split; [done|]. right. by rewrite A. }
      split; [by intros m _ [=]|]. split; [by intros i _ [=]|].
      split; intros c; [intros d' data'|]; intros _ [= <-]; by rewrite A.
    + split.
      { intros m [= <-]. split; [done|]. right; right. exists client.
        split; [done|]. left. by rewrite A. }
      split; [by intros m _ [=]|]. split; [by intros i _ [=]|].
      split; intros c; [intros d' data'|]; intros _ [= <-]; by rewrite A.
  - cbn [fst snd]. split; [done|]. split; [done|]. split.
    { intros m [= <-]. split; [done|]. right; left. by exists inherited. }
    split; [by intros m _ [=]|]. split; [done|].
    split; [by intros c d' data' _ [=]|by intros c _ [=]].
  - cbn [fst snd]. split; [done|]. split; [done|]. split.
    { intros m [= <-]. split; [done|]. by left. }
    split; [by intros m _ [= <-]|]. split; [by intros i _ [=]|].
    split; [by intros c d' data' _ [=]|by intros c _ [=]].
Qed.

End Diffs.

End OpencodeFacts.

(** * Further properties of the CLI process runner *)
Module CliRunnerFacts.

Import CliRunner StringFacts CliRunnerSpec.

Section Runner.

Variable Buffer_from : string -> Buffer.
Variable Buffer_toString : Buffer -> string.

Local Abbreviation handle := (handle Buffer_from Buffer_toString).
Local Abbreviation stdout_chunks := (stdout_chunks Buffer_from).
Local Abbreviation stderr_chunks := (stderr_chunks Buffer_from).

(** ** The promise, continued *)

(** X14: as long as the child emits only data the promise stays pending,
    and an ['error'] that comes before any ['close'] rejects it with that
    error, whatever the child emits afterwards, a ['close'] included. *)
Theorem error_before_close_rejects input has_stdin pre :
  Forall is_data pre ->
  returned (defaultRunCliArgs Buffer_from Buffer_toString input has_stdin pre) = Pending
  /\ forall err rest,
       returned (defaultRunCliArgs Buffer_from Buffer_toString input has_stdin
                   (pre ++ ErrorEvent err :: rest))
       = Rejected err.
Proof.
  intros Hpre.
  destruct (data_fold Buffer_from Buffer_toString input pre Hpre initial_runner)
    as (Hp & _ & _).
  unfold defaultRunCliArgs. cbn [returned]. split; [by rewrite Hp|].
  intros err rest. rewrite fold_left_app. cbn [fold_left].
  rewrite (settled_stable Buffer_from Buffer_toString); simpl; by rewrite Hp.
Qed.

(** X15: the promise is settled once: after it has been resolved or
    rejected, no later event of the child changes what it holds. *)
Theorem promise_settles_once input has_stdin events more :
  returned (defaultRunCliArgs Buffer_from Buffer_toString input has_stdin events)
  <> Pending ->
  returned (defaultRunCliArgs Buffer_from Buffer_toString input has_stdin (events ++ more))
  = returned (defaultRunCliArgs Buffer_from Buffer_toString input has_stdin events).
Proof.
  unfold defaultRunCliArgs. cbn [returned]. intros H.
  rewrite fold_left_app. by apply settled_stable.
Qed.

(** ** Captured output, continued *)

(** The decodings of the chunks, one after the other. *)
Definition decoded (chunks : list Buffer) : string :=
  foldr (fun b acc => Buffer_toString b +:+ acc) "" chunks.

Lemma text_fold input pre : Forall is_data pre -> forall r,
  r_stdout (fold_left (handle input) pre r)
  = r_stdout r +:+ (if captureText input then decoded (stdout_chunks pre) else "")
  /\ r_stderr (fold_left (handle input) pre r)
     = r_stderr r +:+ (if captureText input then decoded (stderr_chunks pre) else "").
Proof.
  induction 1 as [|ev pre Hev _ IH]; intros r.
  { destruct (captureText input); split; symmetry; apply string_app_nil_r. }
  simpl fold_left. destruct (IH (handle input r ev)) as (-> & ->).
  destruct ev as [c|c| |]; try done; cbn [handle CliRunner.handle r_stdout r_stderr];
    destruct (captureText input); split;
    first [reflexivity | apply string_app_assoc].
Qed.

(** X16: without a capture mode the output of the child is dropped: the
    promise resolves with empty [stdout] and [stderr] and without buffers,
    whatever the child has written. *)
Theorem no_capture_drops_output input has_stdin pre code rest :
  capture input = None ->
  Forall is_data pre ->
  returned (defaultRunCliArgs Buffer_from Buffer_toString input has_stdin
              (pre ++ CloseEvent code :: rest))
  = Resolved (mkResult "" "" None None (default (-1)%Z code)).
Proof.
  intros Hcap Hpre.
  destruct (resolved_at_close Buffer_from Buffer_toString input has_stdin pre code rest Hpre)
    as (-> & _).
  unfold closed_result, on_close. cbn [promise].
  destruct (data_fold Buffer_from Buffer_toString input pre Hpre initial_runner)
    as (-> & _ & _).
  destruct (text_fold input pre Hpre initial_runner) as (-> & ->).
  unfold captureBuffer, captureText. rewrite Hcap. reflexivity.
Qed.

(** X17: under capture text or both, [stdout] and [stderr] are the
    decodings of the chunks of their stream, each chunk decoded by itself,
    joined in the order of arrival; they are not the decoding of the
    joined bytes. *)
Theorem text_capture_decodes_chunkwise input has_stdin pre code rest :
  captureText input = true ->
  Forall is_data pre ->
  exists result,
    returned (defaultRunCliArgs Buffer_from Buffer_toString input has_stdin
                (pre ++ CloseEvent code :: rest))
    = Resolved result
    /\ stdout result = decoded (stdout_chunks pre)
    /\ stderr result = decoded (stderr_chunks pre).
Proof.
  intros Hcap Hpre.
  destruct (resolved_at_close Buffer_from Buffer_toString input has_stdin pre code rest Hpre)
    as (-> & _).
  unfold closed_result, on_close. cbn [promise].
  destruct (data_fold Buffer_from Buffer_toString input pre Hpre initial_runner)
    as (-> & _ & _).
  destruct (text_fold input pre Hpre initial_runner) as (-> & ->).
  rewrite Hcap. simpl.
  eexists. split; [reflexivity|]. simpl.
  by destruct (captureBuffer input).
Qed.

End Runner.

Lemma error_before_close_rejects_witness :
  returned (defaultRunCliArgs ascii_from ascii_toString pipe_invocation true
              ([StderrData (ChunkString "no such file")]
               ++ ErrorEvent "ENOENT" :: [CloseEvent (Some (-2)%Z)]))
  = Rejected "ENOENT".
Proof.
  apply (proj2 (error_before_close_rejects ascii_from ascii_toString pipe_invocation true
                  [StderrData (ChunkString "no such file")]
                  ltac:(repeat constructor))).
Defined.

Lemma promise_settles_once_witness :
  returned (defaultRunCliArgs ascii_from ascii_toString pipe_invocation true
              ([CloseEvent (Some 0%Z)] ++ [StdoutData (ChunkString "late"); ErrorEvent "late"]))
  = returned (defaultRunCliArgs ascii_from ascii_toString pipe_invocation true
                [CloseEvent (Some 0%Z)]).
Proof.
  apply (promise_settles_once ascii_from ascii_toString pipe_invocation true
           [CloseEvent (Some 0%Z)] [StdoutData (ChunkString "late"); ErrorEvent "late"]).
  discriminate.
Defined.

Lemma no_capture_drops_output_witness :
  returned (defaultRunCliArgs ascii_from ascii_toString
              (mkInvocation "printf" (Some [("arg0", JStr "hello")]) None
                 (StdinJs JUndefined) None)
              true ([StdoutData (ChunkString "hello")] ++ CloseEvent (Some 0%Z) :: []))
  = Resolved (mkResult "" "" None None 0%Z).
Proof.
  apply (no_capture_drops_output ascii_from ascii_toString
           (mkInvocation "printf" (Some [("arg0", JStr "hello")]) None
              (StdinJs JUndefined) None)
           true [StdoutData (ChunkString "hello")] (Some 0%Z) []).
  - reflexivity.
  - repeat constructor.
Defined.

Lemma text_capture_decodes_chunkwise_witness :
  exists result,
    returned (defaultRunCliArgs ascii_from ascii_toString pipe_invocation true
                ([StdoutData (ChunkString "00"); StdoutData (ChunkString "01")]
                 ++ CloseEvent (Some 0%Z) :: []))
    = Resolved result
    /\ stdout result = "0001".
Proof.
  destruct (text_capture_decodes_chunkwise ascii_from ascii_toString pipe_invocation true
              [StdoutData (ChunkString "00"); StdoutData (ChunkString "01")]
              (Some 0%Z) [] eq_refl ltac:(repeat constructor))
    as (result & Hres & Hout & _).
  exists result. split; [exact Hres|]. exact Hout.
Defined.

(** ** Standard input and arguments, continued *)

Section Stdin.

Variable Buffer_from : string -> Buffer.
Variable Buffer_toString : Buffer -> string.

(** X18: without a [stdinValue] the standard input of the child is left
    as it is, nothing written and not ended; any other value that is not
    a byte buffer is written as the text [String(value)], [null] as
    "null", a number in decimal; and a child without standard input is
    given nothing. *)
Theorem stdin_of_other_values command args cwd capture events :
  child_stdin (defaultRunCliArgs Buffer_from Buffer_toString
                 (mkInvocation command args cwd (StdinJs JUndefined) capture) true events)
  = Some fresh_stdin
  /\ (forall v, v <> JUndefined ->
        child_stdin (defaultRunCliArgs Buffer_from Buffer_toString
                       (mkInvocation command args cwd (StdinJs v) capture) true events)
        = Some (mkStdin (Buffer_from (js_String v)) true))
  /\ (forall value,
        child_stdin (defaultRunCliArgs Buffer_from Buffer_toString
                       (mkInvocation command args cwd value capture) false events)
        = None).
Proof.
  split; [reflexivity|]. split.
  - intros v Hv. by destruct v.
  - intros [[]|]; reflexivity.
Qed.

Lemma rendered_by_key (o : JsObject) :
  NoDup (Object_keys o) ->
  map (fun key => js_String (obj_get o key)) (Object_keys o)
  = map (fun member => js_String member.2) o.
Proof.
  intros Hnd. unfold Object_keys. rewrite map_map.
  apply map_ext_in. intros [k v] Hin. simpl. f_equal.
  apply obj_get_member; [done|]. by apply list_elem_of_In.
Qed.

(** X19: the argv handed to [spawn] holds the rendered value of every
    argument once and no other entry: it is a rearrangement of the values
    of the members of [args]; without [args] it is empty. The command and
    the working directory are passed on as given, with no shell. *)
Theorem argv_holds_every_value command (o : JsObject) cwd stdin capture has_stdin events :
  NoDup (Object_keys o) ->
  let call := fun a =>
    spawned (defaultRunCliArgs Buffer_from Buffer_toString
               (mkInvocation command a cwd stdin capture) has_stdin events) in
  spawn_argv (call (Some o)) ≡ₚ map (fun member => js_String member.2) o
  /\ spawn_argv (call None) = []
  /\ call (Some o) = mkSpawn command (spawn_argv (call (Some o))) cwd false.
Proof.
  intros Hnd call. subst call.
  cbn [spawned defaultRunCliArgs spawn_argv spawn_call]. unfold argv.
  cbn [args default from_option id step_command CliRunner.cwd].
  split; [|split; reflexivity].
  rewrite <- rendered_by_key by done.
  apply Permutation_map. apply merge_sort_Permutation.
Qed.

End Stdin.

Lemma argv_holds_every_value_witness :
  spawn_argv (spawned (defaultRunCliArgs ascii_from ascii_toString
     (mkInvocation "tee" (Some [("flag", JStr "-a"); ("file", JStr "out.txt")])
        None (StdinJs JUndefined) None) true []))
  ≡ₚ ["-a"; "out.txt"].
Proof.
  apply (argv_holds_every_value ascii_from ascii_toString "tee"
           [("flag", JStr "-a"); ("file", JStr "out.txt")]
           None (StdinJs JUndefined) None true []).
  compute_done.
Defined.

End CliRunnerFacts.

(** * Further properties of src/workflow-builder.ts *)
Module WorkflowBuilderFacts.

Import WorkflowBuilder WorkflowBuilderSpec.

(** ** Wrappers around a schema *)

Lemma unwrapEffects_idempotent (schema : ZodSchema) :
  unwrapEffects (unwrapEffects schema) = unwrapEffects schema.
Proof. induction schema; try reflexivity. exact IHschema. Qed.

Lemma unwrap_finish_ok current dv required :
  is_nullable current = false ->
  unwrap_finish current dv required = Ok (mkUnwrapped (unwrapEffects current) dv required).
Proof. unfold unwrap_finish. by intros ->. Qed.

Lemma unwrap_finish_inner current dv required u :
  unwrap_finish current dv required = Ok u ->
  unwrapEffects (inner u) = inner u.
Proof.
  unfold unwrap_finish. destruct (is_nullable current); [done|].
  intros [= <-]. apply unwrapEffects_idempotent.
Qed.

Lemma unwrapSchema_inner (schema : ZodSchema) (u : Unwrapped) :
  unwrapSchema schema = Ok u -> unwrapEffects (inner u) = inner u.
Proof.
  rewrite unwrapSchema_eq.
  assert (forall current required dv,
            after_default current required dv = Ok u ->
            unwrapEffects (inner u) = inner u) as H.
  { intros current required dv H.
    destruct current; try (by apply unwrap_finish_inner in H).
    simpl in H. destruct (unwrapSchema current); [|done].
    by apply unwrap_finish_inner in H. }
  destruct (unwrapEffects schema); apply H.
Qed.

Lemma convert_inner_not_nullable self (schema : ZodSchema) (parsed : ParserDraft) :
  convert_inner self schema = Ok parsed -> is_nullable schema = false.
Proof. by destruct schema. Qed.

Lemma undefined_or_self (v : JsValue) :
  (if negb (is_undefined v) then v else JUndefined) = v.
Proof. by destruct v. Qed.

(** X21: making a schema optional does not change what it converts to:
    whenever the schema converts, the optional schema converts to the same
    parser schema, default included. *)
Theorem optional_keeps_conversion (schema : ZodSchema) (parsed : ParserDraft) :
  zodToWorkflowParserJsonSchema schema = Ok parsed ->
  zodToWorkflowParserJsonSchema (ZOptional schema) = Ok parsed.
Proof.
  rewrite (zodToWorkflowParserJsonSchema_unfold schema).
  rewrite (zodToWorkflowParserJsonSchema_unfold (ZOptional schema)).
  unfold convert_body. rewrite (unwrapSchema_eq (ZOptional schema)). simpl.
  destruct (unwrapSchema schema) as [u|] eqn:Eu; [|done].
  destruct (convert_inner _ (inner u)) as [p|] eqn:Ec; [|done].
  intros H. rewrite undefined_or_self.
  rewrite unwrap_finish_ok by (by apply convert_inner_not_nullable in Ec).
  simpl. by rewrite (unwrapSchema_inner schema u Eu), Ec.
Qed.

Lemma optional_keeps_conversion_witness :
  zodToWorkflowParserJsonSchema (ZOptional (ZDefault (JNum 3) (ZNumber [])))
  = Ok (PNumber None None None false (JNum 3)).
Proof. apply (optional_keeps_conversion (ZDefault (JNum 3) (ZNumber []))). reflexivity. Defined.

(** The schema is neither optional nor defaulted, refinements aside. *)
Definition plain (schema : ZodSchema) : Prop :=
  exists u, unwrapSchema schema = Ok u /\ u_required u = true.

Lemma plain_unwrap (schema : ZodSchema) (u : Unwrapped) :
  unwrapSchema schema = Ok u -> u_required u = true ->
  u = mkUnwrapped (unwrapEffects schema) JUndefined true
  /\ (forall dv, after_default schema false dv
                 = Ok (mkUnwrapped (unwrapEffects schema) dv false)).
Proof.
  intros H Hreq.
  destruct (unwrapSchema_required schema u H) as [Hr _].
  rewrite Hreq in Hr. symmetry in Hr.
  apply negb_true_iff, orb_false_iff in Hr as [Hopt Hdef].
  rewrite unwrapSchema_eq in H. unfold is_optional, carries_default in *.
  assert (unwrap_finish (unwrapEffects schema) JUndefined true = Ok u) as Hfin.
  { by destruct (unwrapEffects schema). }
  unfold unwrap_finish in Hfin.
  destruct (is_nullable (unwrapEffects schema)) eqn:Hnn; [done|].
  injection Hfin as <-. rewrite unwrapEffects_idempotent.
  split; [done|].
  intros dv. destruct schema; try (by apply unwrap_finish_ok); done.
Qed.

(** X22: giving a default to a schema that is neither optional nor
    defaulted changes nothing in its conversion but the default recorded:
    the result is the conversion of the schema with [default] set, and it
    fails when and as the schema fails. *)
Theorem default_sets_the_default (schema : ZodSchema) (dv : JsValue) :
  plain schema ->
  dv <> JUndefined ->
  zodToWorkflowParserJsonSchema (ZDefault dv schema)
  = match zodToWorkflowParserJsonSchema schema with
    | Ok parsed => Ok (set_default dv parsed)
    | Throw m => Throw m
    end.
Proof.
  intros (u & Hu & Hreq) Hdv.
  destruct (plain_unwrap schema u Hu Hreq) as (-> & Hafter).
  rewrite (zodToWorkflowParserJsonSchema_unfold (ZDefault dv schema)).
  rewrite (zodToWorkflowParserJsonSchema_unfold schema).
  unfold convert_body. rewrite (unwrapSchema_eq (ZDefault dv schema)). simpl.
  rewrite Hafter, Hu. simpl.
  destruct (convert_inner _ _); [|done]. by destruct dv.
Qed.

Lemma default_sets_the_default_witness :
  zodToWorkflowParserJsonSchema (ZDefault (JStr "") (ZEffects (ZString [])))
  = match zodToWorkflowParserJsonSchema (ZEffects (ZString [])) with
    | Ok parsed => Ok (set_default (JStr "") parsed)
    | Throw m => Throw m
    end.
Proof.
  apply (default_sets_the_default (ZEffects (ZString [])) (JStr "")).
  - eexists. split; reflexivity.
  - discriminate.
Defined.

(** ** Objects *)

Lemma object_loop_app self (l1 l2 : list (string * ZodSchema)) : forall acc,
  object_loop self (l1 ++ l2) acc
  = match object_loop self l1 acc with
    | Ok acc' => object_loop self l2 acc'
    | Throw m => Throw m
    end.
Proof.
  induction l1 as [|e l1 IH]; intros acc; [done|].
  simpl. destruct (object_step self acc e); [apply IH | done].
Qed.

Lemma object_loop_converts (l : list (string * ZodSchema)) : forall acc,
  Forall (fun e => exists p, zodToWorkflowParserJsonSchema e.2 = Ok p) l ->
  exists acc', object_loop zodToWorkflowParserJsonSchema l acc = Ok acc'.
Proof.
  induction l as [|[k v] l IH]; intros acc Hall; [by eexists|].
  apply Forall_cons in Hall as [[p Hp] Hall]. simpl in Hp.
  destruct (converted_unwraps v p Hp) as [u Hu].
  simpl. destruct acc as [props req]. simpl. rewrite Hp, Hu.
  destruct (_ && _); apply IH, Hall.
Qed.

(** X23: an object converts only if all of its properties do: the first
    property, in the order of the shape, that fails to convert makes the
    conversion of the object fail with the same error. *)
Theorem object_fails_with_first_failing_property
    (before after : list (string * ZodSchema)) key value m :
  Forall (fun e => exists p, zodToWorkflowParserJsonSchema e.2 = Ok p) before ->
  zodToWorkflowParserJsonSchema value = Throw m ->
  zodToWorkflowParserJsonSchema (ZObject (before ++ (key, value) :: after)) = Throw m.
Proof.
  intros Hbefore Hvalue.
  rewrite zodToWorkflowParserJsonSchema_unfold. unfold convert_body. simpl.
  rewrite object_loop_app.
  destruct (object_loop_converts before ([], []) Hbefore) as [[props req] ->].
  simpl. by rewrite Hvalue.
Qed.

Lemma object_fails_with_first_failing_property_witness :
  zodToWorkflowParserJsonSchema
    (ZObject ([("name", ZString [])] ++ ("when", ZOther "date") :: [("tags", ZNullable ZAny)]))
  = Throw "Unsupported Zod schema type for workflow parser conversion".
Proof.
  apply (object_fails_with_first_failing_property [("name", ZString [])]
           [("tags", ZNullable ZAny)] "when" (ZOther "date")).
  - repeat constructor. by eexists.
  - reflexivity.
Defined.

(** X24: the [required] list of a converted object names keys of the
    shape, in the order of the shape and each at most once; it is left
    out, never empty; and the object itself carries no default. *)
Theorem required_follows_the_shape
    (shape : list (string * ZodSchema)) properties required d :
  NoDup shape.*1 ->
  zodToWorkflowParserJsonSchema (ZObject shape) = Ok (PObject properties required d) ->
  default [] required `sublist_of` shape.*1
  /\ NoDup (default [] required)
  /\ required <> Some []
  /\ d = JUndefined.
Proof.
  intros Hnd H.
  rewrite zodToWorkflowParserJsonSchema_unfold in H.
  unfold convert_body in H. simpl in H.
  destruct (object_loop _ shape ([], [])) as [[props req]|] eqn:Eloop; [|done].
  injection H as <- <- <-.
  apply object_loop_spec in Eloop as (convs & _ & _ & ->); [|done].
  simpl.
  assert ((filter (fun e => member_required zodToWorkflowParserJsonSchema e.2 = true)
             shape).*1 `sublist_of` shape.*1) as Hsub.
  { apply fmap_sublist, sublist_filter. }
  destruct ((filter _ shape).*1) as [|k l] eqn:E; simpl.
  - split; [apply sublist_nil_l|]. split; [constructor|]. done.
  - split; [done|]. split; [|done]. by eapply sublist_NoDup.
Qed.

Lemma required_follows_the_shape_witness :
  default [] (Some ["status"; "choice"])
  `sublist_of` ["status"; "choice"; "maybe"].
Proof.
  refine (proj1 (required_follows_the_shape
    [("status", ZEnum [("pending", "pending"); ("done", "done")]);
     ("choice", ZUnion [ZLiteral (mkLiteral (JNum 1) None);
                        ZLiteral (mkLiteral (JNum 2) None)]);
     ("maybe", ZOptional (ZString []))]
    [("status", PString (Some ["pending"; "done"]) None None JUndefined);
     ("choice", PNumber (Some [1%Z; 2%Z]) None None false JUndefined);
     ("maybe", PString None None None JUndefined)]
    (Some ["status"; "choice"]) JUndefined _ eq_refl)).
  compute_done.
Defined.

(** ** Checks *)

(** The value of the last check of a kind, [fallback] when there is none. *)
Definition last_check (kind : string) (checks : list ZodCheck) (fallback : option Z)
    : option Z :=
  match last (filter (fun c => String.eqb (check_kind c) kind = true) checks) with
  | Some c => check_value c
  | None => fallback
  end.

Lemma last_check_cons kind c checks fallback :
  last_check kind (c :: checks) fallback
  = last_check kind checks
      (if String.eqb (check_kind c) kind then check_value c else fallback).
Proof.
  unfold last_check. destruct (String.eqb (check_kind c) kind) eqn:E.
  - rewrite filter_cons_True by done. rewrite last_cons. by destruct (last _).
  - rewrite filter_cons_False; [done|]. by rewrite E.
Qed.

Definition string_check_supported (c : ZodCheck) : bool :=
  String.eqb (check_kind c) "min" || String.eqb (check_kind c) "max"
  || string_check_ignored (check_kind c).

Definition number_check_supported (c : ZodCheck) : bool :=
  String.eqb (check_kind c) "min" || String.eqb (check_kind c) "max"
  || String.eqb (check_kind c) "int" || String.eqb (check_kind c) ""
  || String.eqb (check_kind c) "finite".

Lemma string_checks_loop_spec (checks : list ZodCheck) : forall lo hi,
  string_checks_loop checks lo hi
  = if forallb string_check_supported checks
    then Ok (last_check "min" checks lo, last_check "max" checks hi)
    else Throw "Unsupported string constraint in Zod schema".
Proof.
  induction checks as [|c checks IH]; intros lo hi; [done|].
  rewrite !last_check_cons. simpl. unfold string_check_supported at 1.
  destruct (String.eqb (check_kind c) "min") eqn:Emin.
  { apply String.eqb_eq in Emin. rewrite Emin. simpl. apply IH. }
  destruct (String.eqb (check_kind c) "max") eqn:Emax; [apply IH|].
  simpl. destruct (string_check_ignored (check_kind c)); [apply IH | done].
Qed.

(** X25: the checks of a string schema are read in order: the last [min]
    gives [minLength] and the last [max] gives [maxLength], email, url,
    uuid and regex checks are passed over, and a single check of any other
    kind, wherever it stands, makes the extraction fail. *)
Theorem extractStringChecks_spec (checks : list ZodCheck) :
  extractStringChecks checks
  = if forallb string_check_supported checks
    then Ok (last_check "min" checks None, last_check "max" checks None)
    else Throw "Unsupported string constraint in Zod schema".
Proof. apply string_checks_loop_spec. Qed.

Lemma number_checks_loop_spec (checks : list ZodCheck) : forall lo hi int,
  number_checks_loop checks lo hi int
  = if forallb number_check_supported checks
    then Ok (last_check "min" checks lo, last_check "max" checks hi,
             int || existsb (fun c => String.eqb (check_kind c) "int") checks)
    else Throw "Unsupported number constraint in Zod schema".
Proof.
  induction checks as [|c checks IH]; intros lo hi int.
  { simpl. by rewrite orb_false_r. }
  rewrite !last_check_cons. simpl. unfold number_check_supported at 1.
  destruct (String.eqb (check_kind c) "min") eqn:Emin.
  { apply String.eqb_eq in Emin. rewrite Emin. simpl. apply IH. }
  destruct (String.eqb (check_kind c) "max") eqn:Emax.
  { apply String.eqb_eq in Emax. rewrite Emax. simpl. apply IH. }
  destruct (String.eqb (check_kind c) "int") eqn:Eint.
  { simpl. rewrite IH. by rewrite !orb_true_r. }
  simpl. destruct (String.eqb (check_kind c) "" || String.eqb (check_kind c) "finite");
    [apply IH | done].
Qed.

(** X26: the checks of a number schema are read in order: the last [min]
    and the last [max] give the bounds, [integer] is set exactly when an
    [int] check occurs, finite checks are passed over, and a single check
    of any other kind makes the extraction fail. *)
Theorem extractNumberChecks_spec (checks : list ZodCheck) :
  extractNumberChecks checks
  = if forallb number_check_supported checks
    then Ok (last_check "min" checks None, last_check "max" checks None,
             existsb (fun c => String.eqb (check_kind c) "int") checks)
    else Throw "Unsupported number constraint in Zod schema".
Proof. apply number_checks_loop_spec. Qed.

(** ** Unions of literals *)

(** [z.literal(v)]: its [_def] holds [values], the array of the one
    value, and no [value]. *)
Definition literal (v : JsValue) : ZodSchema :=
  ZLiteral (mkLiteral JUndefined (Some [v])).

Lemma unwrap_literals (vals : list JsValue) :
  map_result unwrapSchema (map literal vals)
  = Ok (map (fun v => mkUnwrapped (literal v) JUndefined true) vals).
Proof. induction vals as [|v vals IH]; [done|]. simpl. by rewrite IH. Qed.

Lemma literals_kept (vals : list JsValue) :
  filter (fun s => is_literal s = true)
    (map inner (map (fun v => mkUnwrapped (literal v) JUndefined true) vals))
  = map literal vals.
Proof.
  induction vals as [|v vals IH]; [done|]. simpl.
  rewrite filter_cons_True by done. by rewrite IH.
Qed.

Lemma literal_values (vals : list JsValue) :
  map union_literal_value (map literal vals) = vals.
Proof.
  induction vals as [|v vals IH]; [done|]. simpl. by rewrite IH.
Qed.

(** The rest of [convertUnionOfLiterals], on the values of the literals. *)
Definition by_values (values : list JsValue) : Result ParserDraft :=
  match mapM as_string values with
  | Some strings => Ok (PString (Some strings) None None JUndefined)
  | None =>
      match mapM as_number values with
      | Some numbers => Ok (PNumber (Some numbers) None None false JUndefined)
      | None =>
          if forallb is_boolean values then
            match values with
            | [v] => Ok (PBoolean v)
            | _ => Throw "Boolean literal unions with multiple values are not supported"
            end
          else Throw "Unsupported literal union type"
      end
  end.

Lemma union_of_literals (vals : list JsValue) :
  convertUnionOfLiterals (map literal vals) = by_values vals.
Proof.
  unfold convertUnionOfLiterals. rewrite unwrap_literals, literals_kept.
  rewrite Nat.eqb_refl. simpl. by rewrite literal_values.
Qed.

Lemma mapM_strings (vs : list string) : mapM as_string (map JStr vs) = Some vs.
Proof. induction vs as [|v vs IH]; [done|]. simpl. by rewrite IH. Qed.

Lemma mapM_numbers (ns : list Z) : mapM as_number (map JNum ns) = Some ns.
Proof. induction ns as [|n ns IH]; [done|]. simpl. by rewrite IH. Qed.

Lemma filter_shorter {A} (P : A -> Prop) `{!forall x, Decision (P x)} (l : list A) :
  Exists (fun x => ~ P x) l -> length (filter P l) < length l.
Proof.
  induction 1 as [x l Hx|x l _ IH].
  - rewrite filter_cons_False by done. simpl.
    pose proof (length_filter P l). lia.
  - rewrite filter_cons. destruct (decide (P x)); simpl; [lia|].
    pose proof (length_filter P l). lia.
Qed.

(** X27: a union of string literals converts to a string enum and a
    union of number literals to a number enum, with the values in the
    order of the options; a single boolean literal converts to a boolean
    with that default and two boolean literals are refused; and a union
    with an option that is not a literal is refused as a whole. *)
Theorem union_of_literals_keeps_order :
  (forall vs : list string,
     convertUnionOfLiterals (map literal (map JStr vs))
     = Ok (PString (Some vs) None None JUndefined))
  /\ (forall n (ns : list Z),
        convertUnionOfLiterals (map literal (map JNum (n :: ns)))
        = Ok (PNumber (Some (n :: ns)) None None false JUndefined))
  /\ (forall b : bool,
        convertUnionOfLiterals [literal (JBool b)] = Ok (PBoolean (JBool b)))
  /\ (forall b b' (bs : list bool),
        convertUnionOfLiterals (map literal (map JBool (b :: b' :: bs)))
        = Throw "Boolean literal unions with multiple values are not supported")
  /\ (forall schemas us,
        map_result unwrapSchema schemas = Ok us ->
        Exists (fun u => is_literal (inner u) <> true) us ->
        convertUnionOfLiterals schemas = Throw "Only unions of literals are supported").
Proof.
  split; [|split; [|split; [|split]]].
  - intros vs. rewrite union_of_literals. unfold by_values. by rewrite mapM_strings.
  - intros n ns. rewrite union_of_literals. unfold by_values.
    rewrite mapM_numbers. reflexivity.
  - intros b. exact (union_of_literals [JBool b]).
  - intros b b' bs. rewrite union_of_literals. unfold by_values. simpl.
    assert (forallb is_boolean (map JBool bs) = true) as ->; [|done].
    induction bs; [done|]. done.
  - intros schemas us Hus Hex. unfold convertUnionOfLiterals. rewrite Hus.
    assert (length (filter (fun s => is_literal s = true) (map inner us)) < length schemas)
      as Hlt.
    { assert (length us = length schemas) as <-.
      { clear Hex. revert us Hus. induction schemas as [|s schemas IH]; intros us H.
        - by injection H as <-.
        - simpl in H. destruct (unwrapSchema s); [|done].
          destruct (map_result unwrapSchema schemas) eqn:E; [|done].
          injection H as <-. simpl. f_equal. by apply IH. }
      rewrite <- (length_map inner us).
      apply filter_shorter. clear Hus. induction Hex; simpl; by constructor. }
    destruct (Nat.eqb_spec (length (filter (fun s => is_literal s = true) (map inner us)))
                (length schemas)) as [E|_]; [lia|done].
Qed.

(** ** Rounds *)

Section Round.

Context {Transition : Type}.

(** The start step and the bound that the last call of [start] and of
    [maxRounds] in a chain set. *)
Definition start_set (calls : list (RoundCall Transition)) : option string :=
  last (omap (fun c => match c with CallStart k => Some k | _ => None end) calls).

Definition maxRounds_set (calls : list (RoundCall Transition)) : option Z :=
  last (omap (fun c => match c with CallMaxRounds n => Some n | _ => None end) calls).

Lemma call_settings (draft draft' : RoundDefinitionDraft Transition) c :
  call draft c = Ok draft' ->
  start draft' = match start_set [c] with Some k => Some k | None => start draft end
  /\ maxRounds draft'
     = match maxRounds_set [c] with Some n => Some n | None => maxRounds draft end.
Proof.
  destruct c; simpl; unfold RoundBuilder_cli, RoundBuilder_workflow, RoundBuilder_transform;
    try (by intros [= <-]).
  - destruct (buildCliStep Transition key command options); simpl; [|done].
    by intros [= <-].
  - destruct (buildWorkflowReferenceStep Transition key workflowId options); simpl; [|done].
    by intros [= <-].
  - destruct (buildTransformStep Transition key template options); simpl; [|done].
    by intros [= <-].
Qed.

Lemma chain_settings (calls : list (RoundCall Transition)) : forall draft draft',
  chain calls draft = Ok draft' ->
  start draft' = match start_set calls with Some k => Some k | None => start draft end
  /\ maxRounds draft'
     = match maxRounds_set calls with Some n => Some n | None => maxRounds draft end.
Proof.
  induction calls as [|c calls IH]; intros draft draft' H.
  { by injection H as <-. }
  simpl in H. destruct (call draft c) as [d1|] eqn:E; [|done].
  apply IH in H as [Hs Hm]. apply call_settings in E as [Es Em].
  rewrite Hs, Hm, Es, Em. unfold start_set, maxRounds_set.
  split; destruct c; simpl; try done; rewrite last_cons; by destruct (last _).
Qed.

(** X28: a round that [round()] has built is complete: it has at least
    one step and a default outcome, building it again gives it back
    unchanged, and its start step and its bound are those of the last call
    of [start] and of [maxRounds], absent when these were never called. *)
Theorem built_round_is_complete (calls : list (RoundCall Transition))
    (r : RoundDefinitionDraft Transition) :
  round calls = Ok r ->
  steps r <> []
  /\ is_Some (defaultOutcome r)
  /\ RoundBuilder_build r = Ok r
  /\ start r = start_set calls
  /\ maxRounds r = maxRounds_set calls.
Proof.
  unfold round. destruct (chain calls RoundBuilder_new) as [draft|] eqn:E; [|done].
  simpl. apply chain_settings in E as [Hs Hm]. simpl in Hs, Hm.
  unfold RoundBuilder_build.
  destruct (defaultOutcome draft) as [o|] eqn:Ho; [|done].
  destruct (steps draft) as [|st sts] eqn:Est; [done|].
  simpl. intros [= <-]. simpl.
  split; [done|]. split; [by eexists|]. split; [done|].
  rewrite Hs, Hm. split; [by destruct (start_set calls) | by destruct (maxRounds_set calls)].
Qed.

End Round.

Lemma built_round_is_complete_witness :
  RoundBuilder_build (Transition := unit)
    (mkRound (Some "agent")
       [AgentStep (mkAgentStep unit "agent" "director" ["Hello"] (no_options unit))]
       (Some 2%Z) (Some (mkOutcome "done" "Completed")))
  = Ok (mkRound (Some "agent")
          [AgentStep (mkAgentStep unit "agent" "director" ["Hello"] (no_options unit))]
          (Some 2%Z) (Some (mkOutcome "done" "Completed"))).
Proof.
  refine (proj1 (proj2 (proj2 (built_round_is_complete
    [CallStart "worker"; CallMaxRounds 5%Z;
     CallAgent "agent" "director" ["Hello"] (no_options unit);
     CallDefaultOutcome "done" "Completed";
     CallStart "agent"; CallMaxRounds 2%Z] _ eq_refl)))).
Defined.

(** ** [WorkflowBuilder] *)

Section Builder.

Context {Transition : Type}.
Variable validateWorkflowDefinition :
  WorkflowDefinition Transition -> Result (WorkflowDefinition Transition).

(** A chain of method calls on one workflow builder. *)
Inductive BuilderCall : Type :=
  | BDescription (text : string)
  | BModel (model : string)
  | BSession (role : string) (nameTemplate : option string)
  | BParser (name : string) (schema : SchemaArg)
  | BRole (name : string) (config : RoleConfig)
  | BUser (key : string) (schema : SchemaArg)
  | BStateInitial (initial : list (string * string))
  | BBootstrapAgent (key role : string) (prompt : list string)
      (options : CommonStepFields Transition)
  | BBootstrapCli (key command : string) (options : CliOptions Transition SchemaArg)
  | BBootstrapWorkflow (key workflowId : string)
      (options : ReferenceOptions Transition SchemaArg)
  | BBootstrapTransform (key : string) (template : JsValue)
      (options : TransformOptions Transition SchemaArg)
  | BRound (calls : list (RoundCall Transition)).

Definition builder_call (b : WorkflowBuilderState Transition) (c : BuilderCall)
    : Result (WorkflowBuilderState Transition) :=
  match c with
  | BDescription text => Ok (WorkflowBuilder_description text b)
  | BModel model => Ok (WorkflowBuilder_model model b)
  | BSession role nameTemplate => Ok (WorkflowBuilder_session role nameTemplate b)
  | BParser name schema => WorkflowBuilder_parser name schema b
  | BRole name config => Ok (WorkflowBuilder_role name config b)
  | BUser key schema => WorkflowBuilder_user key schema b
  | BStateInitial initial => Ok (WorkflowBuilder_stateInitial initial b)
  | BBootstrapAgent key role prompt options =>
      Ok (WorkflowBuilder_bootstrapAgent key role prompt options b)
  | BBootstrapCli key command options => WorkflowBuilder_bootstrapCli key command options b
  | BBootstrapWorkflow key workflowId options =>
      WorkflowBuilder_bootstrapWorkflow key workflowId options b
  | BBootstrapTransform key template options =>
      WorkflowBuilder_bootstrapTransform key template options b
  | BRound calls => WorkflowBuilder_round calls b
  end.

Fixpoint builder_chain (calls : list BuilderCall) (b : WorkflowBuilderState Transition)
    : Result (WorkflowBuilderState Transition) :=
  match calls with
  | [] => Ok b
  | c :: rest =>
      match builder_call b c with
      | Throw m => Throw m
      | Ok b' => builder_chain rest b'
      end
  end.

(** The sessions a chain declares, and the round its last call of
    [round] builds. *)
Definition sessions_declared (calls : list BuilderCall) : list (string * option string) :=
  omap (fun c => match c with BSession r t => Some (r, t) | _ => None end) calls.

Definition round_built (calls : list BuilderCall)
    : option (RoundDefinitionDraft Transition) :=
  last (omap (fun c => match c with
                       | BRound rc => match round rc with Ok r => Some r | Throw _ => None end
                       | _ => None
                       end) calls).

Lemma builder_call_state b b' c :
  builder_call b c = Ok b' ->
  b_id b' = b_id b
  /\ b_sessions b' = b_sessions b ++ sessions_declared [c]
  /\ b_round b' = match round_built [c] with Some r => Some r | None => b_round b end.
Proof.
  unfold sessions_declared, round_built.
  destruct c; simpl;
    unfold WorkflowBuilder_parser, WorkflowBuilder_user, WorkflowBuilder_bootstrapCli,
      WorkflowBuilder_bootstrapWorkflow, WorkflowBuilder_bootstrapTransform,
      WorkflowBuilder_round;
    try (intros [= <-]; simpl; by rewrite ?app_nil_r).
  - destruct (normalize_given schema); simpl; [|done].
    intros [= <-]. simpl. by rewrite app_nil_r.
  - destruct (normalize_given schema); simpl; [|done].
    intros [= <-]. simpl. by rewrite app_nil_r.
  - destruct (buildCliStep Transition key command options); simpl; [|done].
    intros [= <-]. simpl. by rewrite app_nil_r.
  - destruct (buildWorkflowReferenceStep Transition key workflowId options); simpl; [|done].
    intros [= <-]. simpl. by rewrite app_nil_r.
  - destruct (buildTransformStep Transition key template options); simpl; [|done].
    intros [= <-]. simpl. by rewrite app_nil_r.
  - destruct (round calls); simpl; [|done].
    intros [= <-]. simpl. by rewrite app_nil_r.
Qed.

Lemma builder_chain_state (calls : list BuilderCall) : forall b b',
  builder_chain calls b = Ok b' ->
  b_id b' = b_id b
  /\ b_sessions b' = b_sessions b ++ sessions_declared calls
  /\ b_round b' = match round_built calls with Some r => Some r | None => b_round b end.
Proof.
  induction calls as [|c calls IH]; intros b b' H.
  { injection H as <-. simpl. by rewrite app_nil_r. }
  simpl in H. destruct (builder_call b c) as [b1|] eqn:E; [|done].
  apply IH in H as (Hi & Hs & Hr). apply builder_call_state in E as (Ei & Es & Er).
  rewrite Hi, Hs, Hr, Ei, Es, Er. split; [done|]. split.
  - rewrite <- app_assoc. f_equal. unfold sessions_declared. simpl. by destruct c.
  - unfold round_built. simpl. destruct c; try done.
    destruct (round calls0) as [r|]; [|done].
    change (last [r]) with (Some r). rewrite last_cons. by destruct (last _).
Qed.


(** [o[key]] on an object of any member type, absent as [None]. *)
Fixpoint obj_find {A} (o : list (string * A)) (key : string) : option A :=
  match o with
  | [] => None
  | (k, v) :: rest => if String.eqb k key then Some v else obj_find rest key
  end.

Lemma obj_set_find {A} (o : list (string * A)) key (v : A) other :
  obj_find (obj_set o key v) other
  = if String.eqb key other then Some v else obj_find o other.
Proof.
  induction o as [|[k old] o IH]; simpl.
  - by destruct (String.eqb key other).
  - destruct (String.eqb_spec k key) as [->|Hne]; simpl.
    + by destruct (String.eqb key other).
    + rewrite IH. destruct (String.eqb_spec k other) as [->|]; [|done].
      by destruct (String.eqb_spec key other).
Qed.

(** The schema the last call of [parser] for [name] has registered. *)
Definition parser_registered (name : string) (calls : list BuilderCall)
    : option ParserDraft :=
  last (omap (fun c => match c with
                       | BParser n schema =>
                           if String.eqb n name
                           then match normalize_given schema with
                                | Ok p => Some p
                                | Throw _ => None
                                end
                           else None
                       | _ => None
                       end) calls).

Lemma builder_call_parsers b b' c name :
  builder_call b c = Ok b' ->
  obj_find (b_parsers b') name
  = match parser_registered name [c] with
    | Some p => Some p
    | None => obj_find (b_parsers b) name
    end.
Proof.
  unfold parser_registered.
  destruct c; simpl;
    unfold WorkflowBuilder_parser, WorkflowBuilder_user, WorkflowBuilder_bootstrapCli,
      WorkflowBuilder_bootstrapWorkflow, WorkflowBuilder_bootstrapTransform,
      WorkflowBuilder_round;
    try (by intros [= <-]).
  - destruct (normalize_given schema); simpl; [|done].
    intros [= <-]. simpl. rewrite obj_set_find.
    by destruct (String.eqb name0 name).
  - destruct (normalize_given schema); simpl; [|done]. by intros [= <-].
  - destruct (buildCliStep Transition key command options); simpl; [|done].
    by intros [= <-].
  - destruct (buildWorkflowReferenceStep Transition key workflowId options); simpl; [|done].
    by intros [= <-].
  - destruct (buildTransformStep Transition key template options); simpl; [|done].
    by intros [= <-].
  - destruct (round calls); simpl; [|done]. by intros [= <-].
Qed.

Lemma builder_chain_parsers (calls : list BuilderCall) name : forall b b',
  builder_chain calls b = Ok b' ->
  obj_find (b_parsers b') name
  = match parser_registered name calls with
    | Some p => Some p
    | None => obj_find (b_parsers b) name
    end.
Proof.
  induction calls as [|c calls IH]; intros b b' H.
  { by injection H as <-. }
  simpl in H. destruct (builder_call b c) as [b1|] eqn:E; [|done].
  apply IH in H. apply (builder_call_parsers _ _ _ name) in E.
  rewrite H, E. unfold parser_registered. simpl.
  destruct c; try done.
  destruct (String.eqb name0 name); [|done].
  destruct (normalize_given schema) as [p|]; [|done].
  change (last [p]) with (Some p). rewrite last_cons. by destruct (last _).
Qed.


End Builder.

Definition single_round : RoundDefinitionDraft unit :=
  mkRound (Some "agent")
    [AgentStep (mkAgentStep unit "agent" "agent" ["Hello"] (no_options unit))]
    (Some 1%Z) (Some (mkOutcome "completed" "done")).

Definition single_role : RoleConfig := mkRoleConfig "You answer." "passthrough" None.



End WorkflowBuilderFacts.
